(** * HTTP CONNECT proxy negotiation (proxy/http.c)

    A shallow embedding of the negotiation engine of [proxy/http.c]: the
    line reader [read_line], the header tokenizer [get_token] /
    [get_separator], and the resumable procedure
    [proxy_http_process_queue], followed by the properties established
    about them.

    Conventions.  A [strbuf] and a [bufchain] are lists of bytes; {[s->s]}
    read as a C string is the prefix of the buffer before its first NUL
    byte ([cstr]).  The coroutine macros [crBegin] / [crReturnV] /
    [crMaybeWaitUntilV] / [crStopV] / [crFinishV] are made explicit: the
    field [crLine] records the source line at which the procedure resumes,
    and one call of [proxy_http_process_queue] runs from that line to the
    next return.  Loops whose termination is not evident from their shape
    take a [fuel] argument and answer [None] when it runs out. *)

From Stdlib Require Import Ascii String List ZArith Lia Bool Arith.
From Stdlib Require Import DecimalString.
Import ListNotations.

(** ** Bytes and buffers *)

Definition strbuf := list ascii.
Definition bufchain := list ascii.

Definition NUL : ascii := "000"%char.
Definition TAB : ascii := "009"%char.
Definition LF : ascii := "010"%char.
Definition VT : ascii := "011"%char.
Definition FF : ascii := "012"%char.
Definition CR : ascii := "013"%char.
Definition SP : ascii := " "%char.
Definition DQUOTE : ascii := "034"%char.
Definition BACKSLASH : ascii := "092"%char.

(** A C string literal, as the list of its bytes. *)
Definition lit (s : string) : list ascii := list_ascii_of_string s.

Definition CRLF : list ascii := [CR; LF].

(** [s->s] handed to a C string function: the bytes before the first NUL. *)
Fixpoint cstr (s : list ascii) : list ascii :=
  match s with
  | [] => []
  | c :: s' => if Ascii.eqb c NUL then [] else c :: cstr s'
  end.

(** Modelled from the spec: [bufchain_try_fetch] with length 1 (utils, not
    in this file) peeks at the next unconsumed byte of the input stream
    without consuming it, and fails when none is available. *)
Definition bufchain_try_fetch (input : bufchain) : option ascii :=
  match input with
  | [] => None
  | c :: _ => Some c
  end.

(** Modelled from the spec: [bufchain_consume] removes a prefix of the
    input stream, which is then never seen again. *)
Definition bufchain_consume (input : bufchain) (n : nat) : bufchain :=
  skipn n input.

(** Modelled from the spec: [bufchain_try_consume] discards exactly [n]
    bytes when that many are available and otherwise does nothing and
    reports failure. *)
Definition bufchain_try_consume (input : bufchain) (n : Z)
  : bool * bufchain :=
  if (n <=? Z.of_nat (length input))%Z
  then (true, bufchain_consume input (Z.to_nat n))
  else (false, input).

(** Modelled from the spec: the [put_*] functions (marshal, not in this
    file) append to a buffer: one byte, a run of bytes, a string literal,
    a NUL-terminated string. *)
Definition put_byte (output : strbuf) (c : ascii) : strbuf := output ++ [c].
Definition put_data (output : strbuf) (d : list ascii) : strbuf := output ++ d.
Definition put_datalit (output : strbuf) (s : string) : strbuf :=
  output ++ lit s.
Definition put_dataz (output : strbuf) (z : list ascii) : strbuf :=
  output ++ cstr z.

(** Modelled from the spec: [strbuf_clear] (utils, not in this file)
    empties a buffer. *)
Definition strbuf_clear (b : strbuf) : strbuf := [].

(** [output->len > 0 && output->s[output->len - 1] == c] *)
Definition last_is (output : strbuf) (c : ascii) : bool :=
  match rev output with
  | [] => false
  | x :: _ => Ascii.eqb x c
  end.

(** Modelled from the spec: [strbuf_chomp] strips at most one trailing
    occurrence of the given byte. *)
Definition strbuf_chomp (output : strbuf) (c : ascii) : strbuf :=
  if last_is output c then removelast output else output.

(** ** The line reader (lines 10-42) *)

(** The code after the label [done]. *)
Definition read_line_done (input : bufchain) (output : strbuf)
  : bool * bufchain * strbuf :=
  (true, input, strbuf_chomp (strbuf_chomp output LF) CR).

(** One unit of [fuel] is one evaluation of the [while] condition.  The
    result is the returned flag with the input stream and the line buffer
    as the call leaves them. *)
Fixpoint read_line (fuel : nat) (input : bufchain) (output : strbuf)
    (is_header : bool) : option (bool * bufchain * strbuf) :=
  match fuel with
  | O => None
  | S fuel' =>
      match bufchain_try_fetch input with
      | None => Some (false, input, output)
      | Some c =>
          if is_header && last_is output LF then
            if negb (Ascii.eqb c SP) && negb (Ascii.eqb c TAB)
            then Some (read_line_done input output)
            else read_line fuel' input output is_header
          else
            let output := put_byte output c in
            let input := bufchain_consume input 1 in
            if negb is_header && last_is output LF
            then Some (read_line_done input output)
            else read_line fuel' input output is_header
      end
  end.

(** ** C library functions used by the engine

    These follow the C standard in the "C" locale. *)

Definition code (c : ascii) : Z := Z.of_nat (nat_of_ascii c).

Definition isspace (c : ascii) : bool :=
  Ascii.eqb c SP || Ascii.eqb c TAB || Ascii.eqb c LF ||
  Ascii.eqb c VT || Ascii.eqb c FF || Ascii.eqb c CR.

Definition isdigit (c : ascii) : bool :=
  ((48 <=? code c) && (code c <=? 57))%Z.

Definition isupper (c : ascii) : bool :=
  ((65 <=? code c) && (code c <=? 90))%Z.

Definition tolower (c : ascii) : ascii :=
  if isupper c then ascii_of_nat (nat_of_ascii c + 32) else c.

(** [stricmp] on two C strings: zero exactly when they agree up to the
    case of ASCII letters. *)
Fixpoint stricmp (a b : list ascii) : Z :=
  match a, b with
  | [], [] => 0
  | [], y :: _ => (- code (tolower y))%Z
  | x :: _, [] => code (tolower x)
  | x :: a', y :: b' =>
      if Ascii.eqb (tolower x) (tolower y) then stricmp a' b'
      else (code (tolower x) - code (tolower y))%Z
  end.

Fixpoint skip_space (l : list ascii) : list ascii :=
  match l with
  | c :: l' => if isspace c then skip_space l' else l
  | [] => []
  end.

(** The longest run of decimal digits at the head of [l], accumulated in
    base 10, and what follows it. *)
Fixpoint scan_digits (acc : Z) (l : list ascii) : Z * list ascii :=
  match l with
  | c :: l' =>
      if isdigit c then scan_digits (10 * acc + (code c - 48))%Z l'
      else (acc, l)
  | [] => (acc, [])
  end.

(** An optional sign: whether it is a minus, and the rest. *)
Definition scan_sign (l : list ascii) : bool * list ascii :=
  match l with
  | c :: l' =>
      if Ascii.eqb c "-"%char then (true, l')
      else if Ascii.eqb c "+"%char then (false, l')
      else (false, l)
  | [] => (false, [])
  end.

Inductive scan_result (A : Type) : Type :=
| ScanOk (v : A) (rest : list ascii)
| ScanMismatch
| ScanEOF.
Arguments ScanOk {A} v rest.
Arguments ScanMismatch {A}.
Arguments ScanEOF {A}.

(** Ordinary characters of a [scanf] format: each must match the next
    input byte exactly. *)
Fixpoint scan_literal (fmt l : list ascii) : scan_result unit :=
  match fmt with
  | [] => ScanOk tt l
  | f :: fmt' =>
      match l with
      | [] => ScanEOF
      | c :: l' =>
          if Ascii.eqb c f then scan_literal fmt' l' else ScanMismatch
      end
  end.

Definition LONG_MAX : Z := (2 ^ 63 - 1)%Z.
Definition LONG_MIN : Z := (- 2 ^ 63)%Z.

(** [strtol] on a sign and the number its digits denote: the result
    saturates at the bounds of [long], taken to be 64 bits wide. *)
Definition to_long (neg : bool) (v : Z) : Z :=
  if neg then (if (2 ^ 63 <? v)%Z then LONG_MIN else (- v)%Z)
  else (if (LONG_MAX <? v)%Z then LONG_MAX else v).

(** Conversion to [int], taken to be 32 bits wide: the value is reduced
    modulo 2^32 into the range of [int]. *)
Definition to_int (v : Z) : Z := ((v + 2 ^ 31) mod 2 ^ 32 - 2 ^ 31)%Z.

(** The directive [%d], which stores into an [int]: white space is
    skipped, then an optional sign and at least one digit are read.  C
    leaves the result undefined when the number does not fit; the value
    here is the one the GNU C library stores: the digits are converted as
    by [strtol] and the [long] is narrowed to [int], so that a number
    that does not fit wraps around ([4294967496] is stored as 200). *)
Definition scan_d (l : list ascii) : scan_result Z :=
  match skip_space l with
  | [] => ScanEOF
  | l0 =>
      let (neg, l1) := scan_sign l0 in
      match l1 with
      | d :: _ =>
          if isdigit d then
            let (v, rest) := scan_digits 0 l1 in
            ScanOk (to_int (to_long neg v)) rest
          else ScanMismatch
      | [] => ScanMismatch
      end
  end.

Definition EOF : Z := (-1)%Z.

(** What [sscanf(str, "HTTP/%d.%d %n%d", ...)] returns and stores. *)
Record scanned : Type := mkScanned {
  n_scanned : Z;
  maj_ver : Z;
  min_ver : Z;
  scanned_pos : option Z;
  scanned_status : option Z
}.

Definition sscanf_http (str : list ascii) : scanned :=
  match scan_literal (lit "HTTP/") str with
  | ScanEOF => mkScanned EOF 0 0 None None
  | ScanMismatch => mkScanned 0 0 0 None None
  | ScanOk _ r0 =>
      match scan_d r0 with
      | ScanEOF => mkScanned EOF 0 0 None None
      | ScanMismatch => mkScanned 0 0 0 None None
      | ScanOk maj r1 =>
          match scan_literal (lit ".") r1 with
          | ScanOk _ r2 =>
              match scan_d r2 with
              | ScanOk min r3 =>
                  let r4 := skip_space r3 in
                  let pos := (Z.of_nat (length str) - Z.of_nat (length r4))%Z in
                  match scan_d r4 with
                  | ScanOk st _ => mkScanned 3 maj min (Some pos) (Some st)
                  | _ => mkScanned 2 maj min (Some pos) None
                  end
              | _ => mkScanned 1 maj 0 None None
              end
          | _ => mkScanned 1 maj 0 None None
          end
      end
  end.

Definition UINTMAX_MAX : Z := (2 ^ 64 - 1)%Z.

(** [strtoumax(str, NULL, 10)]: white space, an optional sign, then the
    longest run of digits; no digits give 0, a value that does not fit
    gives [UINTMAX_MAX], and a minus sign negates within the unsigned
    type. *)
Definition strtoumax (str : list ascii) : Z :=
  let (neg, l1) := scan_sign (skip_space str) in
  let (v, _) := scan_digits 0 l1 in
  if (UINTMAX_MAX <? v)%Z then UINTMAX_MAX
  else if neg then ((- v) mod 2 ^ 64)%Z else v.

(** Conversion to [size_t], taken to be 64 bits wide. *)
Definition to_size_t (v : Z) : Z := (v mod 2 ^ 64)%Z.

(** [%d] of [put_fmt]. *)
Definition fmt_d (v : Z) : list ascii :=
  lit (NilZero.string_of_int (Z.to_int v)).

(** ** Base64 *)

Definition base64_alphabet : list ascii :=
  lit "ABCDEFGHIJKLMNOPQRSTUVWXYZabcdefghijklmnopqrstuvwxyz0123456789+/".

Definition base64_char (v : Z) : ascii :=
  nth (Z.to_nat v) base64_alphabet "="%char.

(** Modelled from the spec: [base64_encode_atom] (utils, not in this
    file) encodes one group of 1 to 3 bytes into 4 characters of the
    standard alphabet, a final group of 1 or 2 bytes being padded with
    [=]. *)
Definition base64_encode_atom (data : list ascii) : list ascii :=
  let n := length data in
  let b i := code (nth i data NUL) in
  let word :=
    Z.lor (Z.shiftl (b 0%nat) 16)
      (Z.lor (if (1 <? n)%nat then Z.shiftl (b 1%nat) 8 else 0%Z)
             (if (2 <? n)%nat then b 2%nat else 0%Z)) in
  [ base64_char (Z.shiftr word 18);
    base64_char (Z.land (Z.shiftr word 12) 63);
    if (1 <? n)%nat then base64_char (Z.land (Z.shiftr word 6) 63)
    else "="%char;
    if (2 <? n)%nat then base64_char (Z.land word 63) else "="%char ].

(** Lines 196-200: [for (i = 0; i < e; i += 3)] over the plaintext, each
    round encoding [e-i > 3 ? 3 : e-i] bytes. *)
Fixpoint base64_encode (input : list ascii) : list ascii :=
  match input with
  | [] => []
  | [a] => base64_encode_atom [a]
  | [a; b] => base64_encode_atom [a; b]
  | a :: b :: c :: rest => base64_encode_atom [a; b; c] ++ base64_encode rest
  end.

(** No newline of the pending text is followed by a space or a tab;
    [prev_newline] tells whether the text so far ends in a newline. *)
Fixpoint fold_free (prev_newline : bool) (input : bufchain) : bool :=
  match input with
  | [] => true
  | c :: input' =>
      if prev_newline then negb (Ascii.eqb c SP || Ascii.eqb c TAB)
      else fold_free (Ascii.eqb c LF) input'
  end.

(** ** The header tokenizer (lines 98-151) *)

Definition is_whitespace (c : ascii) : bool :=
  Ascii.eqb c SP || Ascii.eqb c TAB || Ascii.eqb c LF.

Definition is_separator (c : ascii) : bool :=
  Ascii.eqb c "("%char || Ascii.eqb c ")"%char || Ascii.eqb c "<"%char ||
  Ascii.eqb c ">"%char || Ascii.eqb c "@"%char || Ascii.eqb c ","%char ||
  Ascii.eqb c ";"%char || Ascii.eqb c ":"%char || Ascii.eqb c BACKSLASH ||
  Ascii.eqb c DQUOTE || Ascii.eqb c "/"%char || Ascii.eqb c "["%char ||
  Ascii.eqb c "]"%char || Ascii.eqb c "?"%char || Ascii.eqb c "="%char ||
  Ascii.eqb c "{"%char || Ascii.eqb c "}"%char.

(** [while (pos < len && is_whitespace(s[pos])) pos++;] where [rest] is
    the buffer from [pos] on. *)
Fixpoint skip_whitespace (rest : list ascii) (pos : nat) : nat :=
  match rest with
  | c :: rest' => if is_whitespace c then skip_whitespace rest' (S pos) else pos
  | [] => pos
  end.

(** The loop of lines 127-130, returning the bytes put into the token and
    the final [pos]. *)
Fixpoint take_token (rest : list ascii) (pos : nat) : list ascii * nat :=
  match rest with
  | c :: rest' =>
      if negb (is_whitespace c) && negb (is_separator c) then
        let (tok, pos') := take_token rest' (S pos) in (c :: tok, pos')
      else ([], pos)
  | [] => ([], pos)
  end.

(** ** The negotiator (lines 44-57) *)

Inductive HttpHeader : Type :=
| HDR_CONNECTION
| HDR_CONTENT_LENGTH
| HDR_PROXY_AUTHENTICATE
| HDR_UNKNOWN.

(** The resumption points of the coroutine: the line of the [crReturnV]
    (or of the [crMaybeWaitUntilV] holding it) at which the last call
    returned; [Cr0] is the start of the procedure. *)
Inductive crLine_t : Type := Cr0 | Cr213 | Cr223 | Cr246 | Cr295 | Cr357.

Record prompt_t : Type := mkPrompt {
  prompt : list ascii;
  echo : bool
}.

Record prompts_t : Type := mkPrompts {
  to_server : bool;
  from_server : bool;
  name : list ascii;
  prompts_list : list prompt_t
}.

Definition n_prompts (p : prompts_t) : Z := Z.of_nat (length (prompts_list p)).

(** Modelled from the spec: [add_prompt] appends one labelled field to
    the request; a field that is not echoed is a masked one. *)
Definition add_prompt (p : prompts_t) (label : list ascii) (e : bool)
  : prompts_t :=
  mkPrompts (to_server p) (from_server p) (name p)
            (prompts_list p ++ [mkPrompt label e]).

(** Modelled from the spec: what [seat_get_userpass_input] (not in this
    file) answers: a positive value with the results filled in, zero when
    the user cancelled, a negative value while the answer is pending. *)
Inductive SeatReply : Type :=
| SeatDone (results : list (list ascii))
| SeatCancelled
| SeatPending.

Definition prompt_result (r : SeatReply) : Z :=
  match r with
  | SeatDone _ => 1
  | SeatCancelled => 0
  | SeatPending => (-1)
  end.

(** [prompt_get_result_ref(p->prompts[i])] *)
Definition prompt_get_result_ref (r : SeatReply) (i : Z) : list ascii :=
  match r with
  | SeatDone results => nth (Z.to_nat i) results []
  | _ => []
  end.

(** The parts of the [ProxySocket] the engine reads: the configured
    credentials, and the destination as [sk_getaddr] renders it. *)
Record ProxySocket : Type := mkProxySocket {
  conf_proxy_username : list ascii;
  conf_proxy_password : list ascii;
  remote_addr : list ascii;
  remote_port : Z
}.

(** The parts of the [ProxyNegotiator] the engine uses; [itr] tells
    whether an interactor is present ([pn->itr != NULL]). *)
Record ProxyNegotiator : Type := mkProxyNegotiator {
  ps : ProxySocket;
  itr : bool;
  input : bufchain;
  output : bufchain;
  error : option (list ascii);
  done : bool;
  aborted : bool
}.

Record HttpProxyNegotiator : Type := mkHttpProxyNegotiator {
  crLine : crLine_t;
  response : strbuf;
  header : strbuf;
  token : strbuf;
  http_status_pos : Z;
  header_pos : nat;
  username : strbuf;
  password : strbuf;
  http_status : Z;
  connection_close : bool;
  tried_no_auth : bool;
  try_auth_from_conf : bool;
  prompts : option prompts_t;
  username_prompt_index : Z;
  password_prompt_index : Z;
  content_length : Z;
  pn : ProxyNegotiator
}.

(** Field updates. *)
Definition pn_set_input (v : bufchain) (p : ProxyNegotiator)
  : ProxyNegotiator :=
  mkProxyNegotiator (ps p) (itr p) v (output p) (error p) (done p) (aborted p).
Definition pn_set_output (v : bufchain) (p : ProxyNegotiator)
  : ProxyNegotiator :=
  mkProxyNegotiator (ps p) (itr p) (input p) v (error p) (done p) (aborted p).
Definition pn_set_error (v : option (list ascii)) (p : ProxyNegotiator)
  : ProxyNegotiator :=
  mkProxyNegotiator (ps p) (itr p) (input p) (output p) v (done p) (aborted p).
Definition pn_set_done (v : bool) (p : ProxyNegotiator) : ProxyNegotiator :=
  mkProxyNegotiator (ps p) (itr p) (input p) (output p) (error p) v (aborted p).
Definition pn_set_aborted (v : bool) (p : ProxyNegotiator) : ProxyNegotiator :=
  mkProxyNegotiator (ps p) (itr p) (input p) (output p) (error p) (done p) v.
Definition set_crLine (v : crLine_t) (s : HttpProxyNegotiator)
  : HttpProxyNegotiator :=
  mkHttpProxyNegotiator v (response s) (header s) (token s)
    (http_status_pos s) (header_pos s) (username s) (password s)
    (http_status s) (connection_close s) (tried_no_auth s)
    (try_auth_from_conf s) (prompts s) (username_prompt_index s)
    (password_prompt_index s) (content_length s) (pn s).
Definition set_response (v : strbuf) (s : HttpProxyNegotiator)
  : HttpProxyNegotiator :=
  mkHttpProxyNegotiator (crLine s) v (header s) (token s) (http_status_pos s)
    (header_pos s) (username s) (password s) (http_status s)
    (connection_close s) (tried_no_auth s) (try_auth_from_conf s) (prompts s)
    (username_prompt_index s) (password_prompt_index s) (content_length s)
    (pn s).
Definition set_header (v : strbuf) (s : HttpProxyNegotiator)
  : HttpProxyNegotiator :=
  mkHttpProxyNegotiator (crLine s) (response s) v (token s)
    (http_status_pos s) (header_pos s) (username s) (password s)
    (http_status s) (connection_close s) (tried_no_auth s)
    (try_auth_from_conf s) (prompts s) (username_prompt_index s)
    (password_prompt_index s) (content_length s) (pn s).
Definition set_token (v : strbuf) (s : HttpProxyNegotiator)
  : HttpProxyNegotiator :=
  mkHttpProxyNegotiator (crLine s) (response s) (header s) v
    (http_status_pos s) (header_pos s) (username s) (password s)
    (http_status s) (connection_close s) (tried_no_auth s)
    (try_auth_from_conf s) (prompts s) (username_prompt_index s)
    (password_prompt_index s) (content_length s) (pn s).
Definition set_http_status_pos (v : Z) (s : HttpProxyNegotiator)
  : HttpProxyNegotiator :=
  mkHttpProxyNegotiator (crLine s) (response s) (header s) (token s) v
    (header_pos s) (username s) (password s) (http_status s)
    (connection_close s) (tried_no_auth s) (try_auth_from_conf s) (prompts s)
    (username_prompt_index s) (password_prompt_index s) (content_length s)
    (pn s).
Definition set_header_pos (v : nat) (s : HttpProxyNegotiator)
  : HttpProxyNegotiator :=
  mkHttpProxyNegotiator (crLine s) (response s) (header s) (token s)
    (http_status_pos s) v (username s) (password s) (http_status s)
    (connection_close s) (tried_no_auth s) (try_auth_from_conf s) (prompts s)
    (username_prompt_index s) (password_prompt_index s) (content_length s)
    (pn s).
Definition set_username (v : strbuf) (s : HttpProxyNegotiator)
  : HttpProxyNegotiator :=
  mkHttpProxyNegotiator (crLine s) (response s) (header s) (token s)
    (http_status_pos s) (header_pos s) v (password s) (http_status s)
    (connection_close s) (tried_no_auth s) (try_auth_from_conf s) (prompts s)
    (username_prompt_index s) (password_prompt_index s) (content_length s)
    (pn s).
Definition set_password (v : strbuf) (s : HttpProxyNegotiator)
  : HttpProxyNegotiator :=
  mkHttpProxyNegotiator (crLine s) (response s) (header s) (token s)
    (http_status_pos s) (header_pos s) (username s) v (http_status s)
    (connection_close s) (tried_no_auth s) (try_auth_from_conf s) (prompts s)
    (username_prompt_index s) (password_prompt_index s) (content_length s)
    (pn s).
Definition set_http_status (v : Z) (s : HttpProxyNegotiator)
  : HttpProxyNegotiator :=
  mkHttpProxyNegotiator (crLine s) (response s) (header s) (token s)
    (http_status_pos s) (header_pos s) (username s) (password s) v
    (connection_close s) (tried_no_auth s) (try_auth_from_conf s) (prompts s)
    (username_prompt_index s) (password_prompt_index s) (content_length s)
    (pn s).
Definition set_connection_close (v : bool) (s : HttpProxyNegotiator)
  : HttpProxyNegotiator :=
  mkHttpProxyNegotiator (crLine s) (response s) (header s) (token s)
    (http_status_pos s) (header_pos s) (username s) (password s)
    (http_status s) v (tried_no_auth s) (try_auth_from_conf s) (prompts s)
    (username_prompt_index s) (password_prompt_index s) (content_length s)
    (pn s).
Definition set_tried_no_auth (v : bool) (s : HttpProxyNegotiator)
  : HttpProxyNegotiator :=
  mkHttpProxyNegotiator (crLine s) (response s) (header s) (token s)
    (http_status_pos s) (header_pos s) (username s) (password s)
    (http_status s) (connection_close s) v (try_auth_from_conf s) (prompts s)
    (username_prompt_index s) (password_prompt_index s) (content_length s)
    (pn s).
Definition set_try_auth_from_conf (v : bool) (s : HttpProxyNegotiator)
  : HttpProxyNegotiator :=
  mkHttpProxyNegotiator (crLine s) (response s) (header s) (token s)
    (http_status_pos s) (header_pos s) (username s) (password s)
    (http_status s) (connection_close s) (tried_no_auth s) v (prompts s)
    (username_prompt_index s) (password_prompt_index s) (content_length s)
    (pn s).
Definition set_prompts (v : option prompts_t) (s : HttpProxyNegotiator)
  : HttpProxyNegotiator :=
  mkHttpProxyNegotiator (crLine s) (response s) (header s) (token s)
    (http_status_pos s) (header_pos s) (username s) (password s)
    (http_status s) (connection_close s) (tried_no_auth s)
    (try_auth_from_conf s) v (username_prompt_index s)
    (password_prompt_index s) (content_length s) (pn s).
Definition set_username_prompt_index (v : Z) (s : HttpProxyNegotiator)
  : HttpProxyNegotiator :=
  mkHttpProxyNegotiator (crLine s) (response s) (header s) (token s)
    (http_status_pos s) (header_pos s) (username s) (password s)
    (http_status s) (connection_close s) (tried_no_auth s)
    (try_auth_from_conf s) (prompts s) v (password_prompt_index s)
    (content_length s) (pn s).
Definition set_password_prompt_index (v : Z) (s : HttpProxyNegotiator)
  : HttpProxyNegotiator :=
  mkHttpProxyNegotiator (crLine s) (response s) (header s) (token s)
    (http_status_pos s) (header_pos s) (username s) (password s)
    (http_status s) (connection_close s) (tried_no_auth s)
    (try_auth_from_conf s) (prompts s) (username_prompt_index s) v
    (content_length s) (pn s).
Definition set_content_length (v : Z) (s : HttpProxyNegotiator)
  : HttpProxyNegotiator :=
  mkHttpProxyNegotiator (crLine s) (response s) (header s) (token s)
    (http_status_pos s) (header_pos s) (username s) (password s)
    (http_status s) (connection_close s) (tried_no_auth s)
    (try_auth_from_conf s) (prompts s) (username_prompt_index s)
    (password_prompt_index s) v (pn s).
Definition set_pn (v : ProxyNegotiator) (s : HttpProxyNegotiator)
  : HttpProxyNegotiator :=
  mkHttpProxyNegotiator (crLine s) (response s) (header s) (token s)
    (http_status_pos s) (header_pos s) (username s) (password s)
    (http_status s) (connection_close s) (tried_no_auth s)
    (try_auth_from_conf s) (prompts s) (username_prompt_index s)
    (password_prompt_index s) (content_length s) v.

Definition set_input (v : bufchain) (s : HttpProxyNegotiator) :=
  set_pn (pn_set_input v (pn s)) s.
Definition set_error (v : option (list ascii)) (s : HttpProxyNegotiator) :=
  set_pn (pn_set_error v (pn s)) s.
Definition set_done (v : bool) (s : HttpProxyNegotiator) :=
  set_pn (pn_set_done v (pn s)) s.
Definition set_aborted (v : bool) (s : HttpProxyNegotiator) :=
  set_pn (pn_set_aborted v (pn s)) s.
(** [put_data(pn->output, ...)] *)
Definition put_output (d : list ascii) (s : HttpProxyNegotiator) :=
  set_pn (pn_set_output (put_data (output (pn s)) d) (pn s)) s.

(** [b->len] as a truth value. *)
Definition nonempty (b : strbuf) : bool :=
  match b with
  | [] => false
  | _ :: _ => true
  end.

(** [proxy_http_new] (lines 59-70): every field zeroed, every buffer
    empty. *)
Definition proxy_http_new (sock : ProxySocket) (interactor : bool)
  : HttpProxyNegotiator :=
  mkHttpProxyNegotiator Cr0 [] [] [] 0 0 [] [] 0 false false false None 0 0 0
    (mkProxyNegotiator sock interactor [] [] None false false).

(** [get_token] (lines 113-134). *)
Definition get_token (s : HttpProxyNegotiator) : bool * HttpProxyNegotiator :=
  let pos :=
    skip_whitespace (skipn (header_pos s) (header s)) (header_pos s) in
  if (pos =? length (header s))%nat then (false, s)
  else if is_separator (nth pos (header s) NUL) then (false, s)
  else
    let (tok, pos') := take_token (skipn pos (header s)) pos in
    (true, set_header_pos pos' (set_token tok s)).

(** [get_separator] (lines 136-151). *)
Definition get_separator (s : HttpProxyNegotiator) (sep : ascii)
  : bool * HttpProxyNegotiator :=
  let pos :=
    skip_whitespace (skipn (header_pos s) (header s)) (header_pos s) in
  if (pos =? length (header s))%nat then (false, s)
  else if negb (Ascii.eqb (nth pos (header s) NUL) sep) then (false, s)
  else (true, set_header_pos (S pos) s).

(** ** The negotiation procedure (lines 153-389) *)

(** How a block of the procedure ends: control goes on to the code after
    it, or the call returns through [crStopV]. *)
Inductive flow : Type :=
| Next (s : HttpProxyNegotiator)
| Stop (s : HttpProxyNegotiator).

(** Modelled from the spec: [crStopV] (a macro, not in this file) ends
    the procedure for good: the resumption point is forgotten and the
    call returns. *)
Definition crStopV (s : HttpProxyNegotiator) : HttpProxyNegotiator :=
  set_crLine Cr0 s.

(** Lines 162-165. *)
Definition init_from_conf (s : HttpProxyNegotiator) : HttpProxyNegotiator :=
  let s := set_username
             (put_dataz (username s) (conf_proxy_username (ps (pn s)))) s in
  let s := set_password
             (put_dataz (password s) (conf_proxy_password (ps (pn s)))) s in
  if nonempty (username s) || nonempty (password s)
  then set_try_auth_from_conf true s
  else s.

(** Lines 171-178: the two lines every request starts with. *)
Definition connect_prefix (sock : ProxySocket) : list ascii :=
  let dest := cstr (remote_addr sock) in
  lit "CONNECT " ++ dest ++ lit ":" ++ fmt_d (remote_port sock)
    ++ lit " HTTP/1.1" ++ CRLF
    ++ lit "Host: " ++ dest ++ lit ":" ++ fmt_d (remote_port sock) ++ CRLF.

(** Lines 186-207. *)
Definition send_auth (s : HttpProxyNegotiator) : HttpProxyNegotiator :=
  if tried_no_auth s then
    if nonempty (username s) || nonempty (password s) then
      let s := put_output (lit "Proxy-Authorization: Basic ") s in
      let base64_input := username s ++ [":"%char] ++ password s in
      let s := put_output (base64_encode base64_input) s in
      put_output CRLF s
    else s
  else set_tried_no_auth true s.

(** Lines 171-213: one pass from the top of the [while (true)] loop to
    the [crReturnV] after the request. *)
Definition send_request (s : HttpProxyNegotiator) : HttpProxyNegotiator :=
  let s := put_output (connect_prefix (ps (pn s))) s in
  let s := send_auth s in
  let s := put_output CRLF s in
  set_crLine Cr213 s.

(** Lines 215-222. *)
Definition begin_response (s : HttpProxyNegotiator) : HttpProxyNegotiator :=
  let s := set_content_length 0 s in
  let s := set_connection_close false s in
  set_response (strbuf_clear (response s)) s.

Definition MSG_MALFORMED : list ascii :=
  lit "HTTP response was absent or malformed".
Definition MSG_UNSUPPORTED_PREFIX : list ascii :=
  lit "HTTP proxy asked for unsupported authentication type '".
Definition MSG_CLOSED : list ascii :=
  lit "HTTP proxy closed connection after asking for authentication".
Definition MSG_NO_AUTH : list ascii :=
  lit "HTTP proxy requested authentication which we do not have".
Definition MSG_RESPONSE_PREFIX : list ascii := lit "HTTP response ".

(** Lines 224-239. *)
Definition parse_status_line (s : HttpProxyNegotiator) : flow :=
  let r := sscanf_http (cstr (response s)) in
  let s := match scanned_pos r with
           | Some p => set_http_status_pos p s
           | None => s
           end in
  let s := match scanned_status r with
           | Some v => set_http_status v s
           | None => s
           end in
  if (n_scanned r <? 3)%Z then
    Stop (crStopV (set_error (Some MSG_MALFORMED) s))
  else if ((maj_ver r <? 1) && ((maj_ver r =? 1) && (min_ver r <? 1)))%Z
  then Next (set_connection_close true s)
  else Next s.

(** Lines 257-263: the header name looked up in [HTTP_HEADER_LIST]. *)
Definition header_kind (tok : list ascii) : HttpHeader :=
  let hdr := HDR_UNKNOWN in
  let hdr := if (stricmp tok (lit "Connection") =? 0)%Z
             then HDR_CONNECTION else hdr in
  let hdr := if (stricmp tok (lit "Content-Length") =? 0)%Z
             then HDR_CONTENT_LENGTH else hdr in
  let hdr := if (stricmp tok (lit "Proxy-Authenticate") =? 0)%Z
             then HDR_PROXY_AUTHENTICATE else hdr in
  hdr.

(** Lines 247-291: the body of the [do ... while] loop after the header
    line has been read.  [Next] leads to the loop condition (also through
    [continue]). *)
Definition process_header (s : HttpProxyNegotiator) : flow :=
  let s := set_header_pos 0 s in
  match get_token s with
  | (false, s) => Next s
  | (true, s) =>
      let hdr := header_kind (cstr (token s)) in
      match get_separator s ":"%char with
      | (false, s) => Next s
      | (true, s) =>
          match hdr with
          | HDR_CONTENT_LENGTH =>
              match get_token s with
              | (false, s) => Next s
              | (true, s) =>
                  Next (set_content_length
                          (to_size_t (strtoumax (cstr (token s)))) s)
              end
          | HDR_CONNECTION =>
              match get_token s with
              | (false, s) => Next s
              | (true, s) =>
                  if (stricmp (cstr (token s)) (lit "close") =? 0)%Z
                  then Next (set_connection_close true s)
                  else if (stricmp (cstr (token s)) (lit "keep-alive") =? 0)%Z
                  then Next (set_connection_close false s)
                  else Next s
              end
          | HDR_PROXY_AUTHENTICATE =>
              match get_token s with
              | (false, s) => Next s
              | (true, s) =>
                  if (stricmp (cstr (token s)) (lit "Basic") =? 0)%Z
                  then Next s
                  else
                    Stop (crStopV
                            (set_error
                               (Some (MSG_UNSUPPORTED_PREFIX
                                        ++ cstr (token s) ++ lit "'")) s))
              end
          | HDR_UNKNOWN => Next s
          end
      end
  end.

(** Lines 334-346. *)
Definition issue_prompts (s : HttpProxyNegotiator) : HttpProxyNegotiator :=
  let p := mkPrompts true false (lit "HTTP proxy authentication") [] in
  let (s, p) :=
    if negb (nonempty (username s))
    then (set_username_prompt_index (n_prompts p) s,
          add_prompt p (lit "Proxy username: ") true)
    else (set_username_prompt_index (-1) s, p) in
  let s := set_password_prompt_index (n_prompts p) s in
  let p := add_prompt p (lit "Proxy password: ") false in
  set_prompts (Some p) s.

Section Call.

(** The answer [seat_get_userpass_input] gives during this call. *)
Variable seat : prompts_t -> SeatReply.

(** Lines 348-373 and, once the user has answered, the next pass of the
    outer loop.  The prompts are always allocated when control is here;
    without them nothing is done. *)
Definition prompt_wait (s : HttpProxyNegotiator) : HttpProxyNegotiator :=
  match prompts s with
  | None => s
  | Some p =>
      let r := seat p in
      if (0 <? prompt_result r)%Z then
        let s :=
          if negb (username_prompt_index s =? -1)%Z then
            set_username
              (put_dataz (strbuf_clear (username s))
                 (prompt_get_result_ref r (username_prompt_index s))) s
          else s in
        let s :=
          set_password
            (put_dataz (strbuf_clear (password s))
               (prompt_get_result_ref r (password_prompt_index s))) s in
        let s := set_prompts None s in
        send_request s
      else if (prompt_result r =? 0)%Z then
        crStopV (set_aborted true s)
      else set_crLine Cr357 s
  end.

(** Lines 298-379, with what follows in the same call. *)
Definition decide (s : HttpProxyNegotiator) : HttpProxyNegotiator :=
  if ((200 <=? http_status s) && (http_status s <? 300))%Z then
    set_crLine Cr0 (set_done true s)
  else if (http_status s =? 407)%Z then
    if connection_close s then
      crStopV (set_error (Some MSG_CLOSED) s)
    else if try_auth_from_conf s then
      send_request (set_try_auth_from_conf false s)
    else if negb (itr (pn s)) then
      crStopV (set_error (Some MSG_NO_AUTH) s)
    else prompt_wait (issue_prompts s)
  else
    crStopV
      (set_error
         (Some (MSG_RESPONSE_PREFIX
                  ++ cstr (skipn (Z.to_nat (http_status_pos s))
                             (response s)))) s).

(** Lines 295-296 and on. *)
Definition await_body (s : HttpProxyNegotiator) : HttpProxyNegotiator :=
  let (ok, input') :=
    bufchain_try_consume (input (pn s)) (content_length s) in
  if ok then decide (set_input input' s) else set_crLine Cr295 s.

(** Lines 244-292 and on.  [resume] tells that the call re-enters the
    loop at the [crMaybeWaitUntilV] of line 246, after the
    [strbuf_clear].  One unit of [fuel] is one round of the loop. *)
Fixpoint header_loop (fuel : nat) (resume : bool) (s : HttpProxyNegotiator)
  : option HttpProxyNegotiator :=
  match fuel with
  | O => None
  | S fuel' =>
      let s := if resume then s
               else set_header (strbuf_clear (header s)) s in
      match read_line fuel (input (pn s)) (header s) true with
      | None => None
      | Some (false, input', header') =>
          Some (set_crLine Cr246 (set_header header' (set_input input' s)))
      | Some (true, input', header') =>
          match process_header (set_header header' (set_input input' s)) with
          | Stop s => Some s
          | Next s =>
              if nonempty (header s) then header_loop fuel' false s
              else Some (await_body s)
          end
      end
  end.

(** Lines 223-239 and on. *)
Definition await_status_line (fuel : nat) (s : HttpProxyNegotiator)
  : option HttpProxyNegotiator :=
  match read_line fuel (input (pn s)) (response s) false with
  | None => None
  | Some (false, input', response') =>
      Some (set_crLine Cr223 (set_response response' (set_input input' s)))
  | Some (true, input', response') =>
      match parse_status_line
              (set_response response' (set_input input' s)) with
      | Stop s => Some s
      | Next s => header_loop fuel false s
      end
  end.

(** One call of [proxy_http_process_queue]: [crBegin] dispatches on the
    saved line, and the procedure runs until it returns.  [None] means
    that [fuel] did not suffice for the call to return. *)
Definition proxy_http_process_queue (fuel : nat) (s : HttpProxyNegotiator)
  : option HttpProxyNegotiator :=
  match crLine s with
  | Cr0 => Some (send_request (init_from_conf s))
  | Cr213 => await_status_line fuel (begin_response s)
  | Cr223 => await_status_line fuel s
  | Cr246 => header_loop fuel true s
  | Cr295 => Some (await_body s)
  | Cr357 => Some (prompt_wait s)
  end.

End Call.

(** The caller between two calls: newly received bytes are appended to
    the input stream. *)
Definition receive (bytes : list ascii) (s : HttpProxyNegotiator)
  : HttpProxyNegotiator :=
  set_input (input (pn s) ++ bytes) s.

(** The negotiator is freed as soon as a call leaves one of these set. *)
Definition terminal (s : HttpProxyNegotiator) : bool :=
  match error (pn s) with
  | Some _ => true
  | None => done (pn s) || aborted (pn s)
  end.

Definition no_seat : prompts_t -> SeatReply := fun _ => SeatPending.

(** ** Negotiations *)

(** The states a negotiation can be in between two calls: the one
    [proxy_http_new] builds, and any state a call returns in, the
    negotiator being called again only while no outcome has been reported.
    [pn->output] is kept as the history of everything written to it. *)
Inductive negotiating (sock : ProxySocket) (interactor : bool)
  : HttpProxyNegotiator -> Prop :=
| negotiating_new :
    negotiating sock interactor (proxy_http_new sock interactor)
| negotiating_call s seat fuel bytes s' :
    negotiating sock interactor s ->
    terminal s = false ->
    proxy_http_process_queue seat fuel (receive bytes s) = Some s' ->
    negotiating sock interactor s'.

(** The fields on which requests and the retry policy depend; response
    parsing leaves them alone. *)
Definition auth_view (s : HttpProxyNegotiator) :=
  (username s, password s, tried_no_auth s, try_auth_from_conf s,
   prompts s, username_prompt_index s, password_prompt_index s,
   output (pn s), ps (pn s), itr (pn s), done (pn s), aborted (pn s)).

Definition same_auth (s m : HttpProxyNegotiator) : Prop :=
  auth_view s = auth_view m.

(** The [Proxy-Authorization] line for given credentials, none when both
    are empty. *)
Definition auth_line (u p : strbuf) : list ascii :=
  if nonempty u || nonempty p
  then lit "Proxy-Authorization: Basic "
         ++ base64_encode (u ++ [":"%char] ++ p) ++ CRLF
  else [].

(** ** Shapes of text *)

Definition digits (d : list ascii) : Prop :=
  d <> [] /\ Forall (fun c => isdigit c = true) d.

Definition spaces (w : list ascii) : Prop :=
  Forall (fun c => isspace c = true) w.

Definition sign (g : list ascii) : Prop :=
  g = [] \/ g = ["+"%char] \/ g = ["-"%char].

Definition digit_step (acc : Z) (c : ascii) : Z := (10 * acc + (code c - 48))%Z.

(** The number a run of decimal digits denotes. *)
Definition decimal_value (d : list ascii) : Z := fold_left digit_step d 0%Z.

(** Whether an optional sign is a minus. *)
Definition is_minus (g : list ascii) : bool :=
  match g with
  | c :: _ => Ascii.eqb c "-"%char
  | [] => false
  end.

(** The value [%d] stores in an [int] for a sign and a run of digits. *)
Definition signed_value (g d : list ascii) : Z :=
  to_int (to_long (is_minus g) (decimal_value d)).

(** Whether a text starts with a number as [strtoumax] and [%d] read
    one: after optional white space and an optional sign comes a
    digit. *)
Definition number_ahead (l : list ascii) : bool :=
  match snd (scan_sign (skip_space l)) with
  | c :: _ => isdigit c
  | [] => false
  end.

Definition no_digit_ahead (r : list ascii) : Prop :=
  match r with
  | c :: _ => isdigit c = false
  | [] => True
  end.

Definition no_space_ahead (r : list ascii) : Prop :=
  match r with
  | c :: _ => isspace c = false
  | [] => True
  end.

(** The lines on which [sscanf] with the format [HTTP/%d.%d %n%d] makes
    its three conversions: three integers, each with optional white space
    and sign before its digits, a dot between the first two, and white
    space or a sign between the last two. *)
Inductive scanf_status_line : list ascii -> Prop :=
| scanf_status_line_intro w1 g1 d1 w2 g2 d2 w3 g3 d3 rest :
    spaces w1 -> sign g1 -> digits d1 ->
    spaces w2 -> sign g2 -> digits d2 ->
    spaces w3 -> sign g3 -> digits d3 ->
    w3 ++ g3 <> [] ->
    scanf_status_line
      (lit "HTTP/" ++ w1 ++ g1 ++ d1 ++ lit "." ++ w2 ++ g2 ++ d2
         ++ w3 ++ g3 ++ d3 ++ rest).

(** The longest prefix of digits, and the rest. *)
Fixpoint span_digits (l : list ascii) : list ascii * list ascii :=
  match l with
  | c :: l' =>
      if isdigit c then let (d, r) := span_digits l' in (c :: d, r)
      else ([], l)
  | [] => ([], [])
  end.

(** The status line in the words of the specification:
    [HTTP/<major>.<minor> <3-digit-status>] followed by a reason phrase. *)
Definition spec_status_line (l : list ascii) : bool :=
  match scan_literal (lit "HTTP/") l with
  | ScanOk _ r0 =>
      let (major, r1) := span_digits r0 in
      nonempty major &&
      match r1 with
      | c1 :: r2 =>
          Ascii.eqb c1 "."%char &&
          let (minor, r3) := span_digits r2 in
          nonempty minor &&
          match r3 with
          | c2 :: r4 =>
              Ascii.eqb c2 SP &&
              let (status, _) := span_digits r4 in
              (length status =? 3)%nat
          | [] => false
          end
      | [] => false
      end
  | _ => false
  end.

(** The text that follows the status code on a response line, in the
    words of the specification: what [sscanf] leaves unread. *)
Definition text_after_status (line : list ascii) : list ascii :=
  match scan_literal (lit "HTTP/") line with
  | ScanOk _ r0 =>
      match scan_d r0 with
      | ScanOk _ r1 =>
          match scan_literal (lit ".") r1 with
          | ScanOk _ r2 =>
              match scan_d r2 with
              | ScanOk _ r3 =>
                  match scan_d (skip_space r3) with
                  | ScanOk _ r5 => r5
                  | _ => []
                  end
              | _ => []
              end
          | _ => []
          end
      | _ => []
      end
  | _ => []
  end.

(** A token that is an unsigned base-10 integer, in the words of the
    specification: one or more digits and nothing else. *)
Definition unsigned_decimal (tok : list ascii) : bool :=
  nonempty tok && forallb isdigit tok.

(** ** A sample negotiation, used to exercise the definitions *)

Definition sample_socket : ProxySocket :=
  mkProxySocket (lit "user") (lit "pass") (lit "example.com") 443.

(** The state in which the first call returns. *)
Definition first_sent (sock : ProxySocket) (interactor : bool)
  : HttpProxyNegotiator :=
  send_request (init_from_conf (proxy_http_new sock interactor)).

Definition sample_sent (interactor : bool) : HttpProxyNegotiator :=
  first_sent sample_socket interactor.


(** The fields besides cursor and token, which the tokenizer leaves as
    they are. *)
Definition parse_view (s : HttpProxyNegotiator) :=
  (crLine s, response s, header s, http_status_pos s, http_status s,
   connection_close s, content_length s, pn s, auth_view s).

(** ** Invariants of a negotiation *)

(** While the configured credentials are still to be tried, they are the
    ones held, and they are not both empty. *)
Definition conf_pending (sock : ProxySocket) (s : HttpProxyNegotiator)
  : Prop :=
  try_auth_from_conf s = true ->
  username s = cstr (conf_proxy_username sock)
  /\ password s = cstr (conf_proxy_password sock)
  /\ nonempty (username s) || nonempty (password s) = true.

(** What holds of the authentication fields from the first request on. *)
Record auth_inv (sock : ProxySocket) (interactor : bool)
    (s : HttpProxyNegotiator) : Prop := mkAuthInv {
  inv_ps : ps (pn s) = sock;
  inv_itr : itr (pn s) = interactor;
  inv_tried : tried_no_auth s = true;
  inv_pending : conf_pending sock s
}.

(** What holds of a state in which a call has returned. *)
Record call_inv (sock : ProxySocket) (interactor : bool)
    (s : HttpProxyNegotiator) : Prop := mkCallInv {
  inv_auth : auth_inv sock interactor s;
  inv_line : terminal s = false -> crLine s <> Cr0;
  inv_prompt :
    crLine s = Cr357 -> try_auth_from_conf s = false /\ prompts s <> None
}.

(** What a block of the response parser may do to a state. *)
Definition flow_ok (s : HttpProxyNegotiator) (f : flow) : Prop :=
  match f with
  | Next m =>
      auth_view m = auth_view s /\ error (pn m) = error (pn s)
      /\ header m = header s
  | Stop m =>
      auth_view m = auth_view s /\ error (pn m) <> None /\ crLine m = Cr0
  end.

(** How the part of a call that reads the response can end: waiting for
    more of the status line or of the headers, stopped on an error, or
    going on to the body with some state [m]. *)
Inductive parsed (seat : prompts_t -> SeatReply) (s s' : HttpProxyNegotiator)
  : Prop :=
| parsed_wait :
    auth_view s' = auth_view s -> error (pn s') = error (pn s) ->
    crLine s' = Cr223 \/ crLine s' = Cr246 ->
    parsed seat s s'
| parsed_stop :
    auth_view s' = auth_view s -> error (pn s') <> None ->
    crLine s' = Cr0 ->
    parsed seat s s'
| parsed_body m :
    auth_view m = auth_view s -> error (pn m) = error (pn s) ->
    s' = await_body seat m ->
    parsed seat s s'.

(** The request a call may have written: none, or one whose
    [Proxy-Authorization] line is made from the credentials held when the
    call returns. *)
Definition request_or_nothing (sock : ProxySocket)
    (s s' : HttpProxyNegotiator) : Prop :=
  output (pn s') = output (pn s)
  \/ output (pn s') =
     output (pn s) ++ connect_prefix sock
       ++ auth_line (username s') (password s') ++ CRLF.

(** The request of the automatic retry: the configured credentials, which
    are not both empty, in a [Proxy-Authorization] line. *)
Definition conf_request (sock : ProxySocket) : list ascii :=
  connect_prefix sock
    ++ lit "Proxy-Authorization: Basic "
    ++ base64_encode (cstr (conf_proxy_username sock) ++ [":"%char]
                        ++ cstr (conf_proxy_password sock))
    ++ CRLF ++ CRLF.

(** What one call, or the rest of one from the state [s] on, achieves when
    it ends in [s']. *)
Record step_ok (sock : ProxySocket) (interactor : bool)
    (s s' : HttpProxyNegotiator) : Prop := mkStepOk {
  step_inv : call_inv sock interactor s';
  step_request : request_or_nothing sock s s';
  step_flag_stays :
    try_auth_from_conf s = false -> try_auth_from_conf s' = false;
  step_retry :
    try_auth_from_conf s = true -> try_auth_from_conf s' = false ->
    output (pn s') = output (pn s) ++ conf_request sock
}.

(** A challenge the sample negotiation may receive. *)
Definition sample_407 : list ascii :=
  lit "HTTP/1.1 407 Proxy Authentication Required" ++ CRLF
    ++ lit "Proxy-Authenticate: Basic realm=proxy" ++ CRLF
    ++ lit "Content-Length: 3" ++ CRLF ++ CRLF ++ lit "abc".

(** The same challenge from a proxy speaking HTTP/1.0, with no
    [Connection] header. *)
Definition sample_407_http10 : list ascii :=
  lit "HTTP/1.0 407 Proxy Authentication Required" ++ CRLF
    ++ lit "Proxy-Authenticate: Basic realm=proxy" ++ CRLF
    ++ lit "Content-Length: 3" ++ CRLF ++ CRLF ++ lit "abc".

(** A negotiator that has just read the given status line. *)
Definition with_response (line : list ascii) : HttpProxyNegotiator :=
  set_response line (begin_response (sample_sent false)).

(** The error, if any, with which the sample negotiation ends when the
    proxy answers with the given status line, no header and no body (the
    byte after the blank line is what lets the blank line be seen as
    complete). *)
Definition failure_message (line : list ascii) : option (list ascii) :=
  match proxy_http_process_queue no_seat 200
          (receive (line ++ CRLF ++ CRLF ++ lit "S") (sample_sent false)) with
  | Some s' => error (pn s')
  | None => None
  end.

(** A negotiator that has parsed the given status line and read its
    headers, about to decide. *)
Definition with_status (line : list ascii) : HttpProxyNegotiator :=
  match parse_status_line (with_response line) with
  | Next s => s
  | Stop s => s
  end.

(** A negotiator that has just read the given header line. *)
Definition with_header (line : list ascii) : HttpProxyNegotiator :=
  set_header line
    (with_status (lit "HTTP/1.1 407 Proxy Authentication Required")).

(** The state after the header name and after the colon. *)
Definition after_name (s : HttpProxyNegotiator) : HttpProxyNegotiator :=
  snd (get_token (set_header_pos 0 s)).
Definition after_colon (s : HttpProxyNegotiator) : HttpProxyNegotiator :=
  snd (get_separator (after_name s) ":"%char).
Definition after_value (s : HttpProxyNegotiator) : HttpProxyNegotiator :=
  snd (get_token (after_colon s)).


(** A state in which the negotiator waits: for bytes that are not there,
    or for the answer of the user. *)
Definition waiting (seat : prompts_t -> SeatReply) (s : HttpProxyNegotiator)
  : Prop :=
  match crLine s with
  | Cr223 | Cr246 => input (pn s) = []
  | Cr295 =>
      fst (bufchain_try_consume (input (pn s)) (content_length s)) = false
  | Cr357 => exists p, prompts s = Some p /\ seat p = SeatPending
  | Cr0 | Cr213 => False
  end.

(** ** Further notions, for the properties of the tokenizer and of whole
    calls *)

(** A byte a token may hold: neither white space nor a separator. *)
Definition token_char (c : ascii) : bool :=
  negb (is_whitespace c) && negb (is_separator c).

(** Runs of white space (in the sense of the tokenizer) and of token
    bytes. *)
Definition blanks (w : list ascii) : Prop :=
  Forall (fun c => is_whitespace c = true) w.
Definition token_text (t : list ascii) : Prop :=
  t <> [] /\ Forall (fun c => token_char c = true) t.

(** The text that follows starts with a byte for which [p] fails, or is
    empty. *)
Definition stops (p : ascii -> bool) (r : list ascii) : Prop :=
  match r with
  | c :: _ => p c = false
  | [] => True
  end.

(** The flag a [Connection] header leaves, given the flag before and the
    value of the header. *)
Definition connection_flag (before : bool) (value : list ascii) : bool :=
  if (stricmp (cstr value) (lit "close") =? 0)%Z then true
  else if (stricmp (cstr value) (lit "keep-alive") =? 0)%Z then false
  else before.

(** At most one outcome is reported, and success only on a status from
    200 to 299. *)
Definition outcome_ok (s : HttpProxyNegotiator) : Prop :=
  (done (pn s) = true ->
   (200 <= http_status s < 300)%Z
   /\ error (pn s) = None /\ aborted (pn s) = false)
  /\ (error (pn s) <> None -> done (pn s) = false /\ aborted (pn s) = false).

(** Applying a change of state to the result of a block. *)
Definition flow_map (f : HttpProxyNegotiator -> HttpProxyNegotiator)
    (r : flow) : flow :=
  match r with
  | Next s => Next (f s)
  | Stop s => Stop (f s)
  end.

(** The ways a call can end, seen from the state [s] it started in: with
    a request written and the response awaited; suspended; or with one
    of the three outcomes. *)
Inductive call_exit (s s' : HttpProxyNegotiator) : Prop :=
| exit_request req :
    crLine s' = Cr213 -> terminal s' = false ->
    req <> [] -> output (pn s') = output (pn s) ++ req ->
    call_exit s s'
| exit_suspend :
    crLine s' <> Cr0 -> crLine s' <> Cr213 -> terminal s' = false ->
    output (pn s') = output (pn s) ->
    call_exit s s'
| exit_error e :
    crLine s' = Cr0 -> error (pn s') = Some e ->
    done (pn s') = false -> aborted (pn s') = false ->
    output (pn s') = output (pn s) ->
    call_exit s s'
| exit_done :
    crLine s' = Cr0 -> done (pn s') = true ->
    error (pn s') = None -> aborted (pn s') = false ->
    (200 <= http_status s' < 300)%Z ->
    output (pn s') = output (pn s) ->
    call_exit s s'
| exit_aborted :
    crLine s' = Cr0 -> aborted (pn s') = true ->
    error (pn s') = None -> done (pn s') = false ->
    output (pn s') = output (pn s) ->
    call_exit s s'.

(** No outcome has been reported. *)
Definition clean (s : HttpProxyNegotiator) : Prop :=
  error (pn s) = None /\ done (pn s) = false /\ aborted (pn s) = false.

(** Changing the resumption point recorded in the result of a block: it
    shows only when the block goes on, since [crStopV] overwrites it. *)
Definition flow_line (l : crLine_t) (r : flow) : flow :=
  match r with
  | Next s => Next (set_crLine l s)
  | Stop s => Stop s
  end.

(** What a call does when there is no user to ask: it never stops at the
    prompt, and it writes only if it changes [try_auth_from_conf]. *)
Definition no_prompt_step (s s' : HttpProxyNegotiator) : Prop :=
  crLine s' <> Cr357
  /\ (try_auth_from_conf s' = try_auth_from_conf s ->
      output (pn s') = output (pn s)).


(** * Properties *)

(** ** The definitions at work *)

Example base64_samples :
  base64_encode (lit "user:pass") = lit "dXNlcjpwYXNz"
  /\ base64_encode (lit "a:b") = lit "YTpi"
  /\ base64_encode (lit "ab:c") = lit "YWI6Yw=="
  /\ base64_encode (lit "ab:cd") = lit "YWI6Y2Q=".
Proof. repeat split; vm_compute; reflexivity. Qed.

Example first_request_sample :
  output (pn (sample_sent false)) =
  lit "CONNECT example.com:443 HTTP/1.1" ++ CRLF
    ++ lit "Host: example.com:443" ++ CRLF ++ CRLF.
Proof. vm_compute. reflexivity. Qed.

(** A 200 with no header: the blank line is seen as complete only when
    the byte after it is there, and that byte stays in the stream. *)
Example success_sample :
  (exists s',
      proxy_http_process_queue no_seat 100
        (receive (lit "HTTP/1.1 200 OK" ++ CRLF ++ CRLF) (sample_sent false))
      = Some s'
      /\ crLine s' = Cr246 /\ terminal s' = false)
  /\ (exists s',
         proxy_http_process_queue no_seat 100
           (receive (lit "HTTP/1.1 200 OK" ++ CRLF ++ CRLF ++ lit "S")
              (sample_sent false))
         = Some s'
         /\ done (pn s') = true /\ input (pn s') = lit "S").
Proof.
  split; eexists; (split; [vm_compute; reflexivity|]);
    split; vm_compute; reflexivity.
Qed.


(** ** The line reader *)

Lemma last_is_app_single (o : strbuf) (c d : ascii) :
  last_is (o ++ [c]) d = Ascii.eqb c d.
Proof. unfold last_is. rewrite rev_app_distr. reflexivity. Qed.

Lemma read_line_fold_stuck (fuel : nat) (c : ascii) (rest : bufchain)
    (output : strbuf) :
  last_is output LF = true -> c = SP \/ c = TAB ->
  read_line fuel (c :: rest) output true = None.
Proof.
  intros Hlast Hc. induction fuel as [|fuel IH]; [reflexivity|].
  simpl. rewrite Hlast. simpl.
  destruct Hc as [-> | ->]; exact IH.
Qed.

Lemma read_line_mono (fuel : nat) :
  forall fuel' input output is_header r,
    read_line fuel input output is_header = Some r -> fuel <= fuel' ->
    read_line fuel' input output is_header = Some r.
Proof.
  induction fuel as [|fuel IH]; intros fuel' input output is_header r H Hle.
  - discriminate.
  - destruct fuel' as [|fuel']; [lia|].
    simpl in *. destruct (bufchain_try_fetch input) as [c|]; [|exact H].
    destruct (is_header && last_is output LF).
    + destruct (negb (Ascii.eqb c SP) && negb (Ascii.eqb c TAB)); [exact H|].
      apply IH; [exact H | lia].
    + destruct (negb is_header && last_is (put_byte output c) LF); [exact H|].
      apply IH; [exact H | lia].
Qed.

(** A call that reports "need more input" has taken every byte there was
    and kept each of them, in order, at the end of the line buffer. *)
Lemma read_line_suspended (fuel : nat) :
  forall input output is_header input' output',
    read_line fuel input output is_header = Some (false, input', output') ->
    input' = [] /\ output' = output ++ input.
Proof.
  induction fuel as [|fuel IH]; intros input output is_header input' output' H.
  - discriminate.
  - simpl in H. destruct input as [|c input]; simpl in H.
    + inversion H; subst. split; [reflexivity | now rewrite app_nil_r].
    + destruct (is_header && last_is output LF).
      * destruct (negb (Ascii.eqb c SP) && negb (Ascii.eqb c TAB)).
        -- discriminate.
        -- now apply IH in H.
      * destruct (negb is_header && last_is (put_byte output c) LF).
        -- discriminate.
        -- apply IH in H. destruct H as [-> ->]. split; [reflexivity|].
           unfold put_byte. now rewrite <- app_assoc.
Qed.

(** Calling again with no new byte gives the same answer and changes
    nothing. *)
Lemma read_line_suspended_again (fuel fuel' : nat) :
  forall input output is_header input' output',
    read_line fuel input output is_header = Some (false, input', output') ->
    read_line (S fuel') input' output' is_header = Some (false, input', output').
Proof.
  intros input output is_header input' output' H.
  apply read_line_suspended in H. destruct H as [-> _]. reflexivity.
Qed.

(** The bytes a call leaves in the stream are a suffix of those it found:
    what it consumed is a prefix, taken once. *)
Lemma read_line_consumes_prefix (fuel : nat) :
  forall input output is_header b input' output',
    read_line fuel input output is_header = Some (b, input', output') ->
    exists used, input = used ++ input'.
Proof.
  induction fuel as [|fuel IH]; intros input output is_header b input' output' H.
  - discriminate.
  - simpl in H. destruct input as [|c input]; simpl in H.
    + inversion H; subst. now exists [].
    + destruct (is_header && last_is output LF).
      * destruct (negb (Ascii.eqb c SP) && negb (Ascii.eqb c TAB)).
        -- inversion H; subst. now exists [].
        -- now apply IH in H.
      * destruct (negb is_header && last_is (put_byte output c) LF).
        -- inversion H; subst. now exists [c].
        -- apply IH in H. destruct H as [used ->]. now exists (c :: used).
Qed.


(** In header mode the same holds as long as no newline is followed by a
    space or a tab. *)
Lemma read_line_header_returns (input : bufchain) :
  forall output,
    fold_free (last_is output LF) input = true ->
    exists r, read_line (S (length input)) input output true = Some r.
Proof.
  induction input as [|c input IH]; intros output Hfree.
  - now eexists.
  - cbn [length]. remember (S (length input)) as n. simpl.
    simpl in Hfree. destruct (last_is output LF).
    + rewrite negb_orb in Hfree. rewrite Hfree. now eexists.
    + subst n. apply IH. unfold put_byte. now rewrite last_is_app_single.
Qed.

Lemma process_queue_fold_stuck seat (fuel : nat) (s : HttpProxyNegotiator)
    (c : ascii) (rest : list ascii) :
  crLine s = Cr246 -> last_is (header s) LF = true -> input (pn s) = [] ->
  c = SP \/ c = TAB ->
  proxy_http_process_queue seat fuel (receive (c :: rest) s) = None.
Proof.
  intros Hline Hlast Hin Hc. unfold proxy_http_process_queue, receive.
  simpl. rewrite Hline. destruct fuel as [|fuel]; [reflexivity|].
  cbn [header_loop]. simpl input. rewrite Hin. cbn [app].
  simpl header.
  now rewrite (read_line_fold_stuck (S fuel) c rest _ Hlast Hc).
Qed.

(** C1.  A call does not always return.  The sample negotiation, having
    read a status line and a header line up to its newline, is waiting
    for the byte that tells whether the header goes on; when that byte is
    a space, the line reader's loop neither takes the byte nor leaves,
    so no amount of fuel lets the call return. *)
Theorem process_queue_hangs_on_folded_header :
  exists s,
    proxy_http_process_queue no_seat 100
      (receive (lit "HTTP/1.1 200 OK" ++ CRLF ++ lit "X-Note: a" ++ CRLF)
         (sample_sent false)) = Some s
    /\ terminal s = false
    /\ forall seat fuel rest,
         proxy_http_process_queue seat fuel (receive (SP :: rest) s) = None.
Proof.
  eexists. split; [vm_compute; reflexivity|]. split; [reflexivity|].
  intros seat fuel rest. apply process_queue_fold_stuck; try reflexivity.
  now left.
Qed.

(** C2.  In header mode, with a line buffer that ends in a newline and a
    space or a tab next in the stream, [read_line] does not take that
    byte: its loop repeats on the same state and the call never
    returns, whatever else the stream holds. *)
Theorem read_line_never_takes_fold_byte (fuel : nat) (output : strbuf)
    (rest : bufchain) :
  read_line fuel (SP :: rest) (output ++ [LF]) true = None
  /\ read_line fuel (TAB :: rest) (output ++ [LF]) true = None.
Proof.
  split; apply read_line_fold_stuck;
    try (rewrite last_is_app_single; reflexivity); auto.
Qed.


(** Projections of updated records, computed without unfolding anything
    else. *)
Ltac fields :=
  cbn [crLine response header token http_status_pos header_pos username
       password http_status connection_close tried_no_auth try_auth_from_conf
       prompts username_prompt_index password_prompt_index content_length pn
       ps itr input output error done aborted
       set_crLine set_response set_header set_token set_http_status_pos
       set_header_pos set_username set_password set_http_status
       set_connection_close set_tried_no_auth set_try_auth_from_conf
       set_prompts set_username_prompt_index set_password_prompt_index
       set_content_length set_pn set_input set_error set_done set_aborted
       put_output pn_set_input pn_set_output pn_set_error pn_set_done
       pn_set_aborted crStopV] in *.

(** ** Reading the response leaves the authentication state alone *)

Lemma get_token_view (s : HttpProxyNegotiator) :
  auth_view (snd (get_token s)) = auth_view s
  /\ pn (snd (get_token s)) = pn s
  /\ header (snd (get_token s)) = header s
  /\ crLine (snd (get_token s)) = crLine s.
Proof.
  unfold get_token.
  destruct (_ =? _)%nat; [now auto|].
  destruct (is_separator _); [now auto|].
  destruct (take_token _ _). now auto.
Qed.

Lemma get_separator_view (s : HttpProxyNegotiator) (sep : ascii) :
  auth_view (snd (get_separator s sep)) = auth_view s
  /\ pn (snd (get_separator s sep)) = pn s
  /\ header (snd (get_separator s sep)) = header s
  /\ crLine (snd (get_separator s sep)) = crLine s.
Proof.
  unfold get_separator.
  destruct (_ =? _)%nat; [now auto|].
  destruct (negb _); now auto.
Qed.

Lemma process_header_ok (s : HttpProxyNegotiator) :
  flow_ok s (process_header s).
Proof.
  unfold process_header.
  pose proof (get_token_view (set_header_pos 0 s)) as H1.
  destruct (get_token (set_header_pos 0 s)) as [b1 s1].
  simpl in H1. destruct H1 as (Ha1 & Hp1 & Hh1 & _).
  assert (flow_ok s (Next s1)) as Hs1.
  { simpl. rewrite Ha1, Hp1, Hh1. now auto. }
  destruct b1; [|exact Hs1].
  pose proof (get_separator_view s1 ":"%char) as H2.
  destruct (get_separator s1 ":"%char) as [b2 s2].
  simpl in H2. destruct H2 as (Ha2 & Hp2 & Hh2 & _).
  assert (flow_ok s (Next s2)) as Hs2.
  { simpl in *. rewrite Ha2, Hp2, Hh2. exact Hs1. }
  destruct b2; [|exact Hs2].
  pose proof (get_token_view s2) as H3.
  destruct (get_token s2) as [b3 s3].
  simpl in H3. destruct H3 as (Ha3 & Hp3 & Hh3 & _).
  assert (flow_ok s (Next s3)) as Hs3.
  { simpl in *. rewrite Ha3, Hp3, Hh3. exact Hs2. }
  simpl in Hs3. destruct Hs3 as (Ha & He & Hh).
  destruct (header_kind _); destruct b3; try exact Hs2;
    repeat match goal with
           | |- context [if ?b then _ else _] => destruct b
           end;
    simpl; repeat split; auto; discriminate.
Qed.

Lemma parse_status_line_ok (s : HttpProxyNegotiator) :
  flow_ok s (parse_status_line s).
Proof.
  unfold parse_status_line.
  destruct (scanned_pos _); destruct (scanned_status _);
    repeat match goal with
           | |- context [if ?b then _ else _] => destruct b
           end;
    simpl; repeat split; auto; discriminate.
Qed.

Lemma header_loop_parsed seat (fuel : nat) :
  forall resume s s',
    header_loop seat fuel resume s = Some s' -> parsed seat s s'.
Proof.
  induction fuel as [|fuel IH]; intros resume s s' H; [discriminate|].
  cbn [header_loop] in H.
  set (s0 := if resume then s else set_header (strbuf_clear (header s)) s) in H.
  assert (auth_view s0 = auth_view s /\ pn s0 = pn s) as [Ha0 Hp0]
    by (subst s0; destruct resume; now auto).
  destruct (read_line (S fuel) (input (pn s0)) (header s0) true)
    as [[[b input'] header']|]; [|discriminate].
  destruct b.
  - pose proof (process_header_ok (set_header header' (set_input input' s0)))
      as Hok.
    destruct (process_header _) as [m|m]; simpl in Hok.
    + destruct Hok as (Ha & He & _).
      assert (auth_view m = auth_view s) as Ham by (now rewrite Ha).
      assert (error (pn m) = error (pn s)) as Hem by (now rewrite He, Hp0).
      destruct (nonempty (header m)).
      * apply IH in H. destruct H as [Hv Hr Hl | Hv Hr Hl | m' Hv Hr Hs].
        -- apply parsed_wait; [now rewrite Hv | now rewrite Hr | exact Hl].
        -- apply parsed_stop; [now rewrite Hv | exact Hr | exact Hl].
        -- apply parsed_body with m'; [now rewrite Hv | now rewrite Hr | exact Hs].
      * inversion H; subst. now apply parsed_body with m.
    + destruct Hok as (Ha & He & Hl). inversion H; subst.
      apply parsed_stop; [now rewrite Ha | exact He | exact Hl].
  - inversion H; subst. apply parsed_wait; simpl; auto.
    now rewrite Hp0.
Qed.

Lemma await_status_line_parsed seat (fuel : nat) (s s' : HttpProxyNegotiator) :
  await_status_line seat fuel s = Some s' -> parsed seat s s'.
Proof.
  unfold await_status_line. intros H.
  destruct (read_line fuel (input (pn s)) (response s) false)
    as [[[b input'] response']|]; [|discriminate].
  destruct b.
  - pose proof (parse_status_line_ok
                  (set_response response' (set_input input' s))) as Hok.
    destruct (parse_status_line _) as [m|m]; simpl in Hok.
    + destruct Hok as (Ha & He & _).
      apply header_loop_parsed in H.
      destruct H as [Hv Hr Hl | Hv Hr Hl | m' Hv Hr Hs].
      * apply parsed_wait; [now rewrite Hv | now rewrite Hr | exact Hl].
      * apply parsed_stop; [now rewrite Hv | exact Hr | exact Hl].
      * apply parsed_body with m'; [now rewrite Hv | now rewrite Hr | exact Hs].
    + destruct Hok as (Ha & He & Hl). inversion H; subst.
      now apply parsed_stop.
  - inversion H; subst. apply parsed_wait; simpl; auto.
Qed.


(** ** What a call does to the authentication state *)

Lemma send_request_output (m : HttpProxyNegotiator) :
  tried_no_auth m = true ->
  output (pn (send_request m)) =
  output (pn m) ++ connect_prefix (ps (pn m))
    ++ auth_line (username m) (password m) ++ CRLF.
Proof.
  intros Ht. unfold send_request, send_auth, auth_line. fields.
  rewrite Ht. destruct (nonempty (username m) || nonempty (password m));
    fields; unfold put_data; rewrite <- ?app_assoc; reflexivity.
Qed.

Lemma send_request_fields (m : HttpProxyNegotiator) :
  username (send_request m) = username m
  /\ password (send_request m) = password m
  /\ try_auth_from_conf (send_request m) = try_auth_from_conf m
  /\ prompts (send_request m) = prompts m
  /\ ps (pn (send_request m)) = ps (pn m)
  /\ itr (pn (send_request m)) = itr (pn m)
  /\ error (pn (send_request m)) = error (pn m)
  /\ tried_no_auth (send_request m) = true
  /\ crLine (send_request m) = Cr213.
Proof.
  unfold send_request, send_auth.
  destruct (tried_no_auth m) eqn:Ht; simpl; rewrite ?Ht;
    destruct (nonempty (username m) || nonempty (password m)); simpl;
    repeat split; auto.
Qed.

Lemma send_request_step (sock : ProxySocket) (interactor : bool)
    (s m : HttpProxyNegotiator) :
  auth_inv sock interactor m ->
  try_auth_from_conf m = false ->
  output (pn m) = output (pn s) ->
  (try_auth_from_conf s = true ->
   username m = cstr (conf_proxy_username sock)
   /\ password m = cstr (conf_proxy_password sock)
   /\ nonempty (username m) || nonempty (password m) = true) ->
  step_ok sock interactor s (send_request m).
Proof.
  intros [Hps Hitr Htried Hpend] Hflag Hout Hconf.
  destruct (send_request_fields m)
    as (Hu & Hp & Hf & Hpr & Hps' & Hitr' & He & Ht & Hl).
  pose proof (send_request_output m Htried) as Ho.
  constructor.
  - constructor.
    + constructor; [congruence | congruence | congruence |].
      intros Hc. rewrite Hf in Hc. congruence.
    + intros _. rewrite Hl. discriminate.
    + rewrite Hl. discriminate.
  - right. rewrite Ho, Hu, Hp, Hout, Hps. reflexivity.
  - intros _. congruence.
  - intros Hs _. destruct (Hconf Hs) as (Hcu & Hcp & Hne).
    rewrite Ho, Hout, Hps. unfold conf_request, auth_line.
    rewrite Hne, Hcu, Hcp. now rewrite <- ?app_assoc.
Qed.

Lemma terminal_stop (e : list ascii) (m : HttpProxyNegotiator) :
  terminal (crStopV (set_error (Some e) m)) = true.
Proof. reflexivity. Qed.

(** A call that ends without touching credentials, flags or output. *)
Lemma quiet_step (sock : ProxySocket) (interactor : bool)
    (s s' : HttpProxyNegotiator) :
  auth_inv sock interactor s ->
  username s' = username s -> password s' = password s ->
  tried_no_auth s' = tried_no_auth s ->
  try_auth_from_conf s' = try_auth_from_conf s ->
  ps (pn s') = ps (pn s) -> itr (pn s') = itr (pn s) ->
  output (pn s') = output (pn s) ->
  (terminal s' = false -> crLine s' <> Cr0) ->
  (crLine s' = Cr357 -> try_auth_from_conf s' = false /\ prompts s' <> None) ->
  step_ok sock interactor s s'.
Proof.
  intros [Hps Hitr Htried Hpend] Hu Hp Ht Hf Hps' Hitr' Ho Hl Hpr.
  constructor.
  - constructor; [|exact Hl|exact Hpr].
    constructor; try congruence.
    intros Hc. rewrite Hf in Hc. rewrite Hu, Hp. auto.
  - now left.
  - congruence.
  - congruence.
Qed.

Lemma prompt_wait_step (sock : ProxySocket) (interactor : bool) seat
    (s m : HttpProxyNegotiator) :
  auth_inv sock interactor m ->
  try_auth_from_conf m = false -> prompts m <> None ->
  try_auth_from_conf s = false ->
  output (pn m) = output (pn s) ->
  step_ok sock interactor s (prompt_wait seat m).
Proof.
  intros Hinv Hflag Hprompts Hs Hout.
  unfold prompt_wait. destruct (prompts m) as [p|] eqn:Hp; [|congruence].
  destruct (0 <? prompt_result (seat p))%Z.
  - apply send_request_step; try congruence.
    + destruct Hinv as [Hps Hitr Htried Hpend].
      destruct (negb (username_prompt_index m =? -1)%Z);
        (constructor; simpl; auto; intros Hc; simpl in Hc; congruence).
    + destruct (negb (username_prompt_index m =? -1)%Z); simpl; auto.
    + destruct (negb (username_prompt_index m =? -1)%Z); simpl; auto.
  - destruct Hinv as [Hps Hitr Htried Hpend].
    destruct (prompt_result (seat p) =? 0)%Z.
    + constructor.
      * constructor; [constructor; simpl; auto | | simpl; discriminate].
        simpl. unfold terminal. simpl.
        destruct (error (pn m)); [discriminate|].
        rewrite orb_true_r. discriminate.
      * now left.
      * simpl. auto.
      * congruence.
    + constructor.
      * constructor; [constructor; simpl; auto | simpl; discriminate |].
        simpl. intros _. split; [exact Hflag | congruence].
      * now left.
      * simpl. auto.
      * congruence.
Qed.

Lemma issue_prompts_fields (m : HttpProxyNegotiator) :
  username (issue_prompts m) = username m
  /\ password (issue_prompts m) = password m
  /\ tried_no_auth (issue_prompts m) = tried_no_auth m
  /\ try_auth_from_conf (issue_prompts m) = try_auth_from_conf m
  /\ pn (issue_prompts m) = pn m
  /\ prompts (issue_prompts m) <> None.
Proof.
  unfold issue_prompts. destruct (negb (nonempty (username m))); simpl;
    repeat split; auto; discriminate.
Qed.

Lemma decide_step (sock : ProxySocket) (interactor : bool) seat
    (m : HttpProxyNegotiator) :
  auth_inv sock interactor m ->
  step_ok sock interactor m (decide seat m).
Proof.
  intros Hinv. unfold decide.
  destruct ((200 <=? http_status m) && (http_status m <? 300))%Z.
  { apply quiet_step; auto; simpl; try discriminate.
    unfold terminal. simpl. destruct (error (pn m)); discriminate. }
  destruct (http_status m =? 407)%Z.
  2:{ apply quiet_step; auto; simpl; discriminate. }
  destruct (connection_close m).
  { apply quiet_step; auto; simpl; discriminate. }
  destruct (try_auth_from_conf m) eqn:Hflag.
  { destruct Hinv as [Hps Hitr Htried Hpend].
    apply send_request_step; auto.
    constructor; simpl; auto. intros Hc. simpl in Hc. discriminate. }
  destruct (negb (itr (pn m))).
  { apply quiet_step; auto; simpl; discriminate. }
  destruct (issue_prompts_fields m) as (Hu & Hp & Ht & Hf & Hpn & Hpr).
  apply prompt_wait_step.
  - destruct Hinv as [Hps Hitr Htried Hpend].
    constructor; [congruence | congruence | congruence |].
    intros Hc. congruence.
  - congruence.
  - exact Hpr.
  - exact Hflag.
  - congruence.
Qed.

Lemma await_body_step (sock : ProxySocket) (interactor : bool) seat
    (m : HttpProxyNegotiator) :
  auth_inv sock interactor m ->
  step_ok sock interactor m (await_body seat m).
Proof.
  intros Hinv. unfold await_body.
  destruct (bufchain_try_consume (input (pn m)) (content_length m))
    as [ok input'].
  destruct ok.
  - assert (auth_inv sock interactor (set_input input' m)) as Hinv'
      by (destruct Hinv; constructor; auto).
    destruct (decide_step sock interactor seat _ Hinv') as [Hi Hr Hf Hy].
    constructor; auto.
  - apply quiet_step; auto; simpl; discriminate.
Qed.

Lemma auth_view_fields (s m : HttpProxyNegotiator) :
  auth_view m = auth_view s ->
  username m = username s /\ password m = password s
  /\ tried_no_auth m = tried_no_auth s
  /\ try_auth_from_conf m = try_auth_from_conf s
  /\ output (pn m) = output (pn s)
  /\ ps (pn m) = ps (pn s) /\ itr (pn m) = itr (pn s).
Proof.
  unfold auth_view. intros Hv. inversion Hv. repeat split; assumption.
Qed.

Lemma auth_inv_view (sock : ProxySocket) (interactor : bool)
    (s m : HttpProxyNegotiator) :
  auth_view m = auth_view s ->
  auth_inv sock interactor s -> auth_inv sock interactor m.
Proof.
  intros Hv [Hps Hitr Htried Hpend].
  apply auth_view_fields in Hv.
  destruct Hv as (Hu & Hp & Ht & Hf & Ho & Hs & Hi).
  constructor.
  - now rewrite Hs.
  - now rewrite Hi.
  - now rewrite Ht.
  - unfold conf_pending in *. rewrite Hf, Hu, Hp. exact Hpend.
Qed.

Lemma step_ok_view (sock : ProxySocket) (interactor : bool)
    (s m s' : HttpProxyNegotiator) :
  auth_view m = auth_view s ->
  step_ok sock interactor m s' -> step_ok sock interactor s s'.
Proof.
  intros Hv [Hi Hr Hf Hy].
  apply auth_view_fields in Hv.
  destruct Hv as (_ & _ & _ & Hfl & Ho & _ & _).
  constructor.
  - exact Hi.
  - unfold request_or_nothing in *. now rewrite <- Ho.
  - now rewrite <- Hfl.
  - now rewrite <- Hfl, <- Ho.
Qed.

Lemma parsed_step (sock : ProxySocket) (interactor : bool) seat
    (s s' : HttpProxyNegotiator) :
  auth_inv sock interactor s ->
  parsed seat s s' -> step_ok sock interactor s s'.
Proof.
  intros Hinv [Hv Hr Hl | Hv Hr Hl | m Hv Hr ->].
  - apply auth_view_fields in Hv.
    destruct Hv as (Hu & Hp & Ht & Hf & Ho & Hs & Hi).
    apply quiet_step; auto.
    + intros _. destruct Hl as [-> | ->]; discriminate.
    + destruct Hl as [-> | ->]; discriminate.
  - apply auth_view_fields in Hv.
    destruct Hv as (Hu & Hp & Ht & Hf & Ho & Hs & Hi).
    apply quiet_step; auto.
    + unfold terminal. destruct (error (pn s')); [discriminate | congruence].
    + rewrite Hl. discriminate.
  - apply step_ok_view with m; [exact Hv|].
    apply await_body_step. now apply auth_inv_view with s.
Qed.


(** ** Whole calls *)

(** The first call returns, whatever the fuel, having written the plain
    request. *)
Lemma first_call (sock : ProxySocket) (interactor : bool) seat (fuel : nat)
    (bytes : list ascii) :
  exists s1,
    proxy_http_process_queue seat fuel
      (receive bytes (proxy_http_new sock interactor)) = Some s1
    /\ call_inv sock interactor s1
    /\ output (pn s1) = connect_prefix sock ++ CRLF.
Proof.
  exists (send_request
            (init_from_conf (receive bytes (proxy_http_new sock interactor)))).
  split; [reflexivity|].
  set (s0 := init_from_conf (receive bytes (proxy_http_new sock interactor))).
  assert (tried_no_auth s0 = false /\ output (pn s0) = []
          /\ ps (pn s0) = sock /\ itr (pn s0) = interactor
          /\ username s0 = cstr (conf_proxy_username sock)
          /\ password s0 = cstr (conf_proxy_password sock)
          /\ try_auth_from_conf s0 =
             nonempty (username s0) || nonempty (password s0))
    as (Ht & Ho & Hs & Hi & Hu & Hp & Hf).
  { subst s0. unfold init_from_conf, receive, proxy_http_new. fields.
    unfold put_dataz. cbn [app].
    destruct (nonempty _ || nonempty _) eqn:Hne; fields; rewrite ?Hne;
      repeat split. }
  clearbody s0.
  unfold send_request, send_auth. fields. rewrite Ht. fields.
  unfold put_data. rewrite Ho, Hs. split; [|reflexivity].
  constructor; [constructor | |]; fields; try reflexivity; try discriminate.
  - exact Hs.
  - exact Hi.
  - intros Hc. fields. rewrite Hf in Hc. now auto.
Qed.

(** The three resumption points inside the response parser. *)
Lemma call_parsed seat (fuel : nat) (s s' : HttpProxyNegotiator) :
  crLine s = Cr213 \/ crLine s = Cr223 \/ crLine s = Cr246 ->
  proxy_http_process_queue seat fuel s = Some s' ->
  parsed seat s s'.
Proof.
  unfold proxy_http_process_queue.
  intros [-> | [-> | ->]] H.
  - apply await_status_line_parsed in H.
    destruct H as [Hv Hr Hl | Hv Hr Hl | m Hv Hr Hs].
    + now apply parsed_wait.
    + now apply parsed_stop.
    + now apply parsed_body with m.
  - now apply await_status_line_parsed in H.
  - now apply header_loop_parsed in H.
Qed.

Lemma receive_view (bytes : list ascii) (s : HttpProxyNegotiator) :
  auth_view (receive bytes s) = auth_view s
  /\ crLine (receive bytes s) = crLine s
  /\ prompts (receive bytes s) = prompts s
  /\ error (pn (receive bytes s)) = error (pn s).
Proof. repeat split. Qed.

Lemma call_step (sock : ProxySocket) (interactor : bool) seat (fuel : nat)
    (bytes : list ascii) (s s' : HttpProxyNegotiator) :
  call_inv sock interactor s -> terminal s = false ->
  proxy_http_process_queue seat fuel (receive bytes s) = Some s' ->
  step_ok sock interactor s s'.
Proof.
  intros [Hauth Hline Hprompt] Hterm Hcall.
  specialize (Hline Hterm).
  destruct (receive_view bytes s) as (Hv & Hl & Hp & He).
  assert (auth_inv sock interactor (receive bytes s)) as Hauth'
    by (now apply auth_inv_view with s).
  apply step_ok_view with (receive bytes s); [now symmetry|].
  destruct (crLine s) eqn:Hcr; try congruence.
  - apply parsed_step with seat; [exact Hauth'|].
    apply call_parsed with fuel; [left; congruence | exact Hcall].
  - apply parsed_step with seat; [exact Hauth'|].
    apply call_parsed with fuel; [right; left; congruence | exact Hcall].
  - apply parsed_step with seat; [exact Hauth'|].
    apply call_parsed with fuel; [right; right; congruence | exact Hcall].
  - unfold proxy_http_process_queue in Hcall. rewrite Hl in Hcall.
    inversion Hcall; subst. now apply await_body_step.
  - unfold proxy_http_process_queue in Hcall. rewrite Hl in Hcall.
    inversion Hcall; subst.
    destruct (Hprompt eq_refl) as [Hflag Hsome].
    apply prompt_wait_step; auto.
Qed.

Lemma negotiating_inv (sock : ProxySocket) (interactor : bool)
    (s : HttpProxyNegotiator) :
  negotiating sock interactor s ->
  s = proxy_http_new sock interactor \/ call_inv sock interactor s.
Proof.
  induction 1 as [|s seat fuel bytes s' Hneg IH Hterm Hcall]; [now left|].
  right. destruct IH as [-> | Hinv].
  - destruct (first_call sock interactor seat fuel bytes) as (s1 & H1 & Hi & _).
    congruence.
  - exact (step_inv _ _ _ _ (call_step _ _ _ _ _ _ _ Hinv Hterm Hcall)).
Qed.

(** C3.  The first call of a negotiation returns having written exactly
    the [CONNECT] line, the [Host] line and the blank line, whatever the
    configured credentials: no [Proxy-Authorization] header.  Any later
    call writes nothing or exactly one request: the same two lines, then,
    when the user name or the password held is not empty, the line
    [Proxy-Authorization: Basic] with the Base64 encoding of user name,
    colon and password, and then the blank line. *)
Theorem first_request_plain_later_requests_basic (sock : ProxySocket)
    (interactor : bool) :
  (forall seat fuel bytes, exists s1,
      proxy_http_process_queue seat fuel
        (receive bytes (proxy_http_new sock interactor)) = Some s1
      /\ output (pn s1) = connect_prefix sock ++ CRLF)
  /\ (forall s seat fuel bytes s',
         negotiating sock interactor s ->
         s <> proxy_http_new sock interactor ->
         terminal s = false ->
         proxy_http_process_queue seat fuel (receive bytes s) = Some s' ->
         output (pn s') = output (pn s)
         \/ output (pn s') =
            output (pn s) ++ connect_prefix sock
              ++ (if nonempty (username s') || nonempty (password s')
                  then lit "Proxy-Authorization: Basic "
                         ++ base64_encode
                              (username s' ++ [":"%char] ++ password s')
                         ++ CRLF
                  else [])
              ++ CRLF).
Proof.
  split.
  - intros seat fuel bytes.
    destruct (first_call sock interactor seat fuel bytes) as (s1 & H1 & _ & Ho).
    now exists s1.
  - intros s seat fuel bytes s' Hneg Hnew Hterm Hcall.
    destruct (negotiating_inv _ _ _ Hneg) as [-> | Hinv]; [congruence|].
    exact (step_request _ _ _ _ (call_step _ _ _ _ _ _ _ Hinv Hterm Hcall)).
Qed.

Lemma first_sent_negotiating (sock : ProxySocket) (interactor : bool) :
  negotiating sock interactor (first_sent sock interactor).
Proof.
  apply negotiating_call
    with (s := proxy_http_new sock interactor)
         (seat := no_seat) (fuel := 0) (bytes := []).
  - apply negotiating_new.
  - reflexivity.
  - reflexivity.
Qed.

Lemma sample_sent_negotiating (interactor : bool) :
  negotiating sample_socket interactor (sample_sent interactor).
Proof. apply first_sent_negotiating. Qed.

Lemma first_request_plain_later_requests_basic_witness :
  exists s',
    proxy_http_process_queue no_seat 200
      (receive sample_407 (sample_sent false)) = Some s'
    /\ output (pn s') =
       output (pn (sample_sent false)) ++ connect_prefix sample_socket
         ++ lit "Proxy-Authorization: Basic dXNlcjpwYXNz" ++ CRLF ++ CRLF.
Proof.
  destruct (first_request_plain_later_requests_basic sample_socket false)
    as [_ H].
  eexists. split; [vm_compute; reflexivity|].
  match goal with
  | |- output (pn ?s') = _ =>
      destruct (H (sample_sent false) no_seat 200 sample_407 s'
                  (sample_sent_negotiating false)
                  ltac:(discriminate) eq_refl
                  ltac:(vm_compute; reflexivity)) as [Hn | Hr]
  end.
  - vm_compute in Hn. discriminate.
  - vm_compute. reflexivity.
Defined.


(** ** The decision on a 407 *)

(** C4.  On status 407 the decision goes, in this order: a closing
    connection is a fatal error; else configured credentials not yet tried
    clear their flag and the request is sent again; else no interactor is
    a fatal error; else a prompt is issued, with a user name field only if
    no user name is held and always a password field that is not echoed.
    Over a negotiation, a call that finds the flag cleared leaves it
    cleared, so the automatic retry happens at most once, and the call
    that clears it writes exactly the request carrying the configured
    credentials. *)
Theorem proxy_auth_required_decision (sock : ProxySocket)
    (interactor : bool) :
  (forall seat m,
      http_status m = 407%Z ->
      (connection_close m = true ->
       decide seat m = crStopV (set_error (Some MSG_CLOSED) m))
      /\ (connection_close m = false -> try_auth_from_conf m = true ->
          decide seat m = send_request (set_try_auth_from_conf false m))
      /\ (connection_close m = false -> try_auth_from_conf m = false ->
          itr (pn m) = false ->
          decide seat m = crStopV (set_error (Some MSG_NO_AUTH) m))
      /\ (connection_close m = false -> try_auth_from_conf m = false ->
          itr (pn m) = true ->
          decide seat m = prompt_wait seat (issue_prompts m)
          /\ prompts (issue_prompts m) =
             Some (mkPrompts true false (lit "HTTP proxy authentication")
                     ((if nonempty (username m) then []
                       else [mkPrompt (lit "Proxy username: ") true])
                        ++ [mkPrompt (lit "Proxy password: ") false]))))
  /\ (forall s seat fuel bytes s',
         negotiating sock interactor s ->
         s <> proxy_http_new sock interactor ->
         terminal s = false ->
         proxy_http_process_queue seat fuel (receive bytes s) = Some s' ->
         (try_auth_from_conf s = false -> try_auth_from_conf s' = false)
         /\ (try_auth_from_conf s = true -> try_auth_from_conf s' = false ->
             output (pn s') = output (pn s) ++ conf_request sock)).
Proof.
  split.
  - intros seat m Hst. unfold decide. rewrite Hst. cbn [Z.leb Z.ltb Z.eqb
      Z.compare Pos.compare Pos.compare_cont andb Pos.eqb].
    split; [|split; [|split]].
    + intros Hc. now rewrite Hc.
    + intros Hc Hf. now rewrite Hc, Hf.
    + intros Hc Hf Hi. now rewrite Hc, Hf, Hi.
    + intros Hc Hf Hi. rewrite Hc, Hf, Hi. split; [reflexivity|].
      unfold issue_prompts. destruct (nonempty (username m)); reflexivity.
  - intros s seat fuel bytes s' Hneg Hnew Hterm Hcall.
    destruct (negotiating_inv _ _ _ Hneg) as [-> | Hinv]; [congruence|].
    destruct (call_step _ _ _ _ _ _ _ Hinv Hterm Hcall) as [_ _ Hf Hr].
    now split.
Qed.

Lemma proxy_auth_required_decision_witness :
  exists s',
    proxy_http_process_queue no_seat 200
      (receive sample_407 (sample_sent false)) = Some s'
    /\ try_auth_from_conf (sample_sent false) = true
    /\ try_auth_from_conf s' = false
    /\ output (pn s') =
       output (pn (sample_sent false)) ++ conf_request sample_socket.
Proof.
  destruct (proxy_auth_required_decision sample_socket false) as [_ H].
  eexists. split; [vm_compute; reflexivity|].
  split; [reflexivity|]. split; [reflexivity|].
  match goal with
  | |- output (pn ?s') = _ =>
      destruct (H (sample_sent false) no_seat 200 sample_407 s'
                  (sample_sent_negotiating false)
                  ltac:(discriminate) eq_refl
                  ltac:(vm_compute; reflexivity)) as [_ Hr]
  end.
  apply Hr; reflexivity.
Defined.




(** ** The scanners *)

Lemma scan_literal_app (fmt r : list ascii) :
  scan_literal fmt (fmt ++ r) = ScanOk tt r.
Proof.
  induction fmt as [|f fmt IH]; [reflexivity|].
  simpl. now rewrite Ascii.eqb_refl.
Qed.

Lemma scan_literal_elim (fmt : list ascii) :
  forall l u r, scan_literal fmt l = ScanOk u r -> l = fmt ++ r.
Proof.
  induction fmt as [|f fmt IH]; intros l u r H; simpl in H.
  - now inversion H.
  - destruct l as [|c l]; [discriminate|].
    destruct (Ascii.eqb c f) eqn:Hc; [|discriminate].
    apply Ascii.eqb_eq in Hc. subst c. simpl. f_equal. now apply IH with u.
Qed.

Lemma scan_digits_app (d : list ascii) :
  Forall (fun c => isdigit c = true) d ->
  forall acc r,
    scan_digits acc (d ++ r) = scan_digits (fold_left digit_step d acc) r.
Proof.
  induction 1 as [|c d Hc Hd IH]; intros acc r; [reflexivity|].
  simpl. rewrite Hc. apply IH.
Qed.

Lemma scan_digits_stop (acc : Z) (r : list ascii) :
  no_digit_ahead r -> scan_digits acc r = (acc, r).
Proof.
  destruct r as [|c r]; simpl; [reflexivity|]. now intros ->.
Qed.

Lemma scan_digits_elim (l : list ascii) :
  forall acc v r,
    scan_digits acc l = (v, r) ->
    exists d, l = d ++ r /\ Forall (fun c => isdigit c = true) d
              /\ no_digit_ahead r /\ v = fold_left digit_step d acc.
Proof.
  induction l as [|c l IH]; intros acc v r H; simpl in H.
  - inversion H; subst. exists []. simpl. auto.
  - destruct (isdigit c) eqn:Hc.
    + apply IH in H. destruct H as (d & -> & Hd & Hr & ->).
      exists (c :: d). simpl. auto.
    + inversion H; subst. exists []. simpl. auto.
Qed.

Lemma skip_space_app (w r : list ascii) :
  spaces w -> skip_space (w ++ r) = skip_space r.
Proof.
  induction 1 as [|c w Hc Hw IH]; [reflexivity|].
  simpl. now rewrite Hc.
Qed.

Lemma skip_space_stop (r : list ascii) :
  no_space_ahead r -> skip_space r = r.
Proof.
  destruct r as [|c r]; simpl; [reflexivity|]. now intros ->.
Qed.

Lemma skip_space_elim (l : list ascii) :
  exists w, l = w ++ skip_space l /\ spaces w /\ no_space_ahead (skip_space l).
Proof.
  induction l as [|c l IH].
  - exists []. simpl. repeat split. constructor.
  - simpl. destruct (isspace c) eqn:Hc.
    + destruct IH as (w & Hl & Hw & Hn). exists (c :: w).
      simpl. rewrite <- Hl. repeat split; [now constructor | exact Hn].
    + exists []. simpl. repeat split; [constructor | exact Hc].
Qed.

Lemma isdigit_not_space (c : ascii) : isdigit c = true -> isspace c = false.
Proof.
  destruct c as [[] [] [] [] [] [] [] []]; vm_compute; congruence.
Qed.

Lemma isdigit_not_sign (c : ascii) :
  isdigit c = true ->
  Ascii.eqb c "-"%char = false /\ Ascii.eqb c "+"%char = false.
Proof.
  destruct c as [[] [] [] [] [] [] [] []]; vm_compute; split; congruence.
Qed.

Lemma scan_sign_digits (g d r : list ascii) :
  sign g -> digits d ->
  scan_sign (g ++ d ++ r) =
  (match g with
   | c :: _ => Ascii.eqb c "-"%char
   | [] => false
   end, d ++ r).
Proof.
  intros Hg [Hne Hd].
  destruct Hg as [-> | [-> | ->]]; try reflexivity.
  destruct d as [|c d]; [congruence|]. inversion Hd; subst.
  simpl. destruct (isdigit_not_sign c) as [-> ->]; auto.
Qed.

Lemma scan_d_intro (w g d r : list ascii) :
  spaces w -> sign g -> digits d ->
  exists v r',
    scan_d (w ++ g ++ d ++ r) = ScanOk v r'
    /\ (no_digit_ahead r -> v = signed_value g d /\ r' = r).
Proof.
  intros Hw Hg Hd. unfold scan_d. rewrite skip_space_app by exact Hw.
  assert (no_space_ahead (g ++ d ++ r)) as Hns.
  { destruct Hg as [-> | [-> | ->]]; try reflexivity.
    destruct Hd as [Hne Hd]. destruct d as [|c d]; [congruence|].
    inversion Hd; subst. simpl. now apply isdigit_not_space. }
  rewrite skip_space_stop by exact Hns.
  assert (g ++ d ++ r <> []) as Hnil.
  { destruct Hd as [Hne _]. destruct g; [|discriminate].
    destruct d; [congruence | discriminate]. }
  destruct (g ++ d ++ r) as [|c0 l0] eqn:Hl; [congruence|].
  rewrite <- Hl. rewrite scan_sign_digits by assumption.
  destruct Hd as [Hne Hd].
  destruct d as [|c d]; [congruence|]. inversion Hd; subst.
  cbn [app]. rewrite H1.
  change (c :: d ++ r) with ((c :: d) ++ r).
  rewrite scan_digits_app by exact Hd.
  destruct (scan_digits (fold_left digit_step (c :: d) 0%Z) r) as [v r'] eqn:Hs.
  eexists. eexists. split; [reflexivity|].
  intros Hr. rewrite scan_digits_stop in Hs by exact Hr.
  inversion Hs; subst.
  split; reflexivity.
Qed.

Lemma scan_sign_elim (l : list ascii) :
  exists g, l = g ++ snd (scan_sign l) /\ sign g
            /\ fst (scan_sign l) =
               match g with
               | c :: _ => Ascii.eqb c "-"%char
               | [] => false
               end.
Proof.
  destruct l as [|c l].
  - exists []. simpl. repeat split. now left.
  - simpl. destruct (Ascii.eqb c "-"%char) eqn:Hm.
    + apply Ascii.eqb_eq in Hm. subst c.
      exists ["-"%char]. simpl. repeat split. now right; right.
    + destruct (Ascii.eqb c "+"%char) eqn:Hp.
      * apply Ascii.eqb_eq in Hp. subst c.
        exists ["+"%char]. simpl. repeat split. now right; left.
      * exists []. simpl. repeat split. now left.
Qed.

Lemma scan_d_elim (l : list ascii) (v : Z) (r : list ascii) :
  scan_d l = ScanOk v r ->
  exists w g d,
    l = w ++ g ++ d ++ r /\ spaces w /\ sign g /\ digits d
    /\ no_digit_ahead r /\ v = signed_value g d.
Proof.
  unfold scan_d. intros H.
  destruct (skip_space_elim l) as (w & Hl & Hw & _).
  destruct (skip_space l) as [|c0 l0] eqn:Hsk; [discriminate|].
  destruct (scan_sign_elim (c0 :: l0)) as (g & Hg & Hsg & Hneg).
  destruct (scan_sign (c0 :: l0)) as [neg l1]. simpl in Hg, Hneg.
  destruct l1 as [|c1 l1]; [discriminate|].
  destruct (isdigit c1) eqn:Hc1; [|discriminate].
  destruct (scan_digits 0 (c1 :: l1)) as [v0 rest] eqn:Hsd.
  inversion H; subst v r. clear H.
  apply scan_digits_elim in Hsd. destruct Hsd as (d & Hd & Hfd & Hr & Hv).
  exists w, g, d. rewrite Hl, Hg, Hd.
  repeat split; auto.
  - intros ->. simpl in Hd. subst rest. simpl in Hr. congruence.
  - subst v0 neg. reflexivity.
Qed.


(** ** The status line *)

Lemma no_digit_ahead_space_or_sign (w g r : list ascii) :
  spaces w -> sign g -> w ++ g <> [] -> no_digit_ahead (w ++ g ++ r).
Proof.
  intros Hw Hg Hne. destruct w as [|c w].
  - destruct Hg as [-> | [-> | ->]]; [now elim Hne | reflexivity | reflexivity].
  - inversion Hw; subst. simpl.
    destruct (isdigit c) eqn:Hd; [|reflexivity].
    apply isdigit_not_space in Hd. congruence.
Qed.

(** Every line of the shape makes the three conversions. *)
Lemma sscanf_http_intro (l : list ascii) :
  scanf_status_line l -> n_scanned (sscanf_http l) = 3%Z.
Proof.
  intros [w1 g1 d1 w2 g2 d2 w3 g3 d3 rest Hw1 Hg1 Hd1 Hw2 Hg2 Hd2 Hw3 Hg3 Hd3
            Hsep].
  unfold sscanf_http. rewrite scan_literal_app.
  destruct (scan_d_intro w1 g1 d1
              (lit "." ++ w2 ++ g2 ++ d2 ++ w3 ++ g3 ++ d3 ++ rest)
              Hw1 Hg1 Hd1) as (v1 & r1 & -> & Hr1).
  destruct (Hr1 eq_refl) as [_ ->]. rewrite scan_literal_app.
  destruct (scan_d_intro w2 g2 d2 (w3 ++ g3 ++ d3 ++ rest) Hw2 Hg2 Hd2)
    as (v2 & r2 & -> & Hr2).
  destruct (Hr2 (no_digit_ahead_space_or_sign w3 g3 (d3 ++ rest) Hw3 Hg3 Hsep))
    as [_ ->].
  rewrite skip_space_app by exact Hw3.
  destruct (scan_d_intro [] g3 d3 rest (Forall_nil _) Hg3 Hd3)
    as (v3 & r3 & H3 & _).
  cbn [app] in H3.
  assert (skip_space (g3 ++ d3 ++ rest) = g3 ++ d3 ++ rest) as ->.
  { apply skip_space_stop.
    destruct Hg3 as [-> | [-> | ->]]; try reflexivity.
    destruct Hd3 as [Hne Hd]. destruct d3 as [|c d]; [congruence|].
    inversion Hd; subst. simpl. now apply isdigit_not_space. }
  now rewrite H3.
Qed.

(** A line on which the three conversions are made has the shape, and
    the position and the status stored are those of the third integer. *)
Lemma sscanf_http_elim (l : list ascii) :
  n_scanned (sscanf_http l) = 3%Z ->
  scanf_status_line l
  /\ exists before txt st rest,
       l = before ++ txt
       /\ scanned_pos (sscanf_http l) = Some (Z.of_nat (length before))
       /\ scanned_status (sscanf_http l) = Some st
       /\ scan_d txt = ScanOk st rest
       /\ no_space_ahead txt.
Proof.
  unfold sscanf_http.
  destruct (scan_literal (lit "HTTP/") l) as [u0 r0| |] eqn:H0;
    [|discriminate|discriminate].
  destruct (scan_d r0) as [v1 r1| |] eqn:H1; [|discriminate|discriminate].
  destruct (scan_literal (lit ".") r1) as [u2 r2| |] eqn:H2;
    [|discriminate|discriminate].
  destruct (scan_d r2) as [v2 r3| |] eqn:H3; [|discriminate|discriminate].
  destruct (scan_d (skip_space r3)) as [v3 r5| |] eqn:H5;
    [|discriminate|discriminate].
  intros _. cbn [scanned_pos scanned_status].
  apply scan_literal_elim in H0, H2.
  pose proof H5 as H5'.
  apply scan_d_elim in H1, H3, H5.
  destruct H1 as (w1 & g1 & d1 & E1 & Hw1 & Hg1 & Hd1 & _).
  destruct H3 as (w2 & g2 & d2 & E3 & Hw2 & Hg2 & Hd2 & Hn3 & _).
  destruct H5 as (w4 & g3 & d3 & E5 & Hw4 & Hg3 & Hd3 & _).
  destruct (skip_space_elim r3) as (w3 & E4 & Hw3 & Hns).
  split.
  - subst l r0 r1 r2. rewrite E4, E5.
    replace (w3 ++ w4 ++ g3 ++ d3 ++ r5) with ((w3 ++ w4) ++ g3 ++ d3 ++ r5)
      by now rewrite <- app_assoc.
    constructor; auto.
    + apply Forall_app. now split.
    + intros Hnil. rewrite E4, E5 in Hn3.
      destruct Hd3 as [Hne Hd].
      apply app_eq_nil in Hnil. destruct Hnil as [Hnil ->].
      apply app_eq_nil in Hnil. destruct Hnil as [-> ->].
      destruct d3 as [|c d]; [congruence|]. inversion Hd; subst.
      simpl in Hn3. congruence.
  - exists (lit "HTTP/" ++ w1 ++ g1 ++ d1 ++ lit "." ++ w2 ++ g2 ++ d2 ++ w3),
      (skip_space r3), v3, r5.
    assert (l = (lit "HTTP/" ++ w1 ++ g1 ++ d1 ++ lit "." ++ w2 ++ g2 ++ d2
                   ++ w3) ++ skip_space r3) as Hsplit.
    { subst l r0 r1 r2. rewrite E4 at 1. now rewrite <- !app_assoc. }
    repeat split; auto.
    rewrite Hsplit at 1. rewrite length_app. f_equal. lia.
Qed.

Lemma no_space_ahead_number (g d r : list ascii) :
  sign g -> digits d -> no_space_ahead (g ++ d ++ r).
Proof.
  intros Hg [Hne Hd].
  destruct Hg as [-> | [-> | ->]]; try reflexivity.
  destruct d as [|c d]; [congruence|].
  inversion Hd; subst. simpl. now apply isdigit_not_space.
Qed.

(** What [sscanf] stores on a line of the shape: the three integers as
    [%d] converts them, and the position at which the third starts. *)
Lemma sscanf_http_value (w1 g1 d1 w2 g2 d2 w3 g3 d3 rest : list ascii) :
  spaces w1 -> sign g1 -> digits d1 ->
  spaces w2 -> sign g2 -> digits d2 ->
  spaces w3 -> sign g3 -> digits d3 ->
  w3 ++ g3 <> [] -> no_digit_ahead rest ->
  sscanf_http
    ((lit "HTTP/" ++ w1 ++ g1 ++ d1 ++ lit "." ++ w2 ++ g2 ++ d2 ++ w3)
       ++ g3 ++ d3 ++ rest)
  = mkScanned 3 (signed_value g1 d1) (signed_value g2 d2)
      (Some (Z.of_nat
               (length (lit "HTTP/" ++ w1 ++ g1 ++ d1 ++ lit "." ++ w2
                          ++ g2 ++ d2 ++ w3))))
      (Some (signed_value g3 d3)).
Proof.
  intros Hw1 Hg1 Hd1 Hw2 Hg2 Hd2 Hw3 Hg3 Hd3 Hsep Hrest.
  set (P := lit "HTTP/" ++ w1 ++ g1 ++ d1 ++ lit "." ++ w2 ++ g2 ++ d2 ++ w3).
  set (T := g3 ++ d3 ++ rest).
  assert (Z.of_nat (length (P ++ T)) - Z.of_nat (length T)
          = Z.of_nat (length P))%Z as Hlen
    by (rewrite length_app; lia).
  assert (P ++ T
          = lit "HTTP/" ++ w1 ++ g1 ++ d1 ++ lit "." ++ w2 ++ g2 ++ d2
              ++ w3 ++ T) as E
    by (subst P; now rewrite <- !app_assoc).
  unfold sscanf_http.
  remember (Z.of_nat (length (P ++ T))) as n eqn:Hn.
  rewrite E, scan_literal_app.
  destruct (scan_d_intro w1 g1 d1
              (lit "." ++ w2 ++ g2 ++ d2 ++ w3 ++ T) Hw1 Hg1 Hd1)
    as (v1 & r1 & -> & Hr1).
  destruct (Hr1 eq_refl) as [-> ->]. rewrite scan_literal_app.
  destruct (scan_d_intro w2 g2 d2 (w3 ++ T) Hw2 Hg2 Hd2)
    as (v2 & r2 & -> & Hr2).
  destruct (Hr2 (no_digit_ahead_space_or_sign w3 g3 (d3 ++ rest) Hw3 Hg3 Hsep))
    as [-> ->].
  rewrite skip_space_app by exact Hw3.
  rewrite (skip_space_stop T) by (now apply no_space_ahead_number).
  destruct (scan_d_intro [] g3 d3 rest (Forall_nil _) Hg3 Hd3)
    as (v3 & r3 & H3 & Hr3).
  cbn [app] in H3. fold T in H3. rewrite H3.
  destruct (Hr3 Hrest) as [-> _]. now rewrite Hlen.
Qed.

(** A line on which the three conversions are made splits into the
    parts of the shape, the third integer with all its digits. *)
Lemma sscanf_http_decompose (l : list ascii) :
  n_scanned (sscanf_http l) = 3%Z ->
  exists w1 g1 d1 w2 g2 d2 w3 g3 d3 rest,
    spaces w1 /\ sign g1 /\ digits d1
    /\ spaces w2 /\ sign g2 /\ digits d2
    /\ spaces w3 /\ sign g3 /\ digits d3
    /\ w3 ++ g3 <> [] /\ no_digit_ahead rest
    /\ l = (lit "HTTP/" ++ w1 ++ g1 ++ d1 ++ lit "." ++ w2 ++ g2 ++ d2 ++ w3)
             ++ g3 ++ d3 ++ rest.
Proof.
  unfold sscanf_http.
  destruct (scan_literal (lit "HTTP/") l) as [u0 r0| |] eqn:H0;
    [|discriminate|discriminate].
  destruct (scan_d r0) as [v1 r1| |] eqn:H1; [|discriminate|discriminate].
  destruct (scan_literal (lit ".") r1) as [u2 r2| |] eqn:H2;
    [|discriminate|discriminate].
  destruct (scan_d r2) as [v2 r3| |] eqn:H3; [|discriminate|discriminate].
  destruct (scan_d (skip_space r3)) as [v3 r5| |] eqn:H5;
    [|discriminate|discriminate].
  intros _.
  apply scan_literal_elim in H0, H2.
  apply scan_d_elim in H1, H3, H5.
  destruct H1 as (w1 & g1 & d1 & E1 & Hw1 & Hg1 & Hd1 & _).
  destruct H3 as (w2 & g2 & d2 & E3 & Hw2 & Hg2 & Hd2 & Hn3 & _).
  destruct H5 as (w4 & g3 & d3 & E5 & Hw4 & Hg3 & Hd3 & Hn5 & _).
  destruct (skip_space_elim r3) as (w3 & E4 & Hw3 & Hns).
  exists w1, g1, d1, w2, g2, d2, (w3 ++ w4), g3, d3, r5.
  split; [exact Hw1|]. split; [exact Hg1|]. split; [exact Hd1|].
  split; [exact Hw2|]. split; [exact Hg2|]. split; [exact Hd2|].
  split; [apply Forall_app; now split|].
  split; [exact Hg3|]. split; [exact Hd3|].
  split; [|split; [exact Hn5|]].
  - intros Hnil. rewrite E4, E5 in Hn3.
    destruct Hd3 as [Hne Hd].
    apply app_eq_nil in Hnil. destruct Hnil as [Hnil ->].
    apply app_eq_nil in Hnil. destruct Hnil as [-> ->].
    destruct d3 as [|c d]; [congruence|]. inversion Hd; subst.
    simpl in Hn3. congruence.
  - subst l r0 r1 r2. rewrite E4 at 1. rewrite E5.
    now rewrite <- !app_assoc.
Qed.

(** When the number fits an [int], the value stored is the number. *)
Lemma signed_value_fits (g d : list ascii) :
  Forall (fun c => isdigit c = true) d ->
  (decimal_value d < 2 ^ 31)%Z ->
  signed_value g d
  = if is_minus g then (- decimal_value d)%Z else decimal_value d.
Proof.
  intros Hd Hfit.
  assert (0 <= decimal_value d)%Z as Hpos.
  { unfold decimal_value. clear Hfit.
    assert (forall acc, (0 <= acc)%Z -> (0 <= fold_left digit_step d acc)%Z)
      as Hacc.
    { induction Hd as [|c d Hc Hd IH]; intros acc Hacc; [exact Hacc|].
      simpl. apply IH. unfold digit_step, isdigit in *.
      apply andb_true_iff in Hc. destruct Hc as [Hlo _].
      apply Z.leb_le in Hlo. lia. }
    apply Hacc. lia. }
  unfold signed_value, to_long, to_int, LONG_MAX, LONG_MIN.
  destruct (is_minus g).
  - assert ((2 ^ 63 <? decimal_value d)%Z = false) as ->
      by (apply Z.ltb_ge; lia).
    rewrite Z.mod_small by lia. lia.
  - assert ((2 ^ 63 - 1 <? decimal_value d)%Z = false) as ->
      by (apply Z.ltb_ge; lia).
    rewrite Z.mod_small by lia. lia.
Qed.

(** Whatever the number, the value stored is in the range of [int]. *)
Lemma signed_value_range (g d : list ascii) :
  (- 2 ^ 31 <= signed_value g d < 2 ^ 31)%Z.
Proof.
  unfold signed_value, to_int.
  pose proof (Z.mod_pos_bound
                (to_long (is_minus g) (decimal_value d) + 2 ^ 31) (2 ^ 32)
                ltac:(lia))%Z.
  lia.
Qed.


Lemma n_scanned_le_3 (l : list ascii) : (n_scanned (sscanf_http l) <= 3)%Z.
Proof.
  unfold sscanf_http.
  repeat match goal with
         | |- context [match ?x with _ => _ end] => destruct x
         end; cbn [n_scanned]; unfold EOF; lia.
Qed.

(** The test of line 235 fails for every version. *)
Lemma pre_1_1_test_false (maj min : Z) :
  ((maj <? 1) && ((maj =? 1) && (min <? 1)))%Z = false.
Proof.
  destruct (maj <? 1)%Z eqn:H1; [|reflexivity].
  destruct (maj =? 1)%Z eqn:H2; [|reflexivity].
  apply Z.ltb_lt in H1. apply Z.eqb_eq in H2. lia.
Qed.

Lemma parse_status_line_next (s : HttpProxyNegotiator) :
  n_scanned (sscanf_http (cstr (response s))) = 3%Z ->
  exists pos st,
    scanned_pos (sscanf_http (cstr (response s))) = Some pos
    /\ scanned_status (sscanf_http (cstr (response s))) = Some st
    /\ parse_status_line s = Next (set_http_status st (set_http_status_pos pos s)).
Proof.
  intros H3.
  destruct (sscanf_http_elim _ H3) as (_ & before & txt & st & rest & _ & Hp
                                       & Hs & _).
  exists (Z.of_nat (length before)), st.
  split; [exact Hp|]. split; [exact Hs|].
  unfold parse_status_line. rewrite Hp, Hs, H3, pre_1_1_test_false.
  reflexivity.
Qed.

(** A line of the shape is accepted, with the position and the value of
    its third integer. *)
Lemma parse_status_line_value (s : HttpProxyNegotiator)
    (w1 g1 d1 w2 g2 d2 w3 g3 d3 rest : list ascii) :
  spaces w1 -> sign g1 -> digits d1 ->
  spaces w2 -> sign g2 -> digits d2 ->
  spaces w3 -> sign g3 -> digits d3 ->
  w3 ++ g3 <> [] -> no_digit_ahead rest ->
  cstr (response s)
  = (lit "HTTP/" ++ w1 ++ g1 ++ d1 ++ lit "." ++ w2 ++ g2 ++ d2 ++ w3)
      ++ g3 ++ d3 ++ rest ->
  parse_status_line s =
  Next (set_http_status (signed_value g3 d3)
          (set_http_status_pos
             (Z.of_nat
                (length (lit "HTTP/" ++ w1 ++ g1 ++ d1 ++ lit "." ++ w2
                           ++ g2 ++ d2 ++ w3))) s)).
Proof.
  intros Hw1 Hg1 Hd1 Hw2 Hg2 Hd2 Hw3 Hg3 Hd3 Hsep Hrest Hline.
  unfold parse_status_line. rewrite Hline.
  rewrite sscanf_http_value by assumption.
  cbn [n_scanned scanned_pos scanned_status maj_ver min_ver].
  rewrite pre_1_1_test_false. reflexivity.
Qed.

Lemma parse_status_line_stop (s : HttpProxyNegotiator) :
  n_scanned (sscanf_http (cstr (response s))) <> 3%Z ->
  exists s',
    parse_status_line s = Stop s'
    /\ error (pn s') = Some MSG_MALFORMED /\ crLine s' = Cr0
    /\ output (pn s') = output (pn s) /\ input (pn s') = input (pn s).
Proof.
  intros H3. pose proof (n_scanned_le_3 (cstr (response s))) as Hle.
  unfold parse_status_line.
  assert ((n_scanned (sscanf_http (cstr (response s))) <? 3)%Z = true) as ->
    by (apply Z.ltb_lt; lia).
  eexists. split; [reflexivity|].
  destruct (scanned_pos _); destruct (scanned_status _); repeat split.
Qed.

Lemma cstr_skipn (before : list ascii) :
  forall l txt,
    cstr l = before ++ txt -> cstr (skipn (length before) l) = txt.
Proof.
  induction before as [|b before IH]; intros l txt H; [exact H|].
  destruct l as [|c l]; [discriminate|].
  simpl in H. destruct (Ascii.eqb c NUL); [discriminate|].
  inversion H; subst. simpl. now apply IH.
Qed.

(** In plain mode a line is returned as soon as its newline is there:
    the newline and one carriage return before it are dropped, and what
    follows stays in the stream. *)
Lemma read_line_plain_line (line : list ascii) :
  forall fuel rest output,
    ~ In LF line -> (length line < fuel)%nat ->
    read_line fuel (line ++ LF :: rest) output false =
    Some (true, rest, strbuf_chomp (output ++ line) CR).
Proof.
  induction line as [|c line IH]; intros fuel rest output Hin Hfuel;
    (destruct fuel as [|fuel]; [simpl in Hfuel; lia|]).
  - simpl. unfold put_byte. rewrite last_is_app_single. simpl.
    unfold read_line_done, strbuf_chomp at 2.
    rewrite last_is_app_single. cbn [Ascii.eqb]. simpl.
    rewrite removelast_last, app_nil_r. reflexivity.
  - cbn [app read_line bufchain_try_fetch negb andb bufchain_consume skipn].
    unfold put_byte at 1. rewrite last_is_app_single.
    assert (Ascii.eqb c LF = false) as ->.
    { apply Ascii.eqb_neq. intros ->. apply Hin. now left. }
    rewrite IH; [|intros Hc; apply Hin; now right | simpl in Hfuel; lia].
    unfold put_byte. now rewrite <- app_assoc.
Qed.


(** C5.  Parsing the status line never sets the close flag, whatever the
    protocol version: the flag a status line is parsed with is the flag
    the headers start from.  So an HTTP/1.0 407 without [Connection]
    header, received while the configured credentials are untried, does
    not end the negotiation: the flag stays clear, no error is reported
    and the request is sent again with the credentials. *)
Theorem http_1_0_close_default_never_taken :
  (forall s,
      match parse_status_line s with
      | Next s' => connection_close s' = connection_close s
      | Stop _ => True
      end)
  /\ exists s',
       proxy_http_process_queue no_seat 200
         (receive sample_407_http10 (sample_sent false)) = Some s'
       /\ connection_close s' = false
       /\ error (pn s') = None
       /\ terminal s' = false
       /\ output (pn s') =
          output (pn (sample_sent false)) ++ conf_request sample_socket.
Proof.
  split.
  - intros s. unfold parse_status_line.
    destruct (n_scanned _ <? 3)%Z; [exact I|].
    rewrite pre_1_1_test_false.
    destruct (scanned_pos _); destruct (scanned_status _); reflexivity.
  - eexists. split; [vm_compute; reflexivity|].
    repeat (split; [vm_compute; reflexivity|]). vm_compute. reflexivity.
Qed.

(** C8 (as amended).  The response line is accepted exactly when its text
    up to the first NUL has the shape [sscanf] converts in full: [HTTP/],
    an integer, a dot, an integer and a third integer, each integer with
    optional white space and sign before one or more digits, and white
    space or a sign before the third; nothing need follow it.  The
    position stored is then that of the sign or first digit of the third
    integer, and the status stored is the third integer as [%d] stores it
    in an [int]: the number itself when it fits, of any number of digits,
    and a value wrapped into the range of [int] when it does not.  Any
    other line stops the negotiation with the error "HTTP response was
    absent or malformed"; for a call resuming after the request with
    such a line in the stream this is what the call returns, having
    consumed the line and written nothing. *)
Theorem status_line_accepted_iff_scanf_shape (s : HttpProxyNegotiator) :
  (forall w1 g1 d1 w2 g2 d2 w3 g3 d3 rest,
      spaces w1 -> sign g1 -> digits d1 ->
      spaces w2 -> sign g2 -> digits d2 ->
      spaces w3 -> sign g3 -> digits d3 ->
      w3 ++ g3 <> [] -> no_digit_ahead rest ->
      cstr (response s)
      = (lit "HTTP/" ++ w1 ++ g1 ++ d1 ++ lit "." ++ w2 ++ g2 ++ d2 ++ w3)
          ++ g3 ++ d3 ++ rest ->
      parse_status_line s =
      Next (set_http_status (signed_value g3 d3)
              (set_http_status_pos
                 (Z.of_nat
                    (length (lit "HTTP/" ++ w1 ++ g1 ++ d1 ++ lit "." ++ w2
                               ++ g2 ++ d2 ++ w3))) s))
      /\ (- 2 ^ 31 <= signed_value g3 d3 < 2 ^ 31)%Z
      /\ ((decimal_value d3 < 2 ^ 31)%Z ->
          signed_value g3 d3
          = if is_minus g3 then (- decimal_value d3)%Z
            else decimal_value d3))
  /\ (scanf_status_line (cstr (response s)) ->
      exists w1 g1 d1 w2 g2 d2 w3 g3 d3 rest,
        spaces w1 /\ sign g1 /\ digits d1
        /\ spaces w2 /\ sign g2 /\ digits d2
        /\ spaces w3 /\ sign g3 /\ digits d3
        /\ w3 ++ g3 <> [] /\ no_digit_ahead rest
        /\ cstr (response s)
           = (lit "HTTP/" ++ w1 ++ g1 ++ d1 ++ lit "." ++ w2 ++ g2 ++ d2
                ++ w3) ++ g3 ++ d3 ++ rest)
  /\ (~ scanf_status_line (cstr (response s)) ->
      exists s',
        parse_status_line s = Stop s'
        /\ error (pn s') = Some MSG_MALFORMED /\ crLine s' = Cr0)
  /\ (forall seat fuel line rest,
         crLine s = Cr213 ->
         input (pn s) = line ++ LF :: rest ->
         ~ In LF line -> (length line < fuel)%nat ->
         ~ scanf_status_line (cstr (strbuf_chomp line CR)) ->
         exists s',
           proxy_http_process_queue seat fuel s = Some s'
           /\ error (pn s') = Some MSG_MALFORMED
           /\ input (pn s') = rest
           /\ output (pn s') = output (pn s)).
Proof.
  split; [|split; [|split]].
  - intros w1 g1 d1 w2 g2 d2 w3 g3 d3 rest Hw1 Hg1 Hd1 Hw2 Hg2 Hd2
      Hw3 Hg3 Hd3 Hsep Hrest Hline.
    split; [|split].
    + now apply parse_status_line_value with rest.
    + apply signed_value_range.
    + apply signed_value_fits. now destruct Hd3.
  - intros Hshape. apply sscanf_http_decompose.
    now apply sscanf_http_intro.
  - intros Hshape.
    destruct (parse_status_line_stop s) as (s' & Hs & He & Hl & _ & _).
    + intros H3. apply Hshape. now apply sscanf_http_elim.
    + now exists s'.
  - intros seat fuel line rest Hline Hin Hnl Hfuel Hshape.
    unfold proxy_http_process_queue, await_status_line. rewrite Hline.
    unfold begin_response. fields. unfold strbuf_clear. rewrite Hin.
    rewrite read_line_plain_line by assumption. cbn [app].
    match goal with
    | |- context [parse_status_line ?m] =>
        destruct (parse_status_line_stop m) as (s' & Hs & He & Hl & Ho & Hi)
    end.
    + intros H3. apply Hshape. now apply sscanf_http_elim.
    + rewrite Hs. exists s'. repeat split; auto.
Qed.

Lemma scanf_status_line_dec (l : list ascii) :
  (n_scanned (sscanf_http l) =? 3)%Z = true <-> scanf_status_line l.
Proof.
  rewrite Z.eqb_eq. split; [apply sscanf_http_elim | apply sscanf_http_intro].
Qed.

Lemma status_line_accepted_iff_scanf_shape_witness :
  parse_status_line (with_response (lit "HTTP/1.1 20"))
  = Next (set_http_status 20
            (set_http_status_pos 9 (with_response (lit "HTTP/1.1 20"))))
  /\ parse_status_line (with_response (lit "HTTP/1.1 4294967496 OK"))
     = Next (set_http_status 200
               (set_http_status_pos 9
                  (with_response (lit "HTTP/1.1 4294967496 OK"))))
  /\ (exists s',
         parse_status_line (with_response (lit "ICY 200 OK")) = Stop s'
         /\ error (pn s') = Some MSG_MALFORMED)
  /\ (exists s',
         proxy_http_process_queue no_seat 200
           (receive (lit "ICY 200 OK" ++ CRLF) (sample_sent false)) = Some s'
         /\ error (pn s') = Some MSG_MALFORMED).
Proof.
  assert (digits (lit "1")) as Hone
    by (split; [discriminate | repeat constructor]).
  assert (spaces [SP]) as Hsp by (repeat constructor).
  split; [|split; [|split]].
  - destruct (status_line_accepted_iff_scanf_shape
                (with_response (lit "HTTP/1.1 20"))) as [H _].
    destruct (H [] [] (lit "1") [] [] (lit "1") [SP] [] (lit "20") []
                (Forall_nil _) (or_introl eq_refl) Hone
                (Forall_nil _) (or_introl eq_refl) Hone
                Hsp (or_introl eq_refl)
                ltac:(split; [discriminate | repeat constructor])
                ltac:(discriminate) I ltac:(vm_compute; reflexivity))
      as [Hn _].
    rewrite Hn. vm_compute. reflexivity.
  - destruct (status_line_accepted_iff_scanf_shape
                (with_response (lit "HTTP/1.1 4294967496 OK"))) as [H _].
    destruct (H [] [] (lit "1") [] [] (lit "1") [SP] [] (lit "4294967496")
                (lit " OK")
                (Forall_nil _) (or_introl eq_refl) Hone
                (Forall_nil _) (or_introl eq_refl) Hone
                Hsp (or_introl eq_refl)
                ltac:(split; [discriminate | repeat constructor])
                ltac:(discriminate) ltac:(vm_compute; reflexivity)
                ltac:(vm_compute; reflexivity))
      as [Hn _].
    rewrite Hn. vm_compute. reflexivity.
  - destruct (status_line_accepted_iff_scanf_shape
                (with_response (lit "ICY 200 OK"))) as (_ & _ & H & _).
    destruct H as (s' & Hs & He & _).
    { intros Hshape. apply scanf_status_line_dec in Hshape.
      vm_compute in Hshape. discriminate. }
    exists s'. split; [exact Hs | exact He].
  - destruct (status_line_accepted_iff_scanf_shape
                (receive (lit "ICY 200 OK" ++ CRLF) (sample_sent false)))
      as (_ & _ & _ & H).
    destruct (H no_seat 200%nat (lit "ICY 200 OK" ++ [CR]) [])
      as (s' & Hs & He & _).
    + reflexivity.
    + reflexivity.
    + vm_compute. intros Hc.
      repeat (destruct Hc as [Hc | Hc]; [discriminate|]). exact Hc.
    + vm_compute. lia.
    + intros Hshape. apply scanf_status_line_dec in Hshape.
      vm_compute in Hshape. discriminate.
    + exists s'. split; [exact Hs | exact He].
Defined.


(** C8 (as stated) fails: a status of two digits does not have the shape
    [HTTP/<major>.<minor> <3-digit-status>], yet the line is accepted,
    with status 20, and the negotiation ends on the failure of the request
    and not on a malformed response. *)
Lemma two_digit_status_is_accepted :
  spec_status_line (lit "HTTP/1.1 200 OK") = true
  /\ spec_status_line (lit "HTTP/1.1 20") = false
  /\ (exists s',
         parse_status_line (with_response (lit "HTTP/1.1 20")) = Next s'
         /\ http_status s' = 20%Z /\ error (pn s') = None)
  /\ failure_message (lit "HTTP/1.1 20") = Some (lit "HTTP response 20")
  /\ failure_message (lit "HTTP/1.1 20") <> Some MSG_MALFORMED.
Proof.
  split; [vm_compute; reflexivity|].
  split; [vm_compute; reflexivity|].
  split.
  - eexists. split; [vm_compute; reflexivity|].
    split; vm_compute; reflexivity.
  - split; [vm_compute; reflexivity|]. vm_compute. discriminate.
Qed.

(** ** The outcome *)

(** C7 (as amended).  Once headers and body are consumed, a status from
    200 to 299 reports success, and any other status but 407 stops the
    negotiation with the error "HTTP response " followed by the text of
    the response line from the status code on: the position recorded when
    the status line was parsed is that of the status code itself, so the
    message starts with the sign and digits of the status code and goes
    on with whatever follows them.  The status is the one stored when
    the line was parsed, that is, the number these digits denote as [%d]
    stores it in an [int]. *)
Theorem status_decides_outcome seat (m : HttpProxyNegotiator) :
  ((200 <= http_status m < 300)%Z ->
   decide seat m = set_crLine Cr0 (set_done true m))
  /\ (~ (200 <= http_status m < 300)%Z -> http_status m <> 407%Z ->
      decide seat m =
      crStopV
        (set_error
           (Some (MSG_RESPONSE_PREFIX
                    ++ cstr (skipn (Z.to_nat (http_status_pos m))
                               (response m)))) m))
  /\ (forall s0 s1,
         parse_status_line s0 = Next s1 ->
         response m = response s1 ->
         http_status_pos m = http_status_pos s1 ->
         http_status m = http_status s1 ->
         exists g d rest,
           cstr (skipn (Z.to_nat (http_status_pos m)) (response m))
           = g ++ d ++ rest
           /\ sign g /\ digits d /\ no_digit_ahead rest
           /\ http_status m = signed_value g d)
  /\ (forall rest,
         bufchain_try_consume (input (pn m)) (content_length m) = (true, rest) ->
         await_body seat m = decide seat (set_input rest m)).
Proof.
  split; [|split; [|split]].
  - intros [Hlo Hhi]. unfold decide.
    apply Z.leb_le in Hlo. apply Z.ltb_lt in Hhi. now rewrite Hlo, Hhi.
  - intros Hrange Hne. unfold decide.
    destruct ((200 <=? http_status m) && (http_status m <? 300))%Z eqn:Hb.
    + apply andb_true_iff in Hb. destruct Hb as [Hlo Hhi].
      apply Z.leb_le in Hlo. apply Z.ltb_lt in Hhi. lia.
    + apply Z.eqb_neq in Hne. now rewrite Hne.
  - intros s0 s1 Hparse Hresp Hpos Hst.
    assert (n_scanned (sscanf_http (cstr (response s0))) = 3%Z) as H3.
    { pose proof (n_scanned_le_3 (cstr (response s0))) as Hle.
      destruct (Z.eq_dec (n_scanned (sscanf_http (cstr (response s0)))) 3)
        as [E | E]; [exact E|].
      destruct (parse_status_line_stop s0 E) as (s' & Hs & _). congruence. }
    destruct (sscanf_http_decompose _ H3)
      as (w1 & g1 & d1 & w2 & g2 & d2 & w3 & g3 & d3 & rest
          & Hw1 & Hg1 & Hd1 & Hw2 & Hg2 & Hd2 & Hw3 & Hg3 & Hd3
          & Hsep & Hrest & Hline).
    pose proof (parse_status_line_value s0 w1 g1 d1 w2 g2 d2 w3 g3 d3 rest
                  Hw1 Hg1 Hd1 Hw2 Hg2 Hd2 Hw3 Hg3 Hd3 Hsep Hrest Hline)
      as Hval.
    remember (lit "HTTP/" ++ w1 ++ g1 ++ d1 ++ lit "." ++ w2 ++ g2 ++ d2
                ++ w3) as before eqn:Hbefore.
    rewrite Hval in Hparse. injection Hparse as <-.
    exists g3, d3, rest. rewrite Hresp, Hpos, Hst. fields.
    rewrite Nat2Z.id.
    split; [now apply cstr_skipn|].
    split; [exact Hg3|]. split; [exact Hd3|]. split; [exact Hrest|].
    reflexivity.
  - intros rest Hc. unfold await_body. now rewrite Hc.
Qed.

Lemma status_decides_outcome_witness :
  decide no_seat (with_status (lit "HTTP/1.1 204 No Content")) =
  set_crLine Cr0 (set_done true (with_status (lit "HTTP/1.1 204 No Content")))
  /\ decide no_seat (with_status (lit "HTTP/1.1 4294967496 OK")) =
     set_crLine Cr0
       (set_done true (with_status (lit "HTTP/1.1 4294967496 OK")))
  /\ error (pn (decide no_seat (with_status (lit "HTTP/1.1 404 Not Found")))) =
     Some (lit "HTTP response 404 Not Found")
  /\ (exists g d rest,
         lit "404 Not Found" = g ++ d ++ rest
         /\ sign g /\ digits d /\ no_digit_ahead rest
         /\ signed_value g d = 404%Z)
  /\ await_body no_seat (with_status (lit "HTTP/1.1 404 Not Found")) =
     decide no_seat
       (set_input [] (with_status (lit "HTTP/1.1 404 Not Found"))).
Proof.
  split; [|split; [|split; [|split]]].
  - destruct (status_decides_outcome no_seat
                (with_status (lit "HTTP/1.1 204 No Content"))) as [H _].
    apply H.
    assert (http_status (with_status (lit "HTTP/1.1 204 No Content")) = 204%Z)
      as -> by (vm_compute; reflexivity).
    lia.
  - destruct (status_decides_outcome no_seat
                (with_status (lit "HTTP/1.1 4294967496 OK"))) as [H _].
    apply H.
    assert (http_status (with_status (lit "HTTP/1.1 4294967496 OK")) = 200%Z)
      as -> by (vm_compute; reflexivity).
    lia.
  - destruct (status_decides_outcome no_seat
                (with_status (lit "HTTP/1.1 404 Not Found"))) as (_ & H & _).
    rewrite H.
    + vm_compute. reflexivity.
    + assert (http_status (with_status (lit "HTTP/1.1 404 Not Found")) = 404%Z)
        as -> by (vm_compute; reflexivity).
      lia.
    + vm_compute. discriminate.
  - destruct (status_decides_outcome no_seat
                (with_status (lit "HTTP/1.1 404 Not Found"))) as (_ & _ & H & _).
    destruct (H (with_response (lit "HTTP/1.1 404 Not Found"))
                (with_status (lit "HTTP/1.1 404 Not Found")))
      as (g & d & rest & Htxt & Hg & Hd & Hrest & Hst).
    + vm_compute. reflexivity.
    + reflexivity.
    + reflexivity.
    + reflexivity.
    + assert (cstr (skipn
                      (Z.to_nat
                         (http_status_pos
                            (with_status (lit "HTTP/1.1 404 Not Found"))))
                      (response (with_status (lit "HTTP/1.1 404 Not Found"))))
              = lit "404 Not Found") as E by (vm_compute; reflexivity).
      assert (http_status (with_status (lit "HTTP/1.1 404 Not Found"))
              = 404%Z) as E' by (vm_compute; reflexivity).
      rewrite E in Htxt. rewrite E' in Hst.
      exists g, d, rest.
      split; [exact Htxt|]. split; [exact Hg|]. split; [exact Hd|].
      split; [exact Hrest | symmetry; exact Hst].
  - destruct (status_decides_outcome no_seat
                (with_status (lit "HTTP/1.1 404 Not Found")))
      as (_ & _ & _ & H).
    apply H. vm_compute. reflexivity.
Defined.

(** C7 (as stated) fails: two response lines with the same text after the
    status code give different messages, each starting with the status
    code, so the message is not made from the text that follows the
    status code. *)
Lemma failure_message_includes_status_code :
  text_after_status (lit "HTTP/1.1 404 Gone") = lit " Gone"
  /\ text_after_status (lit "HTTP/1.1 500 Gone") = lit " Gone"
  /\ failure_message (lit "HTTP/1.1 404 Gone")
     = Some (lit "HTTP response 404 Gone")
  /\ failure_message (lit "HTTP/1.1 500 Gone")
     = Some (lit "HTTP response 500 Gone")
  /\ failure_message (lit "HTTP/1.1 404 Gone")
     <> Some (MSG_RESPONSE_PREFIX
                ++ text_after_status (lit "HTTP/1.1 404 Gone"))
  /\ ~ (exists f : list ascii -> option (list ascii),
           forall line,
             In line [lit "HTTP/1.1 404 Gone"; lit "HTTP/1.1 500 Gone"] ->
             failure_message line = f (text_after_status line)).
Proof.
  split; [vm_compute; reflexivity|].
  split; [vm_compute; reflexivity|].
  split; [vm_compute; reflexivity|].
  split; [vm_compute; reflexivity|].
  split; [vm_compute; discriminate|].
  intros [f Hf].
  pose proof (Hf (lit "HTTP/1.1 404 Gone") (or_introl eq_refl)) as H404.
  pose proof (Hf (lit "HTTP/1.1 500 Gone") (or_intror (or_introl eq_refl)))
    as H500.
  assert (text_after_status (lit "HTTP/1.1 404 Gone") =
          text_after_status (lit "HTTP/1.1 500 Gone")) as E
    by (vm_compute; reflexivity).
  rewrite E, <- H500 in H404. vm_compute in H404. discriminate.
Qed.


(** ** Header lines *)

(** The tokenizer only moves the cursor and fills the token buffer. *)
Lemma get_token_only (s : HttpProxyNegotiator) :
  snd (get_token s) = s
  \/ exists tok pos, snd (get_token s) = set_header_pos pos (set_token tok s).
Proof.
  unfold get_token.
  destruct (_ =? _)%nat; [now left|].
  destruct (is_separator _); [now left|].
  destruct (take_token _ _) as [tok pos]. right. now exists tok, pos.
Qed.

Lemma get_separator_only (s : HttpProxyNegotiator) (sep : ascii) :
  snd (get_separator s sep) = s
  \/ exists pos, snd (get_separator s sep) = set_header_pos pos s.
Proof.
  unfold get_separator.
  destruct (_ =? _)%nat; [now left|].
  destruct (negb _); [now left|].
  right. now eexists.
Qed.

Lemma get_token_parse_view (s : HttpProxyNegotiator) :
  parse_view (snd (get_token s)) = parse_view s.
Proof.
  destruct (get_token_only s) as [-> | (tok & pos & ->)]; reflexivity.
Qed.

Lemma get_separator_parse_view (s : HttpProxyNegotiator) (sep : ascii) :
  parse_view (snd (get_separator s sep)) = parse_view s.
Proof.
  destruct (get_separator_only s sep) as [-> | (pos & ->)]; reflexivity.
Qed.


(** ** Comparing without case *)

Lemma code_zero (c : ascii) : code c = 0%Z -> c = NUL.
Proof.
  destruct c as [[] [] [] [] [] [] [] []]; vm_compute; congruence.
Qed.

Lemma tolower_nul (c : ascii) : tolower c = NUL -> c = NUL.
Proof.
  destruct c as [[] [] [] [] [] [] [] []]; vm_compute; congruence.
Qed.

Lemma cstr_no_nul (l : list ascii) : Forall (fun c => c <> NUL) (cstr l).
Proof.
  induction l as [|c l IH]; simpl; [constructor|].
  destruct (Ascii.eqb c NUL) eqn:Hc; constructor; auto.
  now apply Ascii.eqb_neq.
Qed.

Lemma code_inj (x y : ascii) : code x = code y -> x = y.
Proof.
  unfold code. intros H. apply Nat2Z.inj in H.
  rewrite <- (ascii_nat_embedding x), <- (ascii_nat_embedding y).
  now rewrite H.
Qed.

(** [stricmp] answers zero exactly on strings equal up to case. *)
Lemma stricmp_zero_iff (a : list ascii) :
  forall b,
    Forall (fun c => c <> NUL) a -> Forall (fun c => c <> NUL) b ->
    (stricmp a b = 0%Z <-> map tolower a = map tolower b).
Proof.
  induction a as [|x a IH]; intros b Ha Hb.
  - destruct b as [|y b]; simpl; [tauto|].
    inversion Hb; subst. split; [|discriminate].
    intros H. exfalso. apply H1. apply tolower_nul. apply code_zero. lia.
  - inversion Ha; subst. destruct b as [|y b]; simpl.
    + split; [|discriminate].
      intros H. exfalso. apply H1. apply tolower_nul. now apply code_zero.
    + inversion Hb; subst.
      destruct (Ascii.eqb (tolower x) (tolower y)) eqn:E.
      * apply Ascii.eqb_eq in E. rewrite E. rewrite (IH b H2 H4).
        split; [now intros -> | now inversion 1].
      * apply Ascii.eqb_neq in E. split.
        -- intros H. exfalso. apply E. apply code_inj. lia.
        -- inversion 1. congruence.
Qed.





(** ** The body length *)

Lemma code_nonneg (c : ascii) : (0 <= code c)%Z.
Proof. unfold code. lia. Qed.

Lemma digits_value_nonneg (d : list ascii) :
  Forall (fun c => isdigit c = true) d ->
  forall acc, (0 <= acc)%Z -> (0 <= fold_left digit_step d acc)%Z.
Proof.
  induction 1 as [|c d Hc Hd IH]; intros acc Hacc; [exact Hacc|].
  simpl. apply IH. unfold digit_step, isdigit in *.
  apply andb_true_iff in Hc. destruct Hc as [Hlo _].
  apply Z.leb_le in Hlo. lia.
Qed.

Lemma strtoumax_range (l : list ascii) :
  (0 <= strtoumax l <= UINTMAX_MAX)%Z.
Proof.
  unfold strtoumax.
  destruct (scan_sign (skip_space l)) as [neg l1].
  destruct (scan_digits 0 l1) as [v r] eqn:Hs.
  apply scan_digits_elim in Hs. destruct Hs as (d & _ & Hd & _ & ->).
  pose proof (digits_value_nonneg d Hd 0%Z (Z.le_refl 0)) as Hv.
  destruct (UINTMAX_MAX <? fold_left digit_step d 0)%Z eqn:Hmax.
  - unfold UINTMAX_MAX. lia.
  - apply Z.ltb_ge in Hmax. destruct neg; [|lia].
    pose proof (Z.mod_pos_bound (- fold_left digit_step d 0%Z) (2 ^ 64)
                  ltac:(lia))%Z as Hm.
    unfold UINTMAX_MAX. lia.
Qed.

Lemma to_size_t_strtoumax (l : list ascii) :
  to_size_t (strtoumax l) = strtoumax l.
Proof.
  unfold to_size_t. apply Z.mod_small.
  pose proof (strtoumax_range l). unfold UINTMAX_MAX in *. lia.
Qed.

(** A token that starts with a number: the number is converted and the
    rest of the token ignored. *)
Lemma strtoumax_number (w g d rest : list ascii) :
  spaces w -> sign g -> digits d -> no_digit_ahead rest ->
  strtoumax (w ++ g ++ d ++ rest) =
  if (UINTMAX_MAX <? decimal_value d)%Z then UINTMAX_MAX
  else if is_minus g then ((- decimal_value d) mod 2 ^ 64)%Z
       else decimal_value d.
Proof.
  intros Hw Hg Hd Hrest. unfold strtoumax.
  rewrite skip_space_app by exact Hw.
  rewrite skip_space_stop by (now apply no_space_ahead_number).
  rewrite scan_sign_digits by assumption.
  destruct Hd as [_ Hd].
  rewrite scan_digits_app by exact Hd.
  rewrite scan_digits_stop by exact Hrest.
  reflexivity.
Qed.

(** Starting with a number is decided by looking past white space and
    sign for a digit; the number can then be taken with all its digits. *)
Lemma number_ahead_split (l : list ascii) :
  number_ahead l = true ->
  exists w g d rest,
    l = w ++ g ++ d ++ rest
    /\ spaces w /\ sign g /\ digits d /\ no_digit_ahead rest.
Proof.
  unfold number_ahead. intros H.
  destruct (skip_space_elim l) as (w & Hl & Hw & _).
  destruct (scan_sign_elim (skip_space l)) as (g & Hg & Hsg & _).
  destruct (snd (scan_sign (skip_space l))) as [|c l1] eqn:Hs;
    [discriminate|].
  destruct (scan_digits 0 (c :: l1)) as [v rest] eqn:Hsd.
  apply scan_digits_elim in Hsd. destruct Hsd as (d & Hd & Hfd & Hr & _).
  exists w, g, d, rest. rewrite Hl at 1. rewrite Hg at 1. rewrite Hd.
  split; [reflexivity|]. split; [exact Hw|]. split; [exact Hsg|].
  split; [|exact Hr]. split; [|exact Hfd].
  intros ->. cbn [app] in Hd. subst rest. simpl in Hr. congruence.
Qed.

Lemma number_ahead_intro (w g d rest : list ascii) :
  spaces w -> sign g -> digits d ->
  number_ahead (w ++ g ++ d ++ rest) = true.
Proof.
  intros Hw Hg Hd. unfold number_ahead.
  rewrite skip_space_app by exact Hw.
  rewrite skip_space_stop by (now apply no_space_ahead_number).
  rewrite scan_sign_digits by assumption. cbn [snd].
  destruct Hd as [Hne Hd]. destruct d as [|c d]; [congruence|].
  now inversion Hd.
Qed.

Lemma number_ahead_iff (l : list ascii) :
  number_ahead l = true
  <-> exists w g d rest,
        l = w ++ g ++ d ++ rest /\ spaces w /\ sign g /\ digits d.
Proof.
  split.
  - intros H.
    destruct (number_ahead_split l H) as (w & g & d & rest & E & Hw & Hg
                                          & Hd & _).
    now exists w, g, d, rest.
  - intros (w & g & d & rest & -> & Hw & Hg & Hd).
    now apply number_ahead_intro.
Qed.

(** A text that does not start with a number gives 0. *)
Lemma strtoumax_no_number (l : list ascii) :
  number_ahead l = false -> strtoumax l = 0%Z.
Proof.
  unfold number_ahead, strtoumax.
  destruct (scan_sign (skip_space l)) as [neg l1]. cbn [snd].
  destruct l1 as [|c l1]; [intros _; now destruct neg|].
  intros Hc. cbn [scan_digits]. rewrite Hc. now destruct neg.
Qed.

(** C9 (as amended).  On a [Content-Length] header line nothing is ever
    reported as an error.  Without a token after the colon the length is
    left as it was.  With one, the length stored is what [strtoumax]
    makes of it.  When the token starts with a number (optional white
    space, an optional sign, one or more digits), the longest run of
    digits is converted and what follows in the token is ignored; the
    result is 2^64-1 when the number is larger, and the number negated
    modulo 2^64 after a minus sign.  Every other token, whatever it
    holds (a sign alone, a sign and a letter, white space only, any
    text), stores 0; and every token is of one kind or the other. *)
Theorem content_length_is_strtoumax (s s1 s2 : HttpProxyNegotiator)
    (Hname : get_token (set_header_pos 0 s) = (true, s1))
    (Hkind : header_kind (cstr (token s1)) = HDR_CONTENT_LENGTH)
    (Hsep : get_separator s1 ":"%char = (true, s2)) :
  (exists s', process_header s = Next s' /\ error (pn s') = error (pn s))
  /\ (forall s3,
         get_token s2 = (false, s3) ->
         process_header s = Next s3 /\ content_length s3 = content_length s)
  /\ (forall s3,
         get_token s2 = (true, s3) ->
         process_header s =
         Next (set_content_length (strtoumax (cstr (token s3))) s3)
         /\ (forall w g d rest,
                cstr (token s3) = w ++ g ++ d ++ rest ->
                spaces w -> sign g -> digits d -> no_digit_ahead rest ->
                strtoumax (cstr (token s3)) =
                if (UINTMAX_MAX <? decimal_value d)%Z then UINTMAX_MAX
                else if is_minus g then ((- decimal_value d) mod 2 ^ 64)%Z
                     else decimal_value d)
         /\ (~ (exists w g d rest,
                   cstr (token s3) = w ++ g ++ d ++ rest
                   /\ spaces w /\ sign g /\ digits d) ->
             strtoumax (cstr (token s3)) = 0%Z)
         /\ ((exists w g d rest,
                 cstr (token s3) = w ++ g ++ d ++ rest
                 /\ spaces w /\ sign g /\ digits d /\ no_digit_ahead rest)
             \/ ~ (exists w g d rest,
                      cstr (token s3) = w ++ g ++ d ++ rest
                      /\ spaces w /\ sign g /\ digits d))).
Proof.
  assert (parse_view s2 = parse_view s) as Hview.
  { pose proof (get_token_parse_view (set_header_pos 0 s)) as V1.
    pose proof (get_separator_parse_view s1 ":"%char) as V2.
    rewrite Hname in V1. rewrite Hsep in V2.
    cbn [snd] in V1, V2. rewrite V2, V1. reflexivity. }
  assert (forall b s3, get_token s2 = (b, s3) -> parse_view s3 = parse_view s)
    as Hview3.
  { intros b s3 H3. pose proof (get_token_parse_view s2) as V3.
    rewrite H3 in V3. cbn [snd] in V3. now rewrite V3. }
  split; [|split].
  - unfold process_header. rewrite Hname, Hkind, Hsep.
    destruct (get_token s2) as [b s3] eqn:H3.
    pose proof (Hview3 b s3 eq_refl) as V. unfold parse_view in V.
    inversion V as [[Hl Hr Hh Hp Hst Hcc Hcl Hpn Hav]].
    destruct b; eexists; (split; [reflexivity|]); fields; now rewrite Hpn.
  - intros s3 H3.
    pose proof (Hview3 false s3 H3) as V. unfold parse_view in V.
    inversion V as [[Hl Hr Hh Hp Hst Hcc Hcl Hpn Hav]].
    unfold process_header. rewrite Hname, Hkind, Hsep, H3. now split.
  - intros s3 H3. split; [|split; [|split]].
    + unfold process_header. rewrite Hname, Hkind, Hsep, H3.
      now rewrite to_size_t_strtoumax.
    + intros w g d rest -> Hw Hg Hd Hrest. now apply strtoumax_number.
    + intros Hno. apply strtoumax_no_number.
      destruct (number_ahead (cstr (token s3))) eqn:Hn; [|reflexivity].
      elim Hno. now apply number_ahead_iff.
    + destruct (number_ahead (cstr (token s3))) eqn:Hn.
      * left. now apply number_ahead_split.
      * right. intros Hex. apply number_ahead_iff in Hex. congruence.
Qed.

Lemma content_length_is_strtoumax_witness :
  process_header (with_header (lit "Content-Length: 37"))
  = Next (set_content_length 37
            (after_value (with_header (lit "Content-Length: 37"))))
  /\ strtoumax
       (cstr (token (after_value (with_header (lit "Content-Length: 12abc")))))
     = 12%Z
  /\ strtoumax
       (cstr (token (after_value (with_header (lit "Content-Length: none")))))
     = 0%Z
  /\ strtoumax
       (cstr (token (after_value (with_header (lit "Content-Length: -x")))))
     = 0%Z.
Proof.
  pose (thm := fun line H1 H2 H3 =>
          proj2 (proj2
            (content_length_is_strtoumax (with_header line)
               (after_name (with_header line))
               (after_colon (with_header line)) H1 H2 H3))
            (after_value (with_header line))).
  split; [|split; [|split]].
  - destruct (thm (lit "Content-Length: 37")
                ltac:(vm_compute; reflexivity) ltac:(vm_compute; reflexivity)
                ltac:(vm_compute; reflexivity) ltac:(vm_compute; reflexivity))
      as (Hp & _ & _).
    rewrite Hp. vm_compute. reflexivity.
  - destruct (thm (lit "Content-Length: 12abc")
                ltac:(vm_compute; reflexivity) ltac:(vm_compute; reflexivity)
                ltac:(vm_compute; reflexivity) ltac:(vm_compute; reflexivity))
      as (_ & Hn & _).
    rewrite (Hn [] [] (lit "12") (lit "abc")
               ltac:(vm_compute; reflexivity) (Forall_nil _)
               (or_introl eq_refl)
               ltac:(split; [discriminate | repeat constructor]) eq_refl).
    vm_compute. reflexivity.
  - destruct (thm (lit "Content-Length: none")
                ltac:(vm_compute; reflexivity) ltac:(vm_compute; reflexivity)
                ltac:(vm_compute; reflexivity) ltac:(vm_compute; reflexivity))
      as (_ & _ & Hz & _).
    apply Hz. intros Hex. apply number_ahead_iff in Hex.
    vm_compute in Hex. discriminate Hex.
  - destruct (thm (lit "Content-Length: -x")
                ltac:(vm_compute; reflexivity) ltac:(vm_compute; reflexivity)
                ltac:(vm_compute; reflexivity) ltac:(vm_compute; reflexivity))
      as (_ & _ & Hz & _).
    apply Hz. intros Hex. apply number_ahead_iff in Hex.
    vm_compute in Hex. discriminate Hex.
Defined.

(** C9 (as stated) fails: the tokens [12abc] and [-5] are not unsigned
    base-10 integers, yet the lengths stored for them are 12 and
    2^64-5, not 0. *)
Lemma content_length_takes_digit_prefix :
  unsigned_decimal (lit "37") = true
  /\ unsigned_decimal (lit "12abc") = false
  /\ unsigned_decimal (lit "-5") = false
  /\ (exists s',
         process_header (with_header (lit "Content-Length: 12abc")) = Next s'
         /\ token s' = lit "12abc" /\ content_length s' = 12%Z)
  /\ (exists s',
         process_header (with_header (lit "Content-Length: -5")) = Next s'
         /\ token s' = lit "-5"
         /\ content_length s' = (2 ^ 64 - 5)%Z).
Proof.
  split; [vm_compute; reflexivity|].
  split; [vm_compute; reflexivity|].
  split; [vm_compute; reflexivity|].
  split; eexists; (split; [vm_compute; reflexivity|]);
    split; vm_compute; reflexivity.
Qed.


(** ** Calls that return, and calls that wait *)











Lemma receive_nothing (s : HttpProxyNegotiator) : receive [] s = s.
Proof.
  destruct s as [? ? ? ? ? ? ? ? ? ? ? ? ? ? ? ? []].
  unfold receive. fields. now rewrite app_nil_r.
Qed.

(** Called again with no new byte and no answer from the user, a waiting
    negotiator returns in the very same state. *)
Lemma waiting_call_same seat (fuel : nat) (s : HttpProxyNegotiator) :
  waiting seat s -> proxy_http_process_queue seat (S fuel) s = Some s.
Proof.
  unfold waiting, proxy_http_process_queue.
  destruct s as [line ? ? ? ? ? ? ? ? ? ? ? pr ? ? ? [? ? inp ? ? ? ?]].
  fields. destruct line; intros H; try contradiction.
  - subst inp. reflexivity.
  - subst inp. reflexivity.
  - unfold await_body. fields.
    destruct (bufchain_try_consume _ _) as [ok rest]. cbn [fst] in H.
    now subst ok.
  - destruct H as (p & -> & Hp). unfold prompt_wait. fields.
    now rewrite Hp.
Qed.

Lemma prompt_wait_waits seat (m : HttpProxyNegotiator) :
  prompts m <> None ->
  crLine (prompt_wait seat m) = Cr357 /\ waiting seat (prompt_wait seat m)
  \/ crLine (prompt_wait seat m) = Cr0
  \/ crLine (prompt_wait seat m) = Cr213.
Proof.
  intros Hp. unfold prompt_wait.
  destruct (prompts m) as [p|] eqn:E; [|congruence].
  destruct (seat p) eqn:Hs; cbn [prompt_result Z.ltb Z.eqb Z.compare].
  - right; right. apply send_request_fields.
  - right; left. reflexivity.
  - left. split; [reflexivity|]. unfold waiting. fields. now exists p.
Qed.

Lemma decide_waits seat (m : HttpProxyNegotiator) :
  crLine (decide seat m) = Cr357 /\ waiting seat (decide seat m)
  \/ crLine (decide seat m) = Cr0
  \/ crLine (decide seat m) = Cr213.
Proof.
  unfold decide.
  destruct (_ && _)%bool; [now right; left|].
  destruct (_ =? _)%Z; [|now right; left].
  destruct (connection_close m); [now right; left|].
  destruct (try_auth_from_conf m).
  { right; right. apply send_request_fields. }
  destruct (negb _); [now right; left|].
  apply prompt_wait_waits. apply issue_prompts_fields.
Qed.

Lemma await_body_waits seat (m : HttpProxyNegotiator) :
  waiting seat (await_body seat m)
  \/ crLine (await_body seat m) = Cr0
  \/ crLine (await_body seat m) = Cr213.
Proof.
  unfold await_body.
  destruct (bufchain_try_consume (input (pn m)) (content_length m))
    as [ok rest] eqn:E.
  destruct ok.
  - destruct (decide_waits seat (set_input rest m)) as [[_ H] | H]; auto.
  - left. unfold waiting. fields. now rewrite E.
Qed.

Lemma header_loop_waits seat (fuel : nat) :
  forall resume s s',
    header_loop seat fuel resume s = Some s' ->
    waiting seat s' \/ crLine s' = Cr0 \/ crLine s' = Cr213.
Proof.
  induction fuel as [|fuel IH]; intros resume s s' H; [discriminate|].
  cbn [header_loop] in H.
  destruct (read_line _ _ _ _) as [[[b input'] header']|] eqn:Hr;
    [|discriminate].
  destruct b.
  - pose proof (process_header_ok
                  (set_header header'
                     (set_input input'
                        (if resume then s
                         else set_header (strbuf_clear (header s)) s))))
      as Hok.
    destruct (process_header _) as [m|m]; simpl in Hok.
    + destruct (nonempty (header m)).
      * now apply IH in H.
      * inversion H; subst. apply await_body_waits.
    + destruct Hok as (_ & _ & Hl). inversion H; subst. now right; left.
  - apply read_line_suspended in Hr. destruct Hr as [-> _].
    inversion H; subst. left. reflexivity.
Qed.

Lemma await_status_line_waits seat (fuel : nat) (s s' : HttpProxyNegotiator) :
  await_status_line seat fuel s = Some s' ->
  waiting seat s' \/ crLine s' = Cr0 \/ crLine s' = Cr213.
Proof.
  unfold await_status_line. intros H.
  destruct (read_line _ _ _ _) as [[[b input'] response']|] eqn:Hr;
    [|discriminate].
  destruct b.
  - pose proof (parse_status_line_ok
                  (set_response response' (set_input input' s))) as Hok.
    destruct (parse_status_line _) as [m|m]; simpl in Hok.
    + now apply header_loop_waits in H.
    + destruct Hok as (_ & _ & Hl). inversion H; subst. now right; left.
  - apply read_line_suspended in Hr. destruct Hr as [-> _].
    inversion H; subst. left. reflexivity.
Qed.

(** A call of a negotiation ends in one of three ways: waiting, stopped
    or finished, or with a request just written. *)
Lemma call_waits (sock : ProxySocket) (interactor : bool) seat (fuel : nat)
    (bytes : list ascii) (s s' : HttpProxyNegotiator) :
  negotiating sock interactor s -> terminal s = false ->
  proxy_http_process_queue seat fuel (receive bytes s) = Some s' ->
  waiting seat s' \/ crLine s' = Cr0 \/ crLine s' = Cr213.
Proof.
  intros Hneg Hterm Hcall.
  destruct (negotiating_inv _ _ _ Hneg) as [-> | [_ _ Hprompt]].
  - destruct (first_call sock interactor seat fuel bytes)
      as (s1 & H1 & [_ _ _] & _).
    inversion Hcall; subst. right; right. apply send_request_fields.
  - unfold proxy_http_process_queue in Hcall.
    destruct (receive_view bytes s) as (_ & Hl & Hp & _).
    rewrite Hl in Hcall. destruct (crLine s) eqn:Hcr.
    + inversion Hcall; subst. right; right. apply send_request_fields.
    + now apply await_status_line_waits in Hcall.
    + now apply await_status_line_waits in Hcall.
    + now apply header_loop_waits in Hcall.
    + inversion Hcall; subst. apply await_body_waits.
    + inversion Hcall; subst.
      destruct (prompt_wait_waits seat (receive bytes s)) as [[_ H] | H]; auto.
      rewrite Hp. now apply Hprompt.
Qed.

(** X2.  Whenever a call of a negotiation suspends (no outcome, no
    request written), calling again with no new byte and the same pending
    answer returns the same state, any number of times: nothing
    accumulated is changed and nothing is consumed again. *)
Theorem suspended_call_repeats (sock : ProxySocket) (interactor : bool) seat
    (fuel fuel' : nat) (bytes : list ascii) (s s' : HttpProxyNegotiator) :
  negotiating sock interactor s -> terminal s = false ->
  proxy_http_process_queue seat fuel (receive bytes s) = Some s' ->
  crLine s' <> Cr0 -> crLine s' <> Cr213 ->
  proxy_http_process_queue seat (S fuel') (receive [] s') = Some s'.
Proof.
  intros Hneg Hterm Hcall H0 H213.
  rewrite receive_nothing. apply waiting_call_same.
  destruct (call_waits _ _ _ _ _ _ _ Hneg Hterm Hcall) as [H | [H | H]];
    [exact H | contradiction | contradiction].
Qed.

Lemma suspended_call_repeats_witness :
  exists s',
    proxy_http_process_queue no_seat 100
      (receive (lit "HTTP/1.1 407 Proxy Auth") (sample_sent false)) = Some s'
    /\ proxy_http_process_queue no_seat 1 (receive [] s') = Some s'.
Proof.
  assert (exists s', proxy_http_process_queue no_seat 100
                       (receive (lit "HTTP/1.1 407 Proxy Auth")
                          (sample_sent false)) = Some s'
                     /\ crLine s' = Cr223)
    as (s' & Hcall & Hl)
    by (eexists; split; vm_compute; reflexivity).
  exists s'. split; [exact Hcall|].
  apply (suspended_call_repeats sample_socket false no_seat 100 0
           (lit "HTTP/1.1 407 Proxy Auth") (sample_sent false) s'
           (sample_sent_negotiating false) eq_refl Hcall);
    rewrite Hl; discriminate.
Defined.


(** * Further properties *)

(** ** The tokenizer *)

Lemma skip_whitespace_spec (rest : list ascii) :
  forall pos, exists w r,
    rest = w ++ r /\ blanks w /\ stops is_whitespace r
    /\ skip_whitespace rest pos = (pos + length w)%nat.
Proof.
  induction rest as [|c rest IH]; intros pos.
  - exists [], []. simpl. repeat split; [constructor | lia].
  - simpl. destruct (is_whitespace c) eqn:Hc.
    + destruct (IH (S pos)) as (w & r & -> & Hw & Hr & ->).
      exists (c :: w), r. simpl. repeat split; [now constructor | exact Hr | lia].
    + exists [], (c :: rest). simpl. repeat split; [constructor | exact Hc | lia].
Qed.

Lemma take_token_spec (rest : list ascii) :
  forall pos, exists tok r,
    rest = tok ++ r /\ Forall (fun c => token_char c = true) tok
    /\ stops token_char r
    /\ take_token rest pos = (tok, (pos + length tok)%nat).
Proof.
  induction rest as [|c rest IH]; intros pos.
  - exists [], []. simpl. repeat split; [constructor | f_equal; lia].
  - simpl. fold (token_char c). destruct (token_char c) eqn:Hc.
    + destruct (IH (S pos)) as (tok & r & -> & Ht & Hr & ->).
      exists (c :: tok), r. simpl.
      repeat split; [now constructor | exact Hr | f_equal; lia].
    + exists [], (c :: rest). simpl.
      repeat split; [constructor | exact Hc | f_equal; lia].
Qed.

Lemma skipn_app_length {A : Type} (a b : list A) :
  skipn (length a) (a ++ b) = b.
Proof. induction a as [|x a IH]; [reflexivity | exact IH]. Qed.

Lemma nth_app_length {A : Type} (a : list A) (x : A) (b : list A) (d : A) :
  nth (length a) (a ++ x :: b) d = x.
Proof. induction a as [|y a IH]; [reflexivity | exact IH]. Qed.

Lemma skipn_split {A : Type} (n : nat) (l : list A) :
  (n <= length l)%nat ->
  exists before, l = before ++ skipn n l /\ length before = n.
Proof.
  intros Hn. exists (firstn n l). split.
  - now rewrite firstn_skipn.
  - apply firstn_length_le. exact Hn.
Qed.

(** X8.  [get_token], called with the cursor inside the line: it
    succeeds exactly when, after white space, a byte that is neither
    white space nor a separator comes; the token is then the longest run
    of such bytes, it is not empty, the cursor stops right after it
    (still inside the line), and nothing else changes.  When it fails,
    only white space, or white space and then a separator, lay ahead, and
    the state is untouched. *)
Theorem get_token_spec (s : HttpProxyNegotiator)
    (Hpos : (header_pos s <= length (header s))%nat) :
  exists w r,
    skipn (header_pos s) (header s) = w ++ r
    /\ blanks w /\ stops is_whitespace r
    /\ match r with
       | [] => get_token s = (false, s)
       | c :: _ =>
           if is_separator c then get_token s = (false, s)
           else
             exists tok r',
               r = tok ++ r' /\ token_text tok /\ stops token_char r'
               /\ get_token s =
                  (true,
                   set_header_pos (header_pos s + length w + length tok)
                     (set_token tok s))
               /\ (header_pos s + length w + length tok
                   <= length (header s))%nat
       end.
Proof.
  destruct (skipn_split _ _ Hpos) as (before & Hsplit & Hlen).
  destruct (skip_whitespace_spec (skipn (header_pos s) (header s))
              (header_pos s)) as (w & r & Hwr & Hw & Hr & Hskip).
  exists w, r. split; [exact Hwr|]. split; [exact Hw|]. split; [exact Hr|].
  assert (length (header s) = (header_pos s + length w + length r)%nat) as Hl.
  { rewrite Hsplit at 1. rewrite Hwr, !length_app. lia. }
  assert (skipn (header_pos s + length w) (header s) = r) as Hsk.
  { rewrite Hsplit, Hwr, app_assoc.
    replace (header_pos s + length w)%nat with (length (before ++ w))
      by (rewrite length_app; lia).
    apply skipn_app_length. }
  unfold get_token. rewrite Hskip.
  destruct r as [|c r].
  - assert ((header_pos s + length w =? length (header s))%nat = true) as ->
      by (apply Nat.eqb_eq; simpl in Hl; lia).
    reflexivity.
  - assert ((header_pos s + length w =? length (header s))%nat = false) as ->
      by (apply Nat.eqb_neq; simpl in Hl; lia).
    assert (nth (header_pos s + length w) (header s) NUL = c) as ->.
    { rewrite Hsplit, Hwr, app_assoc.
      replace (header_pos s + length w)%nat with (length (before ++ w))
        by (rewrite length_app; lia).
      apply nth_app_length. }
    destruct (is_separator c) eqn:Hsep; [reflexivity|].
    rewrite Hsk.
    destruct (take_token_spec (c :: r) (header_pos s + length w))
      as (tok & r' & Htr & Ht & Hr' & Htake).
    rewrite Htake. exists tok, r'.
    split; [exact Htr|]. split.
    + split; [|exact Ht]. intros ->. simpl in Htr. subst r'.
      simpl in Hr, Hr'. unfold token_char in Hr'.
      rewrite Hr, Hsep in Hr'. discriminate.
    + split; [exact Hr'|]. split; [reflexivity|].
      rewrite Hl, Htr, length_app. lia.
Qed.

Lemma get_token_spec_witness :
  exists w r,
    skipn (header_pos (with_header (lit "  Content-Length: 37")))
      (header (with_header (lit "  Content-Length: 37"))) = w ++ r
    /\ blanks w /\ stops is_whitespace r.
Proof.
  destruct (get_token_spec (with_header (lit "  Content-Length: 37"))
              ltac:(vm_compute; lia))
    as (w & r & Hwr & Hw & Hr & _).
  exists w, r. split; [exact Hwr|]. split; [exact Hw | exact Hr].
Defined.

(** X9.  [get_separator], called with the cursor inside the line: after
    white space, it succeeds exactly when the next byte is the separator
    asked for, and then moves the cursor just past it and changes nothing
    else; otherwise the state is untouched. *)
Theorem get_separator_spec (s : HttpProxyNegotiator) (sep : ascii)
    (Hpos : (header_pos s <= length (header s))%nat) :
  exists w r,
    skipn (header_pos s) (header s) = w ++ r
    /\ blanks w /\ stops is_whitespace r
    /\ match r with
       | [] => get_separator s sep = (false, s)
       | c :: _ =>
           if Ascii.eqb c sep then
             get_separator s sep =
             (true, set_header_pos (header_pos s + length w + 1) s)
             /\ (header_pos s + length w + 1 <= length (header s))%nat
           else get_separator s sep = (false, s)
       end.
Proof.
  destruct (skipn_split _ _ Hpos) as (before & Hsplit & Hlen).
  destruct (skip_whitespace_spec (skipn (header_pos s) (header s))
              (header_pos s)) as (w & r & Hwr & Hw & Hr & Hskip).
  exists w, r. split; [exact Hwr|]. split; [exact Hw|]. split; [exact Hr|].
  assert (length (header s) = (header_pos s + length w + length r)%nat) as Hl.
  { rewrite Hsplit at 1. rewrite Hwr, !length_app. lia. }
  unfold get_separator. rewrite Hskip.
  destruct r as [|c r].
  - assert ((header_pos s + length w =? length (header s))%nat = true) as ->
      by (apply Nat.eqb_eq; simpl in Hl; lia).
    reflexivity.
  - assert ((header_pos s + length w =? length (header s))%nat = false) as ->
      by (apply Nat.eqb_neq; simpl in Hl; lia).
    assert (nth (header_pos s + length w) (header s) NUL = c) as ->.
    { rewrite Hsplit, Hwr, app_assoc.
      replace (header_pos s + length w)%nat with (length (before ++ w))
        by (rewrite length_app; lia).
      apply nth_app_length. }
    destruct (Ascii.eqb c sep); cbn [negb]; [|reflexivity].
    split; [f_equal; f_equal; lia | simpl in Hl; lia].
Qed.

Lemma get_separator_spec_witness :
  exists w r,
    skipn (header_pos (after_name (with_header (lit "Connection : close"))))
      (header (after_name (with_header (lit "Connection : close")))) = w ++ r
    /\ blanks w /\ stops is_whitespace r.
Proof.
  destruct (get_separator_spec
              (after_name (with_header (lit "Connection : close"))) ":"%char
              ltac:(vm_compute; lia))
    as (w & r & Hwr & Hw & Hr & _).
  exists w, r. split; [exact Hwr|]. split; [exact Hw | exact Hr].
Defined.

Lemma skip_whitespace_at (w r : list ascii) (pos : nat) :
  blanks w -> stops is_whitespace r ->
  skip_whitespace (w ++ r) pos = (pos + length w)%nat.
Proof.
  intros Hw Hr. revert pos.
  induction Hw as [|c w Hc Hw IH]; intros pos.
  - simpl. destruct r as [|c r]; simpl; [lia|].
    simpl in Hr. rewrite Hr. lia.
  - simpl. rewrite Hc, IH. lia.
Qed.

Lemma take_token_at (tok r : list ascii) (pos : nat) :
  Forall (fun c => token_char c = true) tok -> stops token_char r ->
  take_token (tok ++ r) pos = (tok, (pos + length tok)%nat).
Proof.
  intros Ht Hr. revert pos.
  induction Ht as [|c tok Hc Ht IH]; intros pos.
  - simpl. destruct r as [|c r]; simpl; [f_equal; lia|].
    simpl in Hr. unfold token_char in Hr. rewrite Hr. f_equal. lia.
  - simpl. unfold token_char in Hc. rewrite Hc, IH. f_equal. lia.
Qed.

Lemma token_text_head (tok r : list ascii) :
  token_text tok ->
  exists c t, tok ++ r = c :: t
              /\ is_whitespace c = false /\ is_separator c = false.
Proof.
  intros [Hne Ht]. destruct tok as [|c tok]; [congruence|].
  inversion Ht as [|? ? Hc _]; subst. exists c, (tok ++ r).
  unfold token_char in Hc. apply andb_true_iff in Hc.
  destruct Hc as [H1 H2]. apply negb_true_iff in H1, H2. auto.
Qed.

(** A token found where the text says it is. *)
Lemma get_token_at (s : HttpProxyNegotiator) (before w tok r : list ascii) :
  header s = before ++ w ++ tok ++ r -> header_pos s = length before ->
  blanks w -> token_text tok -> stops token_char r ->
  get_token s =
  (true,
   set_header_pos (length before + length w + length tok) (set_token tok s)).
Proof.
  intros Hh Hp Hw Ht Hr.
  destruct (token_text_head tok r Ht) as (c & t & Hct & Hws & Hsep).
  unfold get_token. rewrite Hh, Hp, skipn_app_length.
  rewrite skip_whitespace_at;
    [|exact Hw | rewrite Hct; exact Hws].
  assert (length (before ++ w ++ tok ++ r)
          = (length before + length w + length (tok ++ r))%nat) as Hl
    by (rewrite !length_app; lia).
  assert ((length before + length w =? length (before ++ w ++ tok ++ r))%nat
          = false) as ->.
  { apply Nat.eqb_neq. rewrite Hl, Hct. simpl. lia. }
  rewrite (app_assoc before w), <- (length_app before w).
  rewrite Hct, nth_app_length, Hsep, skipn_app_length, <- Hct.
  destruct Ht as [_ Ht]. rewrite take_token_at by assumption.
  rewrite length_app. reflexivity.
Qed.

(** A separator found where the text says it is. *)
Lemma get_separator_at (s : HttpProxyNegotiator) (before w : list ascii)
    (sep : ascii) (r : list ascii) :
  header s = before ++ w ++ sep :: r -> header_pos s = length before ->
  blanks w -> is_whitespace sep = false ->
  get_separator s sep =
  (true, set_header_pos (S (length before + length w)) s).
Proof.
  intros Hh Hp Hw Hsep.
  unfold get_separator. rewrite Hh, Hp, skipn_app_length.
  rewrite skip_whitespace_at; [|exact Hw | exact Hsep].
  assert ((length before + length w =? length (before ++ w ++ sep :: r))%nat
          = false) as ->.
  { apply Nat.eqb_neq. rewrite !length_app. simpl. lia. }
  rewrite (app_assoc before w), <- (length_app before w).
  rewrite nth_app_length, Ascii.eqb_refl. reflexivity.
Qed.

Lemma stops_token_char_blank_colon (w r : list ascii) :
  blanks w -> stops token_char (w ++ ":"%char :: r).
Proof.
  intros Hw. destruct w as [|c w]; [reflexivity|].
  inversion Hw as [|? ? Hc _]; subst. simpl. unfold token_char.
  now rewrite Hc.
Qed.

(** X10.  A header line made of a name, a colon and a value, with any
    white space before the name, around the colon and before the value,
    is split into exactly these: the first token is the name, the
    separator is found, and the next token is the value, with the cursor
    left right after the value. *)
Theorem header_line_tokens (s : HttpProxyNegotiator)
    (w0 name w1 w2 value rest : list ascii)
    (Hline : header s = w0 ++ name ++ w1 ++ ":"%char :: w2 ++ value ++ rest)
    (Hw0 : blanks w0) (Hname : token_text name) (Hw1 : blanks w1)
    (Hw2 : blanks w2) (Hvalue : token_text value)
    (Hrest : stops token_char rest) :
  get_token (set_header_pos 0 s) = (true, after_name s)
  /\ token (after_name s) = name
  /\ get_separator (after_name s) ":"%char = (true, after_colon s)
  /\ get_token (after_colon s) = (true, after_value s)
  /\ token (after_value s) = value
  /\ header_pos (after_value s)
     = length (w0 ++ name ++ w1 ++ ":"%char :: w2 ++ value)
  /\ parse_view (after_value s) = parse_view s.
Proof.
  assert (get_token (set_header_pos 0 s) =
          (true, set_header_pos (length w0 + length name)
                   (set_token name (set_header_pos 0 s)))) as H1.
  { apply (get_token_at (set_header_pos 0 s) [] w0 name
             (w1 ++ ":"%char :: w2 ++ value ++ rest));
      [exact Hline | reflexivity | exact Hw0 | exact Hname |].
    now apply stops_token_char_blank_colon. }
  unfold after_value, after_colon, after_name. rewrite H1. cbn [snd].
  set (s1 := set_header_pos (length w0 + length name)
               (set_token name (set_header_pos 0 s))).
  assert (get_separator s1 ":"%char =
          (true, set_header_pos
                   (S (length (w0 ++ name) + length w1)) s1)) as H2.
  { apply (get_separator_at s1 (w0 ++ name) w1 ":"%char
             (w2 ++ value ++ rest)).
    - subst s1. cbn [header set_header_pos set_token].
      rewrite Hline. now rewrite <- app_assoc.
    - subst s1. cbn [header_pos set_header_pos]. now rewrite length_app.
    - exact Hw1.
    - reflexivity. }
  rewrite H2. cbn [snd].
  set (s2 := set_header_pos (S (length (w0 ++ name) + length w1)) s1).
  assert (get_token s2 =
          (true, set_header_pos
                   (length (w0 ++ name ++ w1 ++ [":"%char]) + length w2
                    + length value) (set_token value s2))) as H3.
  { apply (get_token_at s2 (w0 ++ name ++ w1 ++ [":"%char]) w2 value rest).
    - subst s2 s1. cbn [header set_header_pos set_token].
      rewrite Hline. rewrite <- !app_assoc. reflexivity.
    - subst s2. cbn [header_pos set_header_pos].
      rewrite !length_app. simpl. lia.
    - exact Hw2.
    - exact Hvalue.
    - exact Hrest. }
  rewrite H3. cbn [snd].
  repeat split.
  cbn [header_pos set_header_pos]. rewrite !length_app. simpl.
  rewrite !length_app. lia.
Qed.

Lemma header_line_tokens_witness :
  token (after_name (with_header (lit " Content-Length :  37;x")))
  = lit "Content-Length"
  /\ token (after_value (with_header (lit " Content-Length :  37;x")))
     = lit "37".
Proof.
  destruct (header_line_tokens
              (with_header (lit " Content-Length :  37;x"))
              (lit " ") (lit "Content-Length") (lit " ") (lit "  ")
              (lit "37") (lit ";x") eq_refl
              ltac:(repeat constructor)
              ltac:(split; [discriminate | repeat constructor])
              ltac:(repeat constructor) ltac:(repeat constructor)
              ltac:(split; [discriminate | repeat constructor])
              eq_refl)
    as (_ & Hn & _ & _ & Hv & _).
  split; [exact Hn | exact Hv].
Defined.

(** ** Header names *)

Lemma stricmp_eqb_iff (tok : list ascii) (name : string) :
  Forall (fun c => c <> NUL) (lit name) ->
  ((stricmp (cstr tok) (lit name) =? 0)%Z = true
   <-> map tolower (cstr tok) = map tolower (lit name)).
Proof.
  intros Hn. rewrite Z.eqb_eq.
  apply stricmp_zero_iff; [apply cstr_no_nul | exact Hn].
Qed.

(** X11.  The kind of a header is decided by its name, read as a C
    string and without regard to case: it is [Connection],
    [Content-Length] or [Proxy-Authenticate] exactly when the name equals
    that word up to the case of its letters, and unknown otherwise. *)
Theorem header_kind_spec (tok : list ascii) :
  (header_kind (cstr tok) = HDR_CONNECTION
   <-> map tolower (cstr tok) = lit "connection")
  /\ (header_kind (cstr tok) = HDR_CONTENT_LENGTH
      <-> map tolower (cstr tok) = lit "content-length")
  /\ (header_kind (cstr tok) = HDR_PROXY_AUTHENTICATE
      <-> map tolower (cstr tok) = lit "proxy-authenticate")
  /\ (header_kind (cstr tok) = HDR_UNKNOWN
      <-> map tolower (cstr tok) <> lit "connection"
          /\ map tolower (cstr tok) <> lit "content-length"
          /\ map tolower (cstr tok) <> lit "proxy-authenticate").
Proof.
  pose proof (stricmp_eqb_iff tok "Connection"
                ltac:(repeat constructor; discriminate)) as H1.
  pose proof (stricmp_eqb_iff tok "Content-Length"
                ltac:(repeat constructor; discriminate)) as H2.
  pose proof (stricmp_eqb_iff tok "Proxy-Authenticate"
                ltac:(repeat constructor; discriminate)) as H3.
  change (map tolower (lit "Connection")) with (lit "connection") in H1.
  change (map tolower (lit "Content-Length")) with (lit "content-length")
    in H2.
  change (map tolower (lit "Proxy-Authenticate"))
    with (lit "proxy-authenticate") in H3.
  unfold header_kind.
  remember (map tolower (cstr tok)) as x eqn:Hx. clear Hx.
  cbv [lit list_ascii_of_string] in *.
  destruct (stricmp (cstr tok) _ =? 0)%Z;
    destruct (stricmp (cstr tok) _ =? 0)%Z;
    destruct (stricmp (cstr tok) _ =? 0)%Z;
    repeat match goal with
           | H : true = true <-> _ |- _ =>
               let E := fresh "E" in
               pose proof (proj1 H eq_refl) as E; clear H
           | H : false = true <-> ?P |- _ =>
               let N := fresh "N" in
               assert (~ P) as N
                 by (let HP := fresh in
                     intros HP; apply (proj2 H) in HP; discriminate);
               clear H
           end;
    repeat split; intros;
    repeat match goal with
           | H : _ /\ _ |- _ => destruct H
           end;
    try discriminate; try congruence.
Qed.


(** ** What a header line does *)

(** [process_header] in terms of the three steps of the tokenizer. *)
Lemma process_header_steps (s : HttpProxyNegotiator) :
  process_header s =
  if fst (get_token (set_header_pos 0 s)) then
    if fst (get_separator (after_name s) ":"%char) then
      match header_kind (cstr (token (after_name s))) with
      | HDR_CONTENT_LENGTH =>
          if fst (get_token (after_colon s)) then
            Next (set_content_length
                    (to_size_t (strtoumax (cstr (token (after_value s)))))
                    (after_value s))
          else Next (after_value s)
      | HDR_CONNECTION =>
          if fst (get_token (after_colon s)) then
            Next (set_connection_close
                    (connection_flag (connection_close (after_value s))
                       (token (after_value s)))
                    (after_value s))
          else Next (after_value s)
      | HDR_PROXY_AUTHENTICATE =>
          if fst (get_token (after_colon s)) then
            if (stricmp (cstr (token (after_value s))) (lit "Basic") =? 0)%Z
            then Next (after_value s)
            else Stop (crStopV
                         (set_error
                            (Some (MSG_UNSUPPORTED_PREFIX
                                     ++ cstr (token (after_value s))
                                     ++ lit "'")) (after_value s)))
          else Next (after_value s)
      | HDR_UNKNOWN => Next (after_colon s)
      end
    else Next (after_colon s)
  else Next (after_name s).
Proof.
  unfold process_header, after_value, after_colon, after_name.
  destruct (get_token (set_header_pos 0 s)) as [b1 s1]. cbn [fst snd].
  destruct b1; [|reflexivity].
  destruct (get_separator s1 ":"%char) as [b2 s2]. cbn [fst snd].
  destruct b2; [|reflexivity].
  destruct (get_token s2) as [b3 s3]. cbn [fst snd].
  destruct (header_kind (cstr (token s1))); destruct b3; try reflexivity.
  unfold connection_flag.
  destruct (stricmp (cstr (token s3)) (lit "close") =? 0)%Z;
    [reflexivity|].
  destruct (stricmp (cstr (token s3)) (lit "keep-alive") =? 0)%Z;
    [reflexivity|].
  destruct s3 as [? ? ? ? ? ? ? ? ? ? ? ? ? ? ? ? ?]. reflexivity.
Qed.

Lemma after_views (s : HttpProxyNegotiator) :
  parse_view (after_name s) = parse_view s
  /\ parse_view (after_colon s) = parse_view s
  /\ parse_view (after_value s) = parse_view s.
Proof.
  unfold after_value, after_colon, after_name.
  rewrite !get_token_parse_view, !get_separator_parse_view,
    !get_token_parse_view.
  repeat split.
Qed.

Lemma parse_view_fields (m s : HttpProxyNegotiator) :
  parse_view m = parse_view s ->
  connection_close m = connection_close s
  /\ content_length m = content_length s
  /\ pn m = pn s /\ auth_view m = auth_view s
  /\ http_status m = http_status s /\ header m = header s.
Proof.
  unfold parse_view. intros H.
  pose proof (f_equal snd H) as Ha.
  pose proof (f_equal (fun t => snd (fst t)) H) as Hp.
  pose proof (f_equal (fun t => snd (fst (fst t))) H) as Hl.
  pose proof (f_equal (fun t => snd (fst (fst (fst t)))) H) as Hc.
  pose proof (f_equal (fun t => snd (fst (fst (fst (fst t))))) H) as Hs.
  pose proof (f_equal (fun t => snd (fst (fst (fst (fst (fst (fst t)))))))
                H) as Hh.
  cbn [fst snd] in *. now auto.
Qed.



(** X13.  Header lines are read leniently.  The only header that can
    stop the negotiation is a [Proxy-Authenticate] header with a colon
    and a value whose first token is not "Basic"; and a line with no
    token at its start, or no colon after its name, or an unknown name,
    or no token after the colon, is skipped: nothing changes but the
    cursor and the token buffer. *)
Theorem process_header_lenient (s : HttpProxyNegotiator) :
  (forall m,
      process_header s = Stop m ->
      fst (get_token (set_header_pos 0 s)) = true
      /\ header_kind (cstr (token (after_name s))) = HDR_PROXY_AUTHENTICATE
      /\ fst (get_separator (after_name s) ":"%char) = true
      /\ fst (get_token (after_colon s)) = true
      /\ map tolower (cstr (token (after_value s))) <> lit "basic")
  /\ (fst (get_token (set_header_pos 0 s)) = false
      \/ fst (get_separator (after_name s) ":"%char) = false
      \/ header_kind (cstr (token (after_name s))) = HDR_UNKNOWN
      \/ fst (get_token (after_colon s)) = false ->
      exists m, process_header s = Next m /\ parse_view m = parse_view s).
Proof.
  destruct (after_views s) as (V1 & V2 & V3).
  rewrite process_header_steps.
  pose proof (stricmp_eqb_iff (token (after_value s)) "Basic"
                ltac:(repeat constructor; discriminate)) as Hb.
  change (map tolower (lit "Basic")) with (lit "basic") in Hb.
  destruct (fst (get_token (set_header_pos 0 s))).
  2:{ split; [intros m Hm; discriminate Hm|]. intros _.
      exists (after_name s). split; [reflexivity | exact V1]. }
  destruct (fst (get_separator (after_name s) ":"%char)).
  2:{ split; [intros m Hm; discriminate Hm|]. intros _.
      exists (after_colon s). split; [reflexivity | exact V2]. }
  destruct (header_kind (cstr (token (after_name s))));
    destruct (fst (get_token (after_colon s))).
  all: split;
    [ intros m Hm; try discriminate Hm
    | intros [H | [H | [H | H]]]; try discriminate H;
      eexists; (split; [reflexivity|]);
      match goal with
      | |- parse_view (after_value _) = _ => exact V3
      | |- parse_view (after_colon _) = _ => exact V2
      end ].
  destruct (stricmp (cstr (token (after_value s))) (lit "Basic") =? 0)%Z;
    [discriminate Hm|].
  split; [reflexivity|]. split; [reflexivity|]. split; [reflexivity|].
  split; [reflexivity|]. intros Heq. apply Hb in Heq. discriminate Heq.
Qed.

Lemma process_header_lenient_witness :
  exists m,
    process_header (with_header (lit "X-Note a")) = Next m
    /\ parse_view m = parse_view (with_header (lit "X-Note a")).
Proof.
  destruct (process_header_lenient (with_header (lit "X-Note a"))) as [_ H].
  apply H. right; left. vm_compute. reflexivity.
Defined.


(** ** More on the line reader *)

(** X3.  When [read_line] answers "need more input", it has taken every
    byte of the stream and put each of them, in order, at the end of the
    line buffer; called again before any byte arrives, it gives the same
    answer and leaves the buffer as it is. *)
Theorem read_line_need_more_input (fuel : nat) (input : bufchain)
    (output : strbuf) (is_header : bool) (input' : bufchain)
    (output' : strbuf)
    (Hcall : read_line fuel input output is_header
             = Some (false, input', output')) :
  input' = [] /\ output' = output ++ input
  /\ forall fuel',
       read_line (S fuel') input' output' is_header
       = Some (false, input', output').
Proof.
  revert input output Hcall.
  induction fuel as [|fuel IH]; intros input output Hcall; [discriminate|].
  simpl in Hcall. destruct input as [|c input]; simpl in Hcall.
  - inversion Hcall; subst. rewrite app_nil_r. now repeat split.
  - destruct (is_header && last_is output LF).
    + destruct (negb (Ascii.eqb c SP) && negb (Ascii.eqb c TAB));
        [discriminate | now apply IH in Hcall].
    + destruct (negb is_header && last_is (put_byte output c) LF);
        [discriminate|].
      apply IH in Hcall. destruct Hcall as (-> & -> & Hagain).
      unfold put_byte in *. rewrite <- app_assoc. now repeat split.
Qed.

Lemma read_line_need_more_input_witness :
  read_line 1 [] (lit "Content-Len") true = Some (false, [], lit "Content-Len").
Proof.
  destruct (read_line_need_more_input 12 (lit "Content-Len") [] true []
              (lit "Content-Len") ltac:(vm_compute; reflexivity))
    as (_ & _ & H).
  exact (H 0%nat).
Defined.

Lemma last_is_no_newline (line : list ascii) :
  forall output,
    ~ In LF line -> last_is output LF = false ->
    last_is (output ++ line) LF = false.
Proof.
  induction line as [|c line IH]; intros output Hin Hlast.
  - now rewrite app_nil_r.
  - change (output ++ c :: line) with (output ++ [c] ++ line).
    rewrite app_assoc. apply IH.
    + intros H. apply Hin. now right.
    + rewrite last_is_app_single. apply Ascii.eqb_neq.
      intros ->. apply Hin. now left.
Qed.

(** In header mode, the bytes of a line before its newline are all taken
    and appended. *)
Lemma read_line_header_prefix (line : list ascii) :
  forall fuel rest output,
    ~ In LF line -> last_is output LF = false ->
    read_line (length line + fuel) (line ++ rest) output true
    = read_line fuel rest (output ++ line) true.
Proof.
  induction line as [|c line IH]; intros fuel rest output Hin Hlast.
  - now rewrite app_nil_r.
  - cbn [length app Nat.add read_line bufchain_try_fetch andb].
    rewrite Hlast. cbn [andb negb bufchain_consume skipn].
    unfold put_byte. rewrite IH.
    + now rewrite <- app_assoc.
    + intros H. apply Hin. now right.
    + rewrite last_is_app_single. apply Ascii.eqb_neq.
      intros ->. apply Hin. now left.
Qed.

Lemma chomp_newline (output : strbuf) :
  strbuf_chomp (output ++ [LF]) LF = output.
Proof.
  unfold strbuf_chomp. rewrite last_is_app_single. cbn [Ascii.eqb].
  simpl. now rewrite removelast_last.
Qed.

(** X4.  In header mode a line that holds no fold is complete as soon as
    the byte after its newline is there and is neither a space nor a tab:
    the line is returned without its newline and without one carriage
    return before it, and that next byte is left in the stream.  While
    nothing follows the newline the answer is "need more input", with
    the newline kept in the buffer. *)
Theorem read_line_header_line (fuel : nat) (line : list ascii) (c : ascii)
    (rest : bufchain) (output : strbuf)
    (Hline : ~ In LF line) (Hout : last_is output LF = false)
    (Hfuel : (length line + 2 <= fuel)%nat) :
  (c <> SP -> c <> TAB ->
   read_line fuel (line ++ LF :: c :: rest) output true
   = Some (true, c :: rest, strbuf_chomp (output ++ line) CR))
  /\ read_line fuel (line ++ [LF]) output true
     = Some (false, [], output ++ line ++ [LF]).
Proof.
  pose proof (last_is_no_newline line output Hline Hout) as Hlast.
  replace fuel with (length line + (2 + (fuel - length line - 2)))%nat
    by lia.
  rewrite !read_line_header_prefix by assumption.
  assert (forall k tail,
             read_line (S k) (LF :: tail) (output ++ line) true
             = read_line k tail ((output ++ line) ++ [LF]) true) as Hstep.
  { intros k tail. cbn [read_line bufchain_try_fetch]. rewrite Hlast.
    reflexivity. }
  cbn [Nat.add]. rewrite !Hstep.
  split.
  - intros Hsp Htab.
    cbn [read_line bufchain_try_fetch]. rewrite last_is_app_single.
    change (Ascii.eqb LF LF) with true. cbn [andb].
    apply Ascii.eqb_neq in Hsp, Htab. rewrite Hsp, Htab. cbn [negb andb].
    unfold read_line_done. now rewrite chomp_newline.
  - cbn [read_line bufchain_try_fetch]. now rewrite <- app_assoc.
Qed.

Lemma read_line_header_line_witness :
  read_line 30 (lit "Connection: close" ++ CRLF ++ lit "X") [] true
  = Some (true, lit "X", lit "Connection: close").
Proof.
  destruct (read_line_header_line 30 (lit "Connection: close" ++ [CR])
              "X"%char [] []
              ltac:(vm_compute; intros H;
                    repeat (destruct H as [H | H]; [discriminate|]); exact H)
              eq_refl ltac:(vm_compute; lia))
    as [H _].
  rewrite <- app_assoc in H. apply H; discriminate.
Defined.

(** In plain mode, a stream with no newline is taken whole. *)
Lemma read_line_plain_no_line (input : bufchain) :
  forall fuel output,
    ~ In LF input -> (length input < fuel)%nat ->
    read_line fuel input output false = Some (false, [], output ++ input).
Proof.
  induction input as [|c input IH]; intros fuel output Hin Hfuel;
    (destruct fuel as [|fuel]; [simpl in Hfuel; lia|]).
  - simpl. now rewrite app_nil_r.
  - cbn [read_line bufchain_try_fetch negb andb bufchain_consume skipn].
    unfold put_byte at 1. rewrite last_is_app_single.
    assert (Ascii.eqb c LF = false) as ->.
    { apply Ascii.eqb_neq. intros ->. apply Hin. now left. }
    rewrite IH; [|intros Hc; apply Hin; now right | simpl in Hfuel; lia].
    unfold put_byte. now rewrite <- app_assoc.
Qed.

(** X5.  In plain mode every byte is taken as it comes and the line ends
    exactly at the first newline: the line is returned without the
    newline and without one carriage return before it, and the bytes
    after the newline stay in the stream; with no newline in the stream
    everything is kept and the answer is "need more input". *)
Theorem read_line_plain_spec (fuel : nat) (line : list ascii)
    (rest : bufchain) (output : strbuf)
    (Hline : ~ In LF line) (Hfuel : (length line < fuel)%nat) :
  read_line fuel (line ++ LF :: rest) output false
  = Some (true, rest, strbuf_chomp (output ++ line) CR)
  /\ read_line fuel line output false = Some (false, [], output ++ line).
Proof.
  split.
  - now apply read_line_plain_line.
  - now apply read_line_plain_no_line.
Qed.

Lemma read_line_plain_spec_witness :
  read_line 30 (lit "HTTP/1.1 200 OK" ++ CRLF ++ lit "rest") [] false
  = Some (true, lit "rest", lit "HTTP/1.1 200 OK").
Proof.
  destruct (read_line_plain_spec 30 (lit "HTTP/1.1 200 OK" ++ [CR])
              (lit "rest") []
              ltac:(vm_compute; intros H;
                    repeat (destruct H as [H | H]; [discriminate|]); exact H)
              ltac:(vm_compute; lia))
    as [H _].
  rewrite <- app_assoc in H. exact H.
Defined.

(** A completed line does not depend on what comes later in the
    stream. *)
Lemma read_line_more (fuel : nat) :
  forall a b output is_header input' output',
    read_line fuel a output is_header = Some (true, input', output') ->
    read_line fuel (a ++ b) output is_header
    = Some (true, input' ++ b, output').
Proof.
  induction fuel as [|fuel IH]; intros a b output is_header input' output' H;
    [discriminate|].
  simpl in H. destruct a as [|c a]; simpl in H; [discriminate|].
  cbn [app read_line bufchain_try_fetch].
  destruct (is_header && last_is output LF).
  - destruct (negb (Ascii.eqb c SP) && negb (Ascii.eqb c TAB)).
    + unfold read_line_done in *. inversion H; subst. reflexivity.
    + now apply (IH (c :: a) b).
  - cbn [bufchain_consume skipn].
    destruct (negb is_header && last_is (put_byte output c) LF).
    + unfold read_line_done in *. inversion H; subst. reflexivity.
    + now apply IH.
Qed.

(** A read that ran out of bytes goes on, when bytes arrive, as if they
    had been there from the start. *)
Lemma read_line_resume (f1 : nat) :
  forall a b output is_header input' output' f2 r,
    read_line f1 a output is_header = Some (false, input', output') ->
    read_line f2 b output' is_header = Some r ->
    read_line (f1 + f2) (a ++ b) output is_header = Some r.
Proof.
  induction f1 as [|f1 IH];
    intros a b output is_header input' output' f2 r H1 H2; [discriminate|].
  simpl in H1. destruct a as [|c a]; simpl in H1.
  - inversion H1; subst. cbn [app].
    apply read_line_mono with f2; [exact H2 | lia].
  - cbn [app Nat.add read_line bufchain_try_fetch].
    destruct (is_header && last_is output LF).
    + destruct (negb (Ascii.eqb c SP) && negb (Ascii.eqb c TAB));
        [discriminate|].
      now apply (IH (c :: a) b output is_header input' output').
    + cbn [bufchain_consume skipn].
      destruct (negb is_header && last_is (put_byte output c) LF);
        [discriminate|].
      now apply (IH a b _ is_header input' output').
Qed.

(** X6.  The line reader is insensitive to how the stream is cut into
    deliveries: a line it completes is the same whatever follows it in
    the stream, and after "need more input" a second call on the bytes
    that arrive gives what one call on the whole stream would have
    given. *)
Theorem read_line_chunks (f1 f2 : nat) (a b : bufchain) (output : strbuf)
    (is_header : bool) (ok : bool) (input' : bufchain) (output' : strbuf)
    (Hfirst : read_line f1 a output is_header = Some (ok, input', output')) :
  if ok then
    read_line f1 (a ++ b) output is_header = Some (true, input' ++ b, output')
  else
    forall r,
      read_line f2 b output' is_header = Some r ->
      read_line (f1 + f2) (a ++ b) output is_header = Some r.
Proof.
  destruct ok.
  - now apply read_line_more.
  - intros r Hsecond. now apply read_line_resume with input' output'.
Qed.

Lemma read_line_chunks_witness :
  read_line (8 + 20) (lit "HTTP/1." ++ lit "1 200 OK" ++ CRLF) [] false
  = Some (true, [], lit "HTTP/1.1 200 OK").
Proof.
  exact (read_line_chunks 8 20 (lit "HTTP/1.") (lit "1 200 OK" ++ CRLF) []
           false false [] (lit "HTTP/1.")
           ltac:(vm_compute; reflexivity)
           (true, [], lit "HTTP/1.1 200 OK")
           ltac:(vm_compute; reflexivity)).
Defined.


(** ** The input stream across a call *)

Lemma send_request_pn (m : HttpProxyNegotiator) :
  input (pn (send_request m)) = input (pn m)
  /\ error (pn (send_request m)) = error (pn m)
  /\ done (pn (send_request m)) = done (pn m)
  /\ aborted (pn (send_request m)) = aborted (pn m).
Proof.
  unfold send_request, send_auth.
  destruct (tried_no_auth m) eqn:Ht; fields; rewrite ?Ht;
    destruct (nonempty (username m) || nonempty (password m)); fields;
    repeat split.
Qed.

Lemma prompt_wait_input seat (m : HttpProxyNegotiator) :
  input (pn (prompt_wait seat m)) = input (pn m).
Proof.
  unfold prompt_wait. destruct (prompts m) as [p|]; [|reflexivity].
  destruct (0 <? prompt_result (seat p))%Z.
  - rewrite (proj1 (send_request_pn _)).
    now destruct (negb (username_prompt_index m =? -1)%Z).
  - now destruct (prompt_result (seat p) =? 0)%Z.
Qed.

Lemma issue_prompts_pn (m : HttpProxyNegotiator) :
  pn (issue_prompts m) = pn m.
Proof. apply issue_prompts_fields. Qed.

(** The decision never touches the input stream. *)
Lemma decide_input seat (m : HttpProxyNegotiator) :
  input (pn (decide seat m)) = input (pn m).
Proof.
  unfold decide.
  destruct (_ && _)%bool; [reflexivity|].
  destruct (_ =? _)%Z; [|reflexivity].
  destruct (connection_close m); [reflexivity|].
  destruct (try_auth_from_conf m).
  { now rewrite (proj1 (send_request_pn _)). }
  destruct (negb _); [reflexivity|].
  now rewrite prompt_wait_input, issue_prompts_pn.
Qed.

(** X14.  While the body is awaited, a call does nothing until the whole
    body is in the stream: with fewer bytes than the declared length it
    consumes nothing and returns in the same state; once they are there
    it drops exactly that many bytes, takes the decision on the status,
    and leaves every byte after the body in the stream. *)
Theorem body_is_skipped_whole seat (fuel : nat) (bytes : list ascii)
    (s : HttpProxyNegotiator) (Hline : crLine s = Cr295) :
  ((Z.of_nat (length (input (pn s) ++ bytes)) < content_length s)%Z ->
   proxy_http_process_queue seat fuel (receive bytes s)
   = Some (receive bytes s))
  /\ ((content_length s <= Z.of_nat (length (input (pn s) ++ bytes)))%Z ->
      exists s',
        proxy_http_process_queue seat fuel (receive bytes s) = Some s'
        /\ s' = decide seat
                  (set_input
                     (skipn (Z.to_nat (content_length s))
                        (input (pn s) ++ bytes)) s)
        /\ input (pn s')
           = skipn (Z.to_nat (content_length s)) (input (pn s) ++ bytes)).
Proof.
  unfold proxy_http_process_queue, await_body, bufchain_try_consume,
    bufchain_consume, receive.
  fields. rewrite Hline. split.
  - intros Hshort. apply Z.leb_gt in Hshort. rewrite Hshort.
    destruct s as [? ? ? ? ? ? ? ? ? ? ? ? ? ? ? ? []].
    simpl in Hline. subst. reflexivity.
  - intros Hlong. apply Z.leb_le in Hlong. rewrite Hlong.
    eexists. split; [reflexivity|]. split.
    + reflexivity.
    + now rewrite decide_input.
Qed.

Lemma body_is_skipped_whole_witness :
  exists s',
    proxy_http_process_queue no_seat 0
      (receive (lit "bcNEXT")
         (set_crLine Cr295
            (set_input (lit "a")
               (set_content_length 3 (with_status (lit "HTTP/1.1 204 x"))))))
    = Some s'
    /\ input (pn s') = lit "NEXT".
Proof.
  destruct (body_is_skipped_whole no_seat 0 (lit "bcNEXT")
              (set_crLine Cr295
                 (set_input (lit "a")
                    (set_content_length 3
                       (with_status (lit "HTTP/1.1 204 x")))))
              eq_refl) as [_ H].
  destruct H as (s' & Hcall & _ & Hin); [vm_compute; discriminate|].
  exists s'. split; [exact Hcall | exact Hin].
Defined.

Lemma process_header_input (s : HttpProxyNegotiator) :
  match process_header s with
  | Next m | Stop m => input (pn m) = input (pn s)
  end.
Proof.
  destruct (after_views s) as (V1 & V2 & V3).
  apply parse_view_fields in V1, V2, V3.
  destruct V1 as (_ & _ & P1 & _). destruct V2 as (_ & _ & P2 & _).
  destruct V3 as (_ & _ & P3 & _).
  rewrite process_header_steps.
  repeat match goal with
         | |- context [if ?b then _ else _] => destruct b
         | |- context [match header_kind ?x with _ => _ end] =>
             destruct (header_kind x)
         end; fields; congruence.
Qed.

Lemma parse_status_line_input (s : HttpProxyNegotiator) :
  match parse_status_line s with
  | Next m | Stop m => input (pn m) = input (pn s)
  end.
Proof.
  unfold parse_status_line.
  destruct (scanned_pos _); destruct (scanned_status _);
    repeat match goal with
           | |- context [if ?b then _ else _] => destruct b
           end; reflexivity.
Qed.

Lemma await_body_suffix seat (m : HttpProxyNegotiator) :
  exists used, input (pn m) = used ++ input (pn (await_body seat m)).
Proof.
  unfold await_body, bufchain_try_consume, bufchain_consume.
  destruct (_ <=? _)%Z.
  - rewrite decide_input. fields.
    exists (firstn (Z.to_nat (content_length m)) (input (pn m))).
    now rewrite firstn_skipn.
  - now exists [].
Qed.

Lemma header_loop_suffix seat (fuel : nat) :
  forall resume s s',
    header_loop seat fuel resume s = Some s' ->
    exists used, input (pn s) = used ++ input (pn s').
Proof.
  induction fuel as [|fuel IH]; intros resume s s' H; [discriminate|].
  cbn [header_loop] in H.
  set (s0 := if resume then s else set_header (strbuf_clear (header s)) s) in H.
  assert (input (pn s0) = input (pn s)) as Hin
    by (subst s0; now destruct resume).
  destruct (read_line (S fuel) (input (pn s0)) (header s0) true)
    as [[[b input'] header']|] eqn:Hr; [|discriminate].
  apply read_line_consumes_prefix in Hr. destruct Hr as (u1 & Hu1).
  rewrite Hin in Hu1.
  destruct b.
  - pose proof (process_header_input
                  (set_header header' (set_input input' s0))) as Hp.
    destruct (process_header _) as [m|m]; fields.
    + destruct (nonempty (header m)).
      * apply IH in H. destruct H as (u2 & Hu2).
        exists (u1 ++ u2). rewrite Hu1, <- Hp, Hu2. now rewrite app_assoc.
      * injection H as <-.
        destruct (await_body_suffix seat m) as (u2 & Hu2).
        exists (u1 ++ u2). rewrite Hu1, <- Hp, Hu2. now rewrite app_assoc.
    + injection H as <-. exists u1. now rewrite Hp.
  - injection H as <-. now exists u1.
Qed.

Lemma await_status_line_suffix seat (fuel : nat) (s s' : HttpProxyNegotiator) :
  await_status_line seat fuel s = Some s' ->
  exists used, input (pn s) = used ++ input (pn s').
Proof.
  unfold await_status_line. intros H.
  destruct (read_line fuel (input (pn s)) (response s) false)
    as [[[b input'] response']|] eqn:Hr; [|discriminate].
  apply read_line_consumes_prefix in Hr. destruct Hr as (u1 & Hu1).
  destruct b.
  - pose proof (parse_status_line_input
                  (set_response response' (set_input input' s))) as Hp.
    destruct (parse_status_line _) as [m|m]; fields.
    + apply header_loop_suffix in H. destruct H as (u2 & Hu2).
      exists (u1 ++ u2). rewrite Hu1, <- Hp, Hu2. now rewrite app_assoc.
    + injection H as <-. exists u1. now rewrite Hp.
  - injection H as <-. now exists u1.
Qed.

(** X17.  A call consumes a prefix of the stream and nothing else: what
    it leaves in the stream is a suffix of what was pending together with
    what was received, so no byte is read twice, dropped from the middle
    or made up. *)
Theorem call_consumes_prefix seat (fuel : nat) (bytes : list ascii)
    (s s' : HttpProxyNegotiator)
    (Hcall : proxy_http_process_queue seat fuel (receive bytes s) = Some s') :
  exists used, input (pn s) ++ bytes = used ++ input (pn s').
Proof.
  change (input (pn s) ++ bytes) with (input (pn (receive bytes s))).
  revert Hcall. generalize (receive bytes s) as r. intros r Hcall.
  unfold proxy_http_process_queue in Hcall.
  destruct (crLine r).
  - inversion Hcall; subst. exists [].
    rewrite (proj1 (send_request_pn _)).
    unfold init_from_conf.
    now destruct (nonempty _ || nonempty _).
  - now apply await_status_line_suffix in Hcall.
  - now apply await_status_line_suffix in Hcall.
  - now apply header_loop_suffix in Hcall.
  - inversion Hcall; subst. apply await_body_suffix.
  - inversion Hcall; subst. exists []. now rewrite prompt_wait_input.
Qed.

Lemma call_consumes_prefix_witness :
  exists used s',
    proxy_http_process_queue no_seat 200
      (receive sample_407 (sample_sent false)) = Some s'
    /\ input (pn (sample_sent false)) ++ sample_407 = used ++ input (pn s').
Proof.
  assert (exists s', proxy_http_process_queue no_seat 200
                       (receive sample_407 (sample_sent false)) = Some s')
    as [s' Hcall] by (eexists; vm_compute; reflexivity).
  destruct (call_consumes_prefix no_seat 200 sample_407 (sample_sent false)
              s' Hcall) as (used & Hused).
  exists used, s'. split; [exact Hcall | exact Hused].
Defined.


(** ** The answer of the user *)

(** X15.  Once the prompt is issued: an answer replaces the password
    always and the user name only when none was held (the field was then
    asked for first), the prompt is discarded and the request is sent
    again with the new credentials; a cancellation reports the abort,
    with no error and nothing written; and while the answer is pending
    the call returns with the same prompt kept for the next call. *)
Theorem prompt_answer seat (m : HttpProxyNegotiator) (p : prompts_t)
    (Hp : prompts (issue_prompts m) = Some p) :
  match seat p with
  | SeatDone results =>
      username (prompt_wait seat (issue_prompts m))
      = (if nonempty (username m) then username m
         else cstr (nth 0 results []))
      /\ password (prompt_wait seat (issue_prompts m))
         = cstr (nth (if nonempty (username m) then 0 else 1) results [])
      /\ prompts (prompt_wait seat (issue_prompts m)) = None
      /\ crLine (prompt_wait seat (issue_prompts m)) = Cr213
      /\ (tried_no_auth m = true ->
          output (pn (prompt_wait seat (issue_prompts m)))
          = output (pn m) ++ connect_prefix (ps (pn m))
              ++ auth_line (username (prompt_wait seat (issue_prompts m)))
                   (password (prompt_wait seat (issue_prompts m)))
              ++ CRLF)
  | SeatCancelled =>
      aborted (pn (prompt_wait seat (issue_prompts m))) = true
      /\ error (pn (prompt_wait seat (issue_prompts m))) = error (pn m)
      /\ output (pn (prompt_wait seat (issue_prompts m))) = output (pn m)
      /\ crLine (prompt_wait seat (issue_prompts m)) = Cr0
  | SeatPending =>
      prompt_wait seat (issue_prompts m) = set_crLine Cr357 (issue_prompts m)
      /\ forall seat' fuel,
           proxy_http_process_queue seat' fuel
             (prompt_wait seat (issue_prompts m))
           = Some (prompt_wait seat' (set_crLine Cr357 (issue_prompts m)))
  end.
Proof.
  destruct (seat p) as [results| |] eqn:Hs.
  - unfold prompt_wait. rewrite Hp, Hs.
    cbn [prompt_result Z.ltb Z.eqb Z.compare].
    match goal with
    | |- context [send_request ?x] =>
        destruct (send_request_fields x)
          as (Hu & Hpw & _ & Hpr & Hps & _ & _ & _ & Hl);
        pose proof (send_request_output x) as Ho
    end.
    rewrite Hu, Hpw, Hpr, Hl.
    unfold issue_prompts in *.
    destruct (nonempty (username m)) eqn:Hn; cbn [negb] in *; fields;
      cbn [n_prompts prompts_list add_prompt length Z.of_nat Z.eqb negb
           prompt_get_result_ref Z.to_nat Pos.to_nat Pos.iter_op Nat.add
           put_dataz strbuf_clear app] in *;
      (split; [reflexivity|]); (split; [reflexivity|]);
      (split; [reflexivity|]); (split; [reflexivity|]);
      intros Ht; rewrite (Ho Ht); reflexivity.
  - unfold prompt_wait. rewrite Hp, Hs.
    cbn [prompt_result Z.ltb Z.eqb Z.compare].
    unfold issue_prompts.
    destruct (nonempty (username m)); cbn [negb]; fields; repeat split.
  - assert (prompt_wait seat (issue_prompts m)
            = set_crLine Cr357 (issue_prompts m)) as E
      by (unfold prompt_wait; rewrite Hp, Hs; reflexivity).
    rewrite E. split; reflexivity.
Qed.

Lemma prompt_answer_witness :
  password
    (prompt_wait (fun _ => SeatDone [lit "secret"])
       (issue_prompts (sample_sent true))) = lit "secret"
  /\ username
       (prompt_wait (fun _ => SeatDone [lit "secret"])
          (issue_prompts (sample_sent true))) = lit "user".
Proof.
  destruct (prompt_answer (fun _ => SeatDone [lit "secret"])
              (sample_sent true)
              (mkPrompts true false (lit "HTTP proxy authentication")
                 [mkPrompt (lit "Proxy password: ") false])
              ltac:(vm_compute; reflexivity))
    as (Hu & Hpw & _).
  split.
  - rewrite Hpw. vm_compute. reflexivity.
  - rewrite Hu. vm_compute. reflexivity.
Defined.


(** ** How a call ends *)

Lemma terminal_clean (s : HttpProxyNegotiator) :
  terminal s = false <-> clean s.
Proof.
  unfold terminal, clean. destruct (error (pn s)).
  - split; [discriminate | intros (H & _); discriminate].
  - rewrite orb_false_iff. tauto.
Qed.

Lemma send_request_writes (m : HttpProxyNegotiator) :
  exists req,
    req <> [] /\ output (pn (send_request m)) = output (pn m) ++ req.
Proof.
  unfold send_request, send_auth.
  exists (connect_prefix (ps (pn m))
            ++ (if tried_no_auth m
                then auth_line (username m) (password m) else [])
            ++ CRLF).
  split.
  - unfold connect_prefix. discriminate.
  - unfold auth_line. fields.
    destruct (tried_no_auth m) eqn:Ht; fields; rewrite ?Ht;
      destruct (nonempty (username m) || nonempty (password m)); fields;
      unfold put_data; rewrite <- ?app_assoc; reflexivity.
Qed.

Lemma send_request_exit (s m : HttpProxyNegotiator) :
  clean m -> output (pn m) = output (pn s) ->
  call_exit s (send_request m).
Proof.
  intros (He & Hd & Ha) Ho.
  destruct (send_request_writes m) as (req & Hne & Hreq).
  destruct (send_request_pn m) as (_ & He' & Hd' & Ha').
  apply exit_request with req.
  - apply send_request_fields.
  - apply terminal_clean. unfold clean. now rewrite He', Hd', Ha'.
  - exact Hne.
  - now rewrite Hreq, Ho.
Qed.

Lemma prompt_wait_exit seat (s m : HttpProxyNegotiator) :
  clean m -> prompts m <> None -> output (pn m) = output (pn s) ->
  call_exit s (prompt_wait seat m).
Proof.
  intros Hc Hp Ho. pose proof Hc as (He & Hd & Ha).
  unfold prompt_wait. destruct (prompts m) as [p|]; [|congruence].
  destruct (seat p); cbn [prompt_result Z.ltb Z.eqb Z.compare].
  - apply send_request_exit.
    + unfold clean.
      destruct (negb (username_prompt_index m =? -1)%Z); fields; auto.
    + destruct (negb (username_prompt_index m =? -1)%Z); fields; auto.
  - apply exit_aborted; fields; auto.
  - apply exit_suspend; fields; try discriminate; auto.
    apply terminal_clean. unfold clean. fields. auto.
Qed.

Lemma decide_exit seat (s m : HttpProxyNegotiator) :
  clean m -> output (pn m) = output (pn s) ->
  call_exit s (decide seat m).
Proof.
  intros Hc Ho. pose proof Hc as (He & Hd & Ha). unfold decide.
  destruct ((200 <=? http_status m) && (http_status m <? 300))%Z eqn:Hr.
  { apply andb_true_iff in Hr. destruct Hr as [Hlo Hhi].
    apply Z.leb_le in Hlo. apply Z.ltb_lt in Hhi.
    apply exit_done; fields; auto. }
  destruct (http_status m =? 407)%Z.
  2:{ eapply exit_error; fields; eauto. }
  destruct (connection_close m).
  { eapply exit_error; fields; eauto. }
  destruct (try_auth_from_conf m).
  { apply send_request_exit; [unfold clean; fields; auto | exact Ho]. }
  destruct (negb (itr (pn m))).
  { eapply exit_error; fields; eauto. }
  apply prompt_wait_exit.
  - unfold clean. rewrite issue_prompts_pn. auto.
  - apply issue_prompts_fields.
  - now rewrite issue_prompts_pn.
Qed.

Lemma await_body_exit seat (s m : HttpProxyNegotiator) :
  clean m -> output (pn m) = output (pn s) ->
  call_exit s (await_body seat m).
Proof.
  intros Hc Ho. unfold await_body.
  destruct (bufchain_try_consume (input (pn m)) (content_length m))
    as [ok rest].
  destruct ok.
  - apply decide_exit; [exact Hc | exact Ho].
  - apply exit_suspend; fields; try discriminate; auto.
    apply terminal_clean. exact Hc.
Qed.

Lemma auth_view_outcome (s m : HttpProxyNegotiator) :
  auth_view m = auth_view s ->
  output (pn m) = output (pn s)
  /\ done (pn m) = done (pn s) /\ aborted (pn m) = aborted (pn s).
Proof.
  unfold auth_view. intros H.
  pose proof (f_equal snd H) as Ha.
  pose proof (f_equal (fun t => snd (fst t)) H) as Hd.
  pose proof (f_equal (fun t => snd (fst (fst (fst (fst t))))) H) as Ho.
  cbn [fst snd] in *. auto.
Qed.

Lemma parsed_exit seat (s s' : HttpProxyNegotiator) :
  clean s -> parsed seat s s' -> call_exit s s'.
Proof.
  intros (He & Hd & Ha) [Hv Hr Hl | Hv Hr Hl | m Hv Hr ->].
  - destruct (auth_view_outcome _ _ Hv) as (Ho & Hd' & Ha').
    apply exit_suspend; auto.
    + destruct Hl as [-> | ->]; discriminate.
    + destruct Hl as [-> | ->]; discriminate.
    + apply terminal_clean. unfold clean. rewrite Hr, Hd', Ha'. auto.
  - destruct (auth_view_outcome _ _ Hv) as (Ho & Hd' & Ha').
    destruct (error (pn s')) as [e|] eqn:E; [|congruence].
    apply exit_error with e; auto; congruence.
  - destruct (auth_view_outcome _ _ Hv) as (Ho & Hd' & Ha').
    apply await_body_exit; [|exact Ho].
    unfold clean. rewrite Hr, Hd', Ha'. auto.
Qed.

(** Every call of a negotiation ends in one of the five ways. *)
Lemma call_exits (sock : ProxySocket) (interactor : bool) seat (fuel : nat)
    (bytes : list ascii) (s s' : HttpProxyNegotiator) :
  negotiating sock interactor s -> terminal s = false ->
  proxy_http_process_queue seat fuel (receive bytes s) = Some s' ->
  call_exit s s'.
Proof.
  intros Hneg Hterm Hcall.
  apply terminal_clean in Hterm.
  assert (clean (receive bytes s)) as Hc by exact Hterm.
  assert (output (pn (receive bytes s)) = output (pn s)) as Ho
    by reflexivity.
  assert (forall x, call_exit (receive bytes s) x -> call_exit s x) as Hback.
  { intros x [req A B C D | A B C D | e A B C D E | A B C D E F | A B C D E].
    - now apply exit_request with req.
    - now apply exit_suspend.
    - now apply exit_error with e.
    - now apply exit_done.
    - now apply exit_aborted. }
  pose proof Hcall as Hcall0.
  unfold proxy_http_process_queue in Hcall.
  destruct (receive_view bytes s) as (_ & Hl & Hp & _).
  rewrite Hl in Hcall. destruct (crLine s) eqn:Hcr.
  - injection Hcall as <-. apply send_request_exit; [|unfold init_from_conf;
      now destruct (nonempty _ || nonempty _)].
    unfold clean, init_from_conf.
    destruct (nonempty _ || nonempty _); exact Hc.
  - apply Hback. apply parsed_exit with seat; [exact Hc|].
    apply call_parsed with fuel; [left; exact Hl | exact Hcall0].
  - apply Hback. apply parsed_exit with seat; [exact Hc|].
    apply call_parsed with fuel; [right; left; exact Hl | exact Hcall0].
  - apply Hback. apply parsed_exit with seat; [exact Hc|].
    apply call_parsed with fuel; [right; right; exact Hl | exact Hcall0].
  - injection Hcall as <-. now apply await_body_exit.
  - injection Hcall as <-. apply prompt_wait_exit; [exact Hc | | exact Ho].
    rewrite Hp.
    destruct (negotiating_inv _ _ _ Hneg) as [-> | [_ _ Hprompt]];
      [discriminate|].
    now apply Hprompt.
Qed.

(** X16.  In every state of a negotiation at most one outcome is
    reported, and success is reported only with a status from 200 to
    299; and once a call has been made, an outcome has been reported
    exactly when the procedure is back at its start (line 0). *)
Theorem negotiating_outcome (sock : ProxySocket) (interactor : bool)
    (s : HttpProxyNegotiator) (Hneg : negotiating sock interactor s) :
  outcome_ok s
  /\ (aborted (pn s) = true -> error (pn s) = None /\ done (pn s) = false)
  /\ (s <> proxy_http_new sock interactor ->
      (terminal s = true <-> crLine s = Cr0)).
Proof.
  induction Hneg as [|s seat fuel bytes s' Hneg IH Hterm Hcall].
  - unfold outcome_ok. cbn. repeat split; try discriminate; congruence.
  - clear IH.
    destruct (call_exits _ _ _ _ _ _ _ Hneg Hterm Hcall)
      as [req A B C D | A B C D | e A B C D E | A B C D E F | A B C D E].
    + apply terminal_clean in B. destruct B as (B1 & B2 & B3).
      unfold outcome_ok, terminal. rewrite A, B1, B2, B3.
      repeat split; intros; try discriminate; try congruence.
    + apply terminal_clean in C. destruct C as (B1 & B2 & B3).
      unfold outcome_ok, terminal. rewrite B1, B2, B3.
      repeat split; intros; try discriminate; try congruence.
    + unfold outcome_ok, terminal. rewrite A, B, C, D.
      repeat split; intros; try discriminate; try congruence.
    + unfold outcome_ok, terminal. rewrite A, B, C, D.
      repeat split; intros; try discriminate; try congruence; try lia.
    + unfold outcome_ok, terminal. rewrite A, B, C, D.
      repeat split; intros; try discriminate; try congruence.
Qed.

Lemma negotiating_outcome_witness :
  outcome_ok (sample_sent false)
  /\ (terminal (sample_sent false) = true <-> crLine (sample_sent false) = Cr0).
Proof.
  destruct (negotiating_outcome sample_socket false (sample_sent false)
              (sample_sent_negotiating false)) as (H1 & _ & H3).
  split; [exact H1|]. apply H3. discriminate.
Defined.

(** X18.  Output is only ever appended to, and a call writes something
    exactly when it returns at line 213, having sent a request whose
    response is now awaited; a call that suspends or reports an outcome
    writes nothing, and a call that writes reports no outcome. *)
Theorem request_written_iff_awaiting_response (sock : ProxySocket)
    (interactor : bool) seat (fuel : nat) (bytes : list ascii)
    (s s' : HttpProxyNegotiator)
    (Hneg : negotiating sock interactor s) (Hterm : terminal s = false)
    (Hcall : proxy_http_process_queue seat fuel (receive bytes s) = Some s') :
  (exists req, output (pn s') = output (pn s) ++ req)
  /\ (crLine s' = Cr213 <-> output (pn s') <> output (pn s))
  /\ (output (pn s') <> output (pn s) -> terminal s' = false).
Proof.
  assert (forall (o req : list ascii), req <> [] -> o ++ req <> o) as Hgrow.
  { intros o req Hne Heq. apply Hne.
    apply (app_inv_head o). now rewrite app_nil_r. }
  destruct (call_exits _ _ _ _ _ _ _ Hneg Hterm Hcall)
    as [req A B C D | A B C D | e A B C D E | A B C D E F | A B C D E].
  - split; [now exists req|]. rewrite D. split; [|auto].
    split; [intros _; now apply Hgrow | auto].
  - split; [exists []; now rewrite app_nil_r|]. rewrite D.
    split; [split; [contradiction | congruence] | congruence].
  - split; [exists []; now rewrite app_nil_r|]. rewrite E.
    split; [split; [congruence | congruence] | congruence].
  - split; [exists []; now rewrite app_nil_r|]. rewrite F.
    split; [split; [congruence | congruence] | congruence].
  - split; [exists []; now rewrite app_nil_r|]. rewrite E.
    split; [split; [congruence | congruence] | congruence].
Qed.

Lemma request_written_iff_awaiting_response_witness :
  exists s',
    proxy_http_process_queue no_seat 200
      (receive sample_407 (sample_sent false)) = Some s'
    /\ (crLine s' = Cr213 <-> output (pn s') <> output (pn (sample_sent false))).
Proof.
  assert (exists s', proxy_http_process_queue no_seat 200
                       (receive sample_407 (sample_sent false)) = Some s')
    as [s' Hcall] by (eexists; vm_compute; reflexivity).
  destruct (request_written_iff_awaiting_response sample_socket false
              no_seat 200 sample_407 (sample_sent false) s'
              (sample_sent_negotiating false) eq_refl Hcall)
    as (_ & H & _).
  exists s'. split; [exact Hcall | exact H].
Defined.


(** ** Deliveries *)

Lemma receive_app (a b : list ascii) (s : HttpProxyNegotiator) :
  receive (a ++ b) s = receive b (receive a s).
Proof. unfold receive. fields. now rewrite app_assoc. Qed.

(** The blocks of the parser do not look at the input stream nor at the
    resumption point. *)
Lemma process_header_set_input (x : bufchain) (s : HttpProxyNegotiator) :
  process_header (set_input x s) = flow_map (set_input x) (process_header s).
Proof.
  unfold process_header, get_token, get_separator. fields.
  repeat (match goal with
          | |- context [if ?b then _ else _] => destruct b
          | |- context [take_token ?r ?p] => destruct (take_token r p)
          | |- context [match header_kind ?k with _ => _ end] =>
              destruct (header_kind k)
          end; fields); reflexivity.
Qed.

Lemma process_header_set_crLine (l : crLine_t) (s : HttpProxyNegotiator) :
  process_header (set_crLine l s) = flow_line l (process_header s).
Proof.
  unfold process_header, get_token, get_separator. fields.
  repeat (match goal with
          | |- context [if ?b then _ else _] => destruct b
          | |- context [take_token ?r ?p] => destruct (take_token r p)
          | |- context [match header_kind ?k with _ => _ end] =>
              destruct (header_kind k)
          end; fields); reflexivity.
Qed.

Lemma parse_status_line_set_input (x : bufchain) (s : HttpProxyNegotiator) :
  parse_status_line (set_input x s)
  = flow_map (set_input x) (parse_status_line s).
Proof.
  unfold parse_status_line. fields.
  destruct (scanned_pos _); destruct (scanned_status _);
    repeat match goal with
           | |- context [if ?b then _ else _] => destruct b
           end; reflexivity.
Qed.

Lemma parse_status_line_set_crLine (l : crLine_t) (s : HttpProxyNegotiator) :
  parse_status_line (set_crLine l s) = flow_line l (parse_status_line s).
Proof.
  unfold parse_status_line. fields.
  destruct (scanned_pos _); destruct (scanned_status _);
    repeat match goal with
           | |- context [if ?b then _ else _] => destruct b
           end; reflexivity.
Qed.

Lemma send_request_set_crLine (l : crLine_t) (m : HttpProxyNegotiator) :
  send_request (set_crLine l m) = send_request m.
Proof.
  unfold send_request, send_auth. fields.
  destruct (tried_no_auth m);
    [destruct (nonempty (username m) || nonempty (password m))|];
    reflexivity.
Qed.

Lemma issue_prompts_set_crLine (l : crLine_t) (m : HttpProxyNegotiator) :
  issue_prompts (set_crLine l m) = set_crLine l (issue_prompts m).
Proof.
  unfold issue_prompts. fields.
  now destruct (negb (nonempty (username m))).
Qed.

Lemma prompt_wait_set_crLine seat (l : crLine_t) (m : HttpProxyNegotiator) :
  prompts m <> None ->
  prompt_wait seat (set_crLine l m) = prompt_wait seat m.
Proof.
  intros Hp. unfold prompt_wait. fields.
  destruct (prompts m) as [p|]; [|congruence].
  destruct (seat p); cbn [prompt_result Z.ltb Z.eqb Z.compare];
    [|reflexivity|reflexivity].
  destruct (negb (username_prompt_index m =? -1)%Z); fields;
    match goal with
    | |- send_request ?x = send_request ?y =>
        change x with (set_crLine l y); apply send_request_set_crLine
    end.
Qed.

Lemma decide_set_crLine seat (l : crLine_t) (m : HttpProxyNegotiator) :
  decide seat (set_crLine l m) = decide seat m.
Proof.
  unfold decide. fields.
  destruct (_ && _)%bool; [reflexivity|].
  destruct (_ =? _)%Z; [|reflexivity].
  destruct (connection_close m); [reflexivity|].
  destruct (try_auth_from_conf m).
  { change (set_try_auth_from_conf false (set_crLine l m))
      with (set_crLine l (set_try_auth_from_conf false m)).
    apply send_request_set_crLine. }
  destruct (negb _); [reflexivity|].
  rewrite issue_prompts_set_crLine. apply prompt_wait_set_crLine.
  apply issue_prompts_fields.
Qed.

Lemma await_body_set_crLine seat (l : crLine_t) (m : HttpProxyNegotiator) :
  await_body seat (set_crLine l m) = await_body seat m.
Proof.
  unfold await_body. fields.
  destruct (bufchain_try_consume (input (pn m)) (content_length m))
    as [ok rest].
  destruct ok; [|reflexivity].
  change (set_input rest (set_crLine l m))
    with (set_crLine l (set_input rest m)).
  apply decide_set_crLine.
Qed.

Lemma header_loop_set_crLine seat (l : crLine_t) (fuel : nat) :
  forall resume s,
    header_loop seat fuel resume (set_crLine l s)
    = header_loop seat fuel resume s.
Proof.
  induction fuel as [|fuel IH]; intros resume s; [reflexivity|].
  cbn [header_loop].
  assert ((if resume then set_crLine l s
           else set_header (strbuf_clear (header (set_crLine l s)))
                  (set_crLine l s))
          = set_crLine l
              (if resume then s
               else set_header (strbuf_clear (header s)) s)) as ->
    by (now destruct resume).
  set (s0 := if resume then s else set_header (strbuf_clear (header s)) s).
  fields.
  destruct (read_line (S fuel) (input (pn s0)) (header s0) true)
    as [[[b input'] header']|]; [|reflexivity].
  destruct b; [|reflexivity].
  change (set_header header' (set_input input' (set_crLine l s0)))
    with (set_crLine l (set_header header' (set_input input' s0))).
  rewrite process_header_set_crLine.
  destruct (process_header (set_header header' (set_input input' s0)))
    as [m|m]; cbn [flow_line]; [|reflexivity].
  fields. destruct (nonempty (header m)).
  - apply IH.
  - now rewrite await_body_set_crLine.
Qed.

Lemma header_loop_mono seat (fuel : nat) :
  forall fuel' resume s x,
    header_loop seat fuel resume s = Some x -> (fuel <= fuel')%nat ->
    header_loop seat fuel' resume s = Some x.
Proof.
  induction fuel as [|fuel IH]; intros fuel' resume s x H Hle;
    [discriminate|].
  destruct fuel' as [|fuel']; [lia|].
  cbn [header_loop] in *.
  set (s0 := if resume then s else set_header (strbuf_clear (header s)) s)
    in *.
  destruct (read_line (S fuel) (input (pn s0)) (header s0) true)
    as [r|] eqn:Hr; [|discriminate].
  rewrite (read_line_mono _ (S fuel') _ _ _ _ Hr) by lia.
  destruct r as [[b input'] header']. destruct b; [|exact H].
  destruct (process_header _) as [m|m]; [|exact H].
  destruct (nonempty (header m)); [|exact H].
  apply IH; [exact H | lia].
Qed.

Lemma await_body_line seat (m : HttpProxyNegotiator) :
  await_body seat m = set_crLine Cr295 m
  \/ crLine (await_body seat m) = Cr0
  \/ crLine (await_body seat m) = Cr213
  \/ crLine (await_body seat m) = Cr357.
Proof.
  unfold await_body.
  destruct (bufchain_try_consume (input (pn m)) (content_length m))
    as [ok rest].
  destruct ok; [|now left].
  right. destruct (decide_waits seat (set_input rest m)) as [[H _] | [H | H]];
    auto.
Qed.

Lemma header_loop_line seat (fuel : nat) :
  forall resume s s',
    header_loop seat fuel resume s = Some s' -> crLine s' <> Cr223.
Proof.
  induction fuel as [|fuel IH]; intros resume s s' H; [discriminate|].
  cbn [header_loop] in H.
  destruct (read_line _ _ _ _) as [[[b input'] header']|]; [|discriminate].
  destruct b.
  - match type of H with
    | context [process_header ?x] => pose proof (process_header_ok x) as Hok
    end.
    destruct (process_header _) as [m|m]; simpl in Hok.
    + destruct (nonempty (header m)).
      * now apply IH in H.
      * injection H as <-.
        destruct (await_body_line seat m) as [E | [E | [E | E]]];
          rewrite E; discriminate.
    + destruct Hok as (_ & _ & Hl). injection H as <-. rewrite Hl.
      discriminate.
  - injection H as <-. discriminate.
Qed.

(** The header loop, suspended by a first delivery and resumed by a
    second, ends as it would have on both deliveries at once. *)
Lemma header_loop_split seat (f1 : nat) :
  forall resume s s1,
    header_loop seat f1 resume s = Some s1 ->
    crLine s1 = Cr246 \/ crLine s1 = Cr295 ->
    forall b f2 s2,
      proxy_http_process_queue seat f2 (receive b s1) = Some s2 ->
      header_loop seat (f1 + f2) resume (receive b s) = Some s2.
Proof.
  induction f1 as [|f IH]; intros resume s s1 H Hl b f2 s2 H2;
    [discriminate|].
  cbn [header_loop] in H. cbn [Nat.add header_loop].
  assert ((if resume then receive b s
           else set_header (strbuf_clear (header (receive b s)))
                  (receive b s))
          = receive b (if resume then s
                       else set_header (strbuf_clear (header s)) s)) as ->
    by (now destruct resume).
  set (s0 := if resume then s else set_header (strbuf_clear (header s)) s)
    in *.
  change (input (pn (receive b s0))) with (input (pn s0) ++ b).
  change (header (receive b s0)) with (header s0).
  destruct (read_line (S f) (input (pn s0)) (header s0) true)
    as [[[ok i'] h']|] eqn:Hr; [|discriminate].
  destruct ok.
  - rewrite (read_line_mono _ (S (f + f2)) _ _ _ _
               (read_line_more _ _ b _ _ _ _ Hr)) by lia.
    change (set_header h' (set_input (i' ++ b) (receive b s0)))
      with (set_input (i' ++ b) (set_header h' (set_input i' s0))).
    rewrite process_header_set_input.
    pose proof (process_header_input (set_header h' (set_input i' s0)))
      as Hin.
    pose proof (process_header_ok (set_header h' (set_input i' s0))) as Hok.
    destruct (process_header (set_header h' (set_input i' s0))) as [m|m];
      cbn [flow_map]; simpl in Hok.
    + change (header (set_input (i' ++ b) m)) with (header m).
      assert (set_input (i' ++ b) m = receive b m) as ->
        by (unfold receive; now rewrite Hin).
      destruct (nonempty (header m)).
      * now apply IH with s1.
      * injection H as <-.
        destruct (await_body_line seat m) as [E | [E | [E | E]]];
          try (rewrite E in Hl; destruct Hl; discriminate).
        rewrite E in H2. unfold proxy_http_process_queue in H2.
        change (crLine (receive b (set_crLine Cr295 m))) with Cr295 in H2.
        injection H2 as <-.
        change (receive b (set_crLine Cr295 m))
          with (set_crLine Cr295 (receive b m)).
        now rewrite await_body_set_crLine.
    + destruct Hok as (_ & _ & Hm). injection H as <-.
      rewrite Hm in Hl. destruct Hl; discriminate.
  - injection H as <-.
    pose proof (read_line_suspended _ _ _ _ _ _ Hr) as [-> _].
    unfold proxy_http_process_queue in H2.
    change (crLine (receive b (set_crLine Cr246
                                 (set_header h' (set_input [] s0)))))
      with Cr246 in H2.
    destruct f2 as [|f2]; [discriminate|]. cbn [header_loop] in H2.
    change (input (pn (receive b (set_crLine Cr246
                                    (set_header h' (set_input [] s0))))))
      with b in H2.
    change (header (receive b (set_crLine Cr246
                                 (set_header h' (set_input [] s0)))))
      with h' in H2.
    destruct (read_line (S f2) b h' true) as [rho|] eqn:Hr2; [|discriminate].
    pose proof (read_line_resume (S f) _ b _ _ _ _ (S f2) rho Hr Hr2) as Hres.
    cbn [Nat.add] in Hres. rewrite Hres.
    destruct rho as [[ok2 i2] h2]. destruct ok2.
    + change (set_header h2
                (set_input i2
                   (receive b (set_crLine Cr246
                                 (set_header h' (set_input [] s0))))))
        with (set_crLine Cr246 (set_header h2 (set_input i2 (receive b s0))))
        in H2.
      rewrite process_header_set_crLine in H2.
      destruct (process_header (set_header h2 (set_input i2 (receive b s0))))
        as [m|m]; cbn [flow_line] in H2; [|exact H2].
      change (header (set_crLine Cr246 m)) with (header m) in H2.
      destruct (nonempty (header m)).
      * rewrite header_loop_set_crLine in H2.
        apply header_loop_mono with f2; [exact H2 | lia].
      * now rewrite await_body_set_crLine in H2.
    + injection H2 as <-. reflexivity.
Qed.

Lemma await_status_line_split seat (f1 : nat) (t s1 : HttpProxyNegotiator) :
  await_status_line seat f1 t = Some s1 ->
  crLine s1 = Cr223 \/ crLine s1 = Cr246 \/ crLine s1 = Cr295 ->
  forall b f2 s2,
    proxy_http_process_queue seat f2 (receive b s1) = Some s2 ->
    await_status_line seat (f1 + f2) (receive b t) = Some s2.
Proof.
  unfold await_status_line. intros H Hl b f2 s2 H2.
  change (input (pn (receive b t))) with (input (pn t) ++ b).
  change (response (receive b t)) with (response t).
  destruct (read_line f1 (input (pn t)) (response t) false)
    as [[[ok i'] r']|] eqn:Hr; [|discriminate].
  destruct ok.
  - rewrite (read_line_mono _ (f1 + f2) _ _ _ _
               (read_line_more _ _ b _ _ _ _ Hr)) by lia.
    change (set_response r' (set_input (i' ++ b) (receive b t)))
      with (set_input (i' ++ b) (set_response r' (set_input i' t))).
    rewrite parse_status_line_set_input.
    pose proof (parse_status_line_input (set_response r' (set_input i' t)))
      as Hin.
    pose proof (parse_status_line_ok (set_response r' (set_input i' t)))
      as Hok.
    destruct (parse_status_line (set_response r' (set_input i' t))) as [m|m];
      cbn [flow_map]; simpl in Hok.
    + assert (set_input (i' ++ b) m = receive b m) as ->
        by (unfold receive; now rewrite Hin).
      apply header_loop_split with s1; [exact H | | exact H2].
      destruct Hl as [Hl | Hl]; [|exact Hl].
      now apply header_loop_line in H.
    + destruct Hok as (_ & _ & Hm). injection H as <-.
      rewrite Hm in Hl. destruct Hl as [Hl | [Hl | Hl]]; discriminate.
  - injection H as <-.
    pose proof (read_line_suspended _ _ _ _ _ _ Hr) as [-> _].
    unfold proxy_http_process_queue in H2.
    change (crLine (receive b (set_crLine Cr223
                                 (set_response r' (set_input [] t)))))
      with Cr223 in H2.
    unfold await_status_line in H2.
    change (input (pn (receive b (set_crLine Cr223
                                    (set_response r' (set_input [] t))))))
      with b in H2.
    change (response (receive b (set_crLine Cr223
                                   (set_response r' (set_input [] t)))))
      with r' in H2.
    destruct (read_line f2 b r' false) as [rho|] eqn:Hr2; [|discriminate].
    rewrite (read_line_resume f1 _ b _ _ _ _ f2 rho Hr Hr2).
    destruct rho as [[ok2 i2] r2]. destruct ok2.
    + change (set_response r2
                (set_input i2
                   (receive b (set_crLine Cr223
                                 (set_response r' (set_input [] t))))))
        with (set_crLine Cr223 (set_response r2 (set_input i2 (receive b t))))
        in H2.
      rewrite parse_status_line_set_crLine in H2.
      destruct (parse_status_line (set_response r2 (set_input i2 (receive b t))))
        as [m|m]; cbn [flow_line] in H2; [|exact H2].
      rewrite header_loop_set_crLine in H2.
      apply header_loop_mono with f2; [exact H2 | lia].
    + injection H2 as <-. reflexivity.
Qed.

(** X7.  The engine is insensitive to how the response is cut into
    deliveries.  When a call made on a first delivery suspends for lack
    of input (in the status line, in a header or in the body), the next
    call, on a second delivery, ends in the very state in which a single
    call on both deliveries together would have ended: no progress is
    lost and no byte is used twice. *)
Theorem call_chunks seat (f1 f2 : nat) (a b : list ascii)
    (s s1 s2 : HttpProxyNegotiator)
    (Hfirst : proxy_http_process_queue seat f1 (receive a s) = Some s1)
    (Hsuspended : crLine s1 = Cr223 \/ crLine s1 = Cr246 \/ crLine s1 = Cr295)
    (Hsecond : proxy_http_process_queue seat f2 (receive b s1) = Some s2) :
  proxy_http_process_queue seat (f1 + f2) (receive (a ++ b) s) = Some s2.
Proof.
  rewrite receive_app.
  unfold proxy_http_process_queue in Hfirst |- *.
  change (crLine (receive b (receive a s))) with (crLine s).
  change (crLine (receive a s)) with (crLine s) in Hfirst.
  destruct (crLine s) eqn:Hcr.
  - injection Hfirst as <-.
    destruct (send_request_fields (init_from_conf (receive a s)))
      as (_ & _ & _ & _ & _ & _ & _ & _ & E).
    rewrite E in Hsuspended.
    destruct Hsuspended as [Hl | [Hl | Hl]]; discriminate.
  - change (begin_response (receive b (receive a s)))
      with (receive b (begin_response (receive a s))).
    now apply await_status_line_split with s1.
  - now apply await_status_line_split with s1.
  - apply header_loop_split with s1; [exact Hfirst | | exact Hsecond].
    destruct Hsuspended as [Hl | Hl]; [|exact Hl].
    now apply header_loop_line in Hfirst.
  - injection Hfirst as <-.
    destruct (await_body_line seat (receive a s)) as [E | [E | [E | E]]];
      try (rewrite E in Hsuspended;
           destruct Hsuspended as [Hl | [Hl | Hl]]; discriminate).
    rewrite E in Hsecond. unfold proxy_http_process_queue in Hsecond.
    change (crLine (receive b (set_crLine Cr295 (receive a s))))
      with Cr295 in Hsecond.
    injection Hsecond as <-.
    change (receive b (set_crLine Cr295 (receive a s)))
      with (set_crLine Cr295 (receive b (receive a s))).
    now rewrite await_body_set_crLine.
  - injection Hfirst as <-.
    assert (crLine (prompt_wait seat (receive a s)) = Cr357
            \/ crLine (prompt_wait seat (receive a s)) = Cr0
            \/ crLine (prompt_wait seat (receive a s)) = Cr213) as E.
    { destruct (prompts (receive a s)) eqn:Hp.
      - destruct (prompt_wait_waits seat (receive a s)) as [[E _] | E];
          [congruence | now left | now right].
      - left. unfold prompt_wait. rewrite Hp. exact Hcr. }
    destruct E as [E | [E | E]]; rewrite E in Hsuspended;
      destruct Hsuspended as [Hl | [Hl | Hl]]; discriminate.
Qed.

Lemma call_chunks_witness :
  exists s1 s2,
    proxy_http_process_queue no_seat 100
      (receive (lit "HTTP/1.1 407 Proxy Auth") (sample_sent false)) = Some s1
    /\ proxy_http_process_queue no_seat 100
         (receive (lit "entication Required" ++ CRLF
                     ++ lit "Content-Length: 0" ++ CRLF ++ CRLF ++ lit "S") s1)
       = Some s2
    /\ proxy_http_process_queue no_seat (100 + 100)
         (receive (lit "HTTP/1.1 407 Proxy Auth"
                     ++ lit "entication Required" ++ CRLF
                     ++ lit "Content-Length: 0" ++ CRLF ++ CRLF ++ lit "S")
            (sample_sent false))
       = Some s2.
Proof.
  assert (exists s1, proxy_http_process_queue no_seat 100
                       (receive (lit "HTTP/1.1 407 Proxy Auth")
                          (sample_sent false)) = Some s1
                     /\ crLine s1 = Cr223)
    as (s1 & H1 & Hl1)
    by (eexists; split; vm_compute; reflexivity).
  assert (exists s2, proxy_http_process_queue no_seat 100
                       (receive (lit "entication Required" ++ CRLF
                                   ++ lit "Content-Length: 0" ++ CRLF ++ CRLF
                                   ++ lit "S") s1) = Some s2)
    as (s2 & H2).
  { assert (s1 = set_crLine Cr223
                   (set_response (lit "HTTP/1.1 407 Proxy Auth")
                      (set_input [] (begin_response (sample_sent false)))))
      as -> by (vm_compute in H1; now injection H1 as <-).
    eexists. vm_compute. reflexivity. }
  exists s1, s2. split; [exact H1|]. split; [exact H2|].
  exact (call_chunks no_seat 100 100 _ _ (sample_sent false) s1 s2
           H1 (or_introl Hl1) H2).
Defined.


(** ** The end of the headers *)






(** ** Negotiations with no user to ask *)

Lemma decide_no_prompt seat (m : HttpProxyNegotiator) :
  itr (pn m) = false -> no_prompt_step m (decide seat m).
Proof.
  intros Hitr. unfold decide, no_prompt_step.
  destruct ((200 <=? http_status m) && (http_status m <? 300))%Z.
  { fields. split; [discriminate | reflexivity]. }
  destruct (http_status m =? 407)%Z.
  2:{ fields. split; [discriminate | reflexivity]. }
  destruct (connection_close m).
  { fields. split; [discriminate | reflexivity]. }
  destruct (try_auth_from_conf m) eqn:Hf.
  { destruct (send_request_fields (set_try_auth_from_conf false m))
      as (_ & _ & Hflag & _ & _ & _ & _ & _ & Hl).
    rewrite Hl, Hflag. split; [discriminate|]. fields. discriminate. }
  rewrite Hitr. cbn [negb]. fields. split; [discriminate | reflexivity].
Qed.

Lemma await_body_no_prompt seat (m : HttpProxyNegotiator) :
  itr (pn m) = false -> no_prompt_step m (await_body seat m).
Proof.
  intros Hitr. unfold await_body.
  destruct (bufchain_try_consume (input (pn m)) (content_length m))
    as [ok rest].
  destruct ok.
  - exact (decide_no_prompt seat (set_input rest m) Hitr).
  - unfold no_prompt_step. fields. split; [discriminate | reflexivity].
Qed.

Lemma parsed_no_prompt seat (s s' : HttpProxyNegotiator) :
  itr (pn s) = false -> parsed seat s s' -> no_prompt_step s s'.
Proof.
  intros Hitr [Hv Hr Hl | Hv Hr Hl | m Hv Hr ->].
  - destruct (auth_view_fields _ _ Hv) as (_ & _ & _ & _ & Ho & _).
    split; [destruct Hl as [-> | ->]; discriminate | now intros _].
  - destruct (auth_view_fields _ _ Hv) as (_ & _ & _ & _ & Ho & _).
    split; [rewrite Hl; discriminate | now intros _].
  - destruct (auth_view_fields _ _ Hv) as (_ & _ & _ & Hf & Ho & _ & Hi).
    destruct (await_body_no_prompt seat m) as [Hl Hq]; [congruence|].
    split; [exact Hl|]. rewrite <- Hf, <- Ho. exact Hq.
Qed.

Lemma call_no_prompt (sock : ProxySocket) seat (fuel : nat)
    (bytes : list ascii) (s s' : HttpProxyNegotiator) :
  call_inv sock false s -> crLine s <> Cr357 -> terminal s = false ->
  proxy_http_process_queue seat fuel (receive bytes s) = Some s' ->
  no_prompt_step s s'.
Proof.
  intros [[_ Hitr _ _] Hline _] Hno Hterm Hcall.
  specialize (Hline Hterm).
  assert (itr (pn (receive bytes s)) = false) as Hitr' by exact Hitr.
  assert (forall x, no_prompt_step (receive bytes s) x -> no_prompt_step s x)
    as Hback by (intros x Hx; exact Hx).
  destruct (receive_view bytes s) as (_ & Hl & _).
  destruct (crLine s) eqn:Hcr; try congruence.
  - apply Hback, parsed_no_prompt with seat; [exact Hitr'|].
    apply call_parsed with fuel; [left; exact Hl | exact Hcall].
  - apply Hback, parsed_no_prompt with seat; [exact Hitr'|].
    apply call_parsed with fuel; [right; left; exact Hl | exact Hcall].
  - apply Hback, parsed_no_prompt with seat; [exact Hitr'|].
    apply call_parsed with fuel; [right; right; exact Hl | exact Hcall].
  - unfold proxy_http_process_queue in Hcall. rewrite Hl in Hcall.
    injection Hcall as <-. apply Hback.
    now apply await_body_no_prompt.
Qed.

Lemma no_interactor_inv (sock : ProxySocket) (s : HttpProxyNegotiator) :
  negotiating sock false s ->
  s = proxy_http_new sock false
  \/ (call_inv sock false s /\ crLine s <> Cr357
      /\ (output (pn s) = connect_prefix sock ++ CRLF
          \/ (output (pn s) = (connect_prefix sock ++ CRLF) ++ conf_request sock
              /\ try_auth_from_conf s = false
              /\ nonempty (cstr (conf_proxy_username sock))
                 || nonempty (cstr (conf_proxy_password sock)) = true))).
Proof.
  induction 1 as [|s seat fuel bytes s' Hneg IH Hterm Hcall]; [now left|].
  right. destruct IH as [-> | (Hinv & Hno & Hout)].
  - destruct (first_call sock false seat fuel bytes) as (s1 & H1 & Hi & Ho).
    assert (crLine s1 = Cr213) as Hl.
    { change (proxy_http_process_queue seat fuel
                (receive bytes (proxy_http_new sock false)))
        with (Some (send_request
                      (init_from_conf
                         (receive bytes (proxy_http_new sock false))))) in H1.
      injection H1 as <-. apply send_request_fields. }
    rewrite H1 in Hcall. injection Hcall as <-.
    split; [exact Hi|]. split; [rewrite Hl; discriminate | now left].
  - pose proof (call_step _ _ _ _ _ _ _ Hinv Hterm Hcall)
      as [Hinv' _ Hstays Hretry].
    destruct (call_no_prompt _ _ _ _ _ _ Hinv Hno Hterm Hcall) as [Hno' Hq].
    split; [exact Hinv'|]. split; [exact Hno'|].
    destruct Hout as [Hout | (Hout & Hf & Hne)].
    + destruct (try_auth_from_conf s) eqn:Hfs;
        destruct (try_auth_from_conf s') eqn:Hfs'.
      * left. now rewrite Hq.
      * right. rewrite Hretry, Hout by reflexivity.
        split; [reflexivity|]. split; [reflexivity|].
        destruct Hinv as [[_ _ _ Hpend] _ _].
        destruct (Hpend Hfs) as (Hu & Hp & Hn). now rewrite <- Hu, <- Hp.
      * specialize (Hstays eq_refl). discriminate.
      * left. now rewrite Hq.
    + right. specialize (Hstays Hf).
      split; [|now split]. rewrite Hq; [exact Hout | congruence].
Qed.

(** X20.  With no user to ask, a negotiation writes at most two requests
    in its whole life: the plain one of the first call and, only when
    credentials are configured, one retry that carries them.  Whatever
    the proxy answers and however often it asks for authentication,
    nothing else is ever written. *)
Theorem unattended_at_most_two_requests (sock : ProxySocket)
    (s : HttpProxyNegotiator) (Hneg : negotiating sock false s) :
  output (pn s) = []
  \/ output (pn s) = connect_prefix sock ++ CRLF
  \/ (output (pn s) = (connect_prefix sock ++ CRLF) ++ conf_request sock
      /\ nonempty (cstr (conf_proxy_username sock))
         || nonempty (cstr (conf_proxy_password sock)) = true).
Proof.
  destruct (no_interactor_inv sock s Hneg)
    as [-> | (_ & _ & [Hout | (Hout & _ & Hne)])].
  - now left.
  - now right; left.
  - now right; right.
Qed.

Lemma unattended_at_most_two_requests_witness :
  exists s',
    proxy_http_process_queue no_seat 200
      (receive sample_407 (sample_sent false)) = Some s'
    /\ (output (pn s') = []
        \/ output (pn s') = connect_prefix sample_socket ++ CRLF
        \/ (output (pn s')
            = (connect_prefix sample_socket ++ CRLF)
                ++ conf_request sample_socket
            /\ nonempty (cstr (conf_proxy_username sample_socket))
               || nonempty (cstr (conf_proxy_password sample_socket))
               = true)).
Proof.
  assert (exists s', proxy_http_process_queue no_seat 200
                       (receive sample_407 (sample_sent false)) = Some s')
    as [s' Hcall] by (eexists; vm_compute; reflexivity).
  exists s'. split; [exact Hcall|].
  exact (unattended_at_most_two_requests sample_socket s'
           (negotiating_call sample_socket false (sample_sent false)
              no_seat 200 sample_407 s'
              (sample_sent_negotiating false) eq_refl Hcall)).
Defined.


(** ** The credentials on the wire *)

Lemma base64_char_alphabet (v : Z) :
  In (base64_char v) base64_alphabet \/ base64_char v = "="%char.
Proof.
  unfold base64_char.
  destruct (nth_in_or_default (Z.to_nat v) base64_alphabet "="%char);
    [now left | now right].
Qed.

Lemma base64_encode_atom_chars (data : list ascii) :
  length (base64_encode_atom data) = 4%nat
  /\ Forall (fun c => In c base64_alphabet \/ c = "="%char)
       (base64_encode_atom data).
Proof.
  unfold base64_encode_atom. split; [reflexivity|].
  apply Forall_cons; [apply base64_char_alphabet|].
  apply Forall_cons; [apply base64_char_alphabet|].
  apply Forall_cons.
  { destruct (1 <? length data)%nat;
      [apply base64_char_alphabet | right; reflexivity]. }
  apply Forall_cons; [|apply Forall_nil].
  destruct (2 <? length data)%nat;
    [apply base64_char_alphabet | right; reflexivity].
Qed.

(** The loop of lines 196-200 writes four characters for every group of
    up to three bytes. *)
Lemma base64_encode_chars (n : nat) :
  forall input,
    (length input <= n)%nat ->
    length (base64_encode input) = (4 * ((length input + 2) / 3))%nat
    /\ Forall (fun c => In c base64_alphabet \/ c = "="%char)
         (base64_encode input).
Proof.
  induction n as [|n IH]; intros input Hlen.
  - destruct input; [|simpl in Hlen; lia]. split; [reflexivity | constructor].
  - destruct input as [|a [|b [|c rest]]].
    + split; [reflexivity | constructor].
    + exact (base64_encode_atom_chars [a]).
    + exact (base64_encode_atom_chars [a; b]).
    + change (base64_encode (a :: b :: c :: rest))
        with (base64_encode_atom [a; b; c] ++ base64_encode rest).
      destruct (IH rest) as [Hl Hc]; [simpl in Hlen; lia|].
      destruct (base64_encode_atom_chars [a; b; c]) as [Hl3 Hc3].
      split.
      * rewrite length_app, Hl3, Hl.
        change (length (a :: b :: c :: rest)) with (3 + length rest)%nat.
        replace (3 + length rest + 2)%nat
          with (length rest + 2 + 1 * 3)%nat by lia.
        rewrite Nat.div_add by discriminate. lia.
      * apply Forall_app. now split.
Qed.

(** X21.  Whatever bytes the user name and the password hold, the
    request that carries them holds them in one [Proxy-Authorization]
    line only: after the two fixed lines comes the header name, then
    four characters for every group of up to three bytes of
    [user:password], each of them a letter, a digit, [+], [/] or [=],
    hence no carriage return and no newline, then the end of the line
    and the blank line. *)
Theorem credentials_stay_on_one_line (m : HttpProxyNegotiator)
    (Htried : tried_no_auth m = true)
    (Hcred : nonempty (username m) || nonempty (password m) = true) :
  exists b,
    output (pn (send_request m))
    = output (pn m) ++ connect_prefix (ps (pn m))
        ++ lit "Proxy-Authorization: Basic " ++ b ++ CRLF ++ CRLF
    /\ length b
       = (4 * ((length (username m) + length (password m) + 3) / 3))%nat
    /\ Forall (fun c => In c base64_alphabet \/ c = "="%char) b
    /\ ~ In CR b /\ ~ In LF b.
Proof.
  exists (base64_encode (username m ++ [":"%char] ++ password m)).
  destruct (base64_encode_chars
              (length (username m ++ [":"%char] ++ password m))
              (username m ++ [":"%char] ++ password m) (le_n _))
    as [Hl Hc].
  split; [|split; [|split; [exact Hc|]]].
  - rewrite (send_request_output m Htried). unfold auth_line.
    rewrite Hcred. now rewrite <- !app_assoc.
  - rewrite Hl, !length_app. cbn [length].
    replace (length (username m) + (1 + length (password m)) + 2)%nat
      with (length (username m) + length (password m) + 3)%nat by lia.
    reflexivity.
  - rewrite Forall_forall in Hc.
    split; intros Hin; apply Hc in Hin; destruct Hin as [Hin | Hin];
      try discriminate;
      vm_compute in Hin;
      repeat (destruct Hin as [Hin | Hin]; [discriminate|]); exact Hin.
Qed.

Lemma credentials_stay_on_one_line_witness :
  exists b,
    output (pn (send_request (sample_sent false)))
    = output (pn (sample_sent false)) ++ connect_prefix sample_socket
        ++ lit "Proxy-Authorization: Basic " ++ b ++ CRLF ++ CRLF
    /\ length b = 12%nat.
Proof.
  destruct (credentials_stay_on_one_line (sample_sent false)
              ltac:(vm_compute; reflexivity) ltac:(vm_compute; reflexivity))
    as (b & Hout & Hlen & _).
  exists b. split; [exact Hout | exact Hlen].
Defined.
